(** * Library loans and reservations: copy allocation, expiry, access policy

    A shallow embedding of the reservation and loan services of the library
    application ([app/services.py], [app/services_reservations.py]), of the
    tables they work on ([app/models.py], [migrations/]) and of the GUI
    handlers that guard them ([app/gui_main.py], [app/gui_reserve.py]); then
    of the services around them: the branches offered for a book, the
    catalogue's copies ([app/services_catalog.py]), log-in and the deletion
    of users.

    The relational store is a record of tables, each table a list of rows in
    storage order.  Every service function is a function from the store (and
    the clock readings it makes) to the new store and its result.  Requests
    are taken one at a time: a row lock ([for_update]) only delays a
    concurrent caller, so it leaves no trace in this sequential model. *)

From Stdlib Require Import ZArith List String Ascii Bool Lia Arith.
Import ListNotations.

Open Scope string_scope.
Open Scope list_scope.
Open Scope Z_scope.

(** ** Dates and timestamps *)

Module PyTime.

(** A [datetime.date] is its proleptic ordinal, from 1 (1 January of year
    1) to [MAXORDINAL] (31 December 9999).  The services add the constants
    1, 3 and 14 to clock readings and stored dates; these sums are written
    [d + n], for dates more than 14 days before the end of year 9999.  The
    sum with a number of days that the caller chooses is [add_days]. *)
Definition date := Z.

(** [date.max.toordinal()]. *)
Definition MAXORDINAL : Z := 3652059.

(** [d + timedelta(days=n)]: [None] stands for the [OverflowError] that
    [timedelta] raises beyond 999999999 days and that the sum raises when it
    leaves the years 1 to 9999. *)
Definition add_days (d : date) (n : Z) : option date :=
  if (Z.abs n <=? 999999999) && (1 <=? d + n) && (d + n <=? MAXORDINAL)
  then Some (d + n)
  else None.

(** [datetime.time(hour, minute, second, microsecond)]. *)
Record time := mk_time
  { hour : Z; minute : Z; second : Z; microsecond : Z }.

(** A naive [datetime.datetime]: a date and a time of day. *)
Record datetime := mk_datetime
  { dt_date : date; dt_time : time }.

(** [datetime.combine(d, t)]. *)
Definition combine (d : date) (t : time) : datetime := mk_datetime d t.

(** Field-by-field (lexicographic) order of times of day. *)
Definition time_ltb (a b : time) : bool :=
  (hour a <? hour b)
  || ((hour a =? hour b)
      && ((minute a <? minute b)
          || ((minute a =? minute b)
              && ((second a <? second b)
                  || ((second a =? second b)
                      && (microsecond a <? microsecond b)))))).

(** [a < b] on naive datetimes (and on SQL timestamps). *)
Definition dt_ltb (a b : datetime) : bool :=
  (dt_date a <? dt_date b)
  || ((dt_date a =? dt_date b) && time_ltb (dt_time a) (dt_time b)).

End PyTime.
Export PyTime.

(** ** Python strings: [str.strip] *)

Module PyStr.

(** Code points below 256 for which [str.isspace] holds. *)
Definition is_space (c : ascii) : bool :=
  let n := nat_of_ascii c in
  ((9 <=? n) && (n <=? 13))%nat
  || ((28 <=? n) && (n <=? 32))%nat
  || (n =? 133)%nat || (n =? 160)%nat.

Fixpoint lstrip (s : string) : string :=
  match s with
  | EmptyString => EmptyString
  | String c s' => if is_space c then lstrip s' else s
  end.

(** [rstrip]: a character is kept when it is not a space or when something
    is kept after it. *)
Fixpoint rstrip (s : string) : string :=
  match s with
  | EmptyString => EmptyString
  | String c s' =>
      match rstrip s' with
      | EmptyString => if is_space c then EmptyString else String c EmptyString
      | r => String c r
      end
  end.

Definition strip (s : string) : string := rstrip (lstrip s).

(** Truth value of a string: [not s] is [is_empty s]. *)
Definition is_empty (s : string) : bool :=
  match s with EmptyString => true | _ => false end.

End PyStr.
Export PyStr.

(** ** Rows and tables ([app/models.py]) *)

Module models.

(** Only the columns read or written by the loan and reservation services
    are kept ([price], [condition_note], [created_at], ... are left out). *)

Record User := mk_User
  { user_id : Z; user_login : string }.

Record Location := mk_Location
  { location_id : Z; location_branch_id : Z }.

Record Copy := mk_Copy
  { copy_id : Z;
    copy_inventory_code : string;
    copy_status : string;
    copy_book_id : Z;
    copy_location_id : option Z }.

Record Loan := mk_Loan
  { loan_id : Z;
    loan_status : string;
    loan_start_date : date;
    loan_due_date : date;
    loan_return_date : option date;
    loan_copy_id : Z;
    loan_reader_id : Z;
    loan_librarian_id : Z }.

Record Reservation := mk_Reservation
  { reservation_id : Z;
    reservation_status : string;
    reservation_pickup_date : date;
    reservation_expires_at : datetime;
    reservation_extended_once : bool;
    reservation_reader_id : Z;
    reservation_copy_id : Z;
    reservation_branch_id : Z }.

(** The database: the five tables and the two id sequences of the tables
    the services insert into. *)
Record Store := mk_Store
  { users : list User;
    locations : list Location;
    copies : list Copy;
    loans : list Loan;
    reservations : list Reservation;
    loans_id_seq : Z;
    reservations_id_seq : Z }.

Definition with_copies (st : Store) (cs : list Copy) : Store :=
  mk_Store (users st) (locations st) cs (loans st) (reservations st)
           (loans_id_seq st) (reservations_id_seq st).

Definition with_loans (st : Store) (ls : list Loan) : Store :=
  mk_Store (users st) (locations st) (copies st) ls (reservations st)
           (loans_id_seq st) (reservations_id_seq st).

Definition with_reservations (st : Store) (rs : list Reservation) : Store :=
  mk_Store (users st) (locations st) (copies st) (loans st) rs
           (loans_id_seq st) (reservations_id_seq st).

Definition with_seqs (st : Store) (lseq rseq : Z) : Store :=
  mk_Store (users st) (locations st) (copies st) (loans st) (reservations st)
           lseq rseq.

Definition set_copy_status (s : string) (c : Copy) : Copy :=
  mk_Copy (copy_id c) (copy_inventory_code c) s (copy_book_id c)
          (copy_location_id c).

Definition set_loan_status (s : string) (l : Loan) : Loan :=
  mk_Loan (loan_id l) s (loan_start_date l) (loan_due_date l)
          (loan_return_date l) (loan_copy_id l) (loan_reader_id l)
          (loan_librarian_id l).

Definition set_reservation_status (s : string) (r : Reservation) : Reservation :=
  mk_Reservation (reservation_id r) s (reservation_pickup_date r)
                 (reservation_expires_at r) (reservation_extended_once r)
                 (reservation_reader_id r) (reservation_copy_id r)
                 (reservation_branch_id r).

End models.
Export models.

(** ** The query layer (peewee over PostgreSQL) *)

Module db.

Inductive exn := IntegrityError | DoesNotExist | OverflowError.

(** What a call does: it returns a value or raises. *)
Inductive outcome (A : Type) :=
| Ret (a : A)
| Raise (e : exn).
Arguments Ret {A} a.
Arguments Raise {A} e.

(** [Model.update(...).where(p).execute()]: every row matching [p] is
    rewritten, the others are kept, the order of rows is kept. *)
Definition update_where {A} (p : A -> bool) (f : A -> A) (rows : list A) : list A :=
  map (fun r => if p r then f r else r) rows.

(** The number of rows an [update ... where p] modifies. *)
Definition count_where {A} (p : A -> bool) (rows : list A) : Z :=
  Z.of_nat (List.length (filter p rows)).

(** [Model.get_or_none(p)] and [select().where(p).first()]. *)
Definition get_or_none {A} (p : A -> bool) (rows : list A) : option A :=
  find p rows.

(** [x.in_(xs)]. *)
Definition in_ (x : Z) (xs : list Z) : bool := existsb (Z.eqb x) xs.

(** [with db.atomic():] the block's writes are kept when it is left
    normally (also by [return]) and undone when it is left by an
    exception.  Sequences are not transactional in PostgreSQL: a value
    drawn inside a block that is rolled back stays drawn. *)
Definition atomic {A} (body : Store -> Store * outcome A) (st : Store)
  : Store * outcome A :=
  match body st with
  | (st', Ret a) => (st', Ret a)
  | (st', Raise e) =>
      (with_seqs st (loans_id_seq st') (reservations_id_seq st'), Raise e)
  end.

(** [s in (...)], [Model.status.in_(...)]. *)
Definition status_in (s : string) (l : list string) : bool :=
  existsb (String.eqb s) l.

(** A row of [users] with this id: what the foreign keys to [users] ask. *)
Definition is_user (id : Z) (st : Store) : bool :=
  existsb (fun u => user_id u =? id) (users st).

Definition set_loan_id (id : Z) (l : Loan) : Loan :=
  mk_Loan id (loan_status l) (loan_start_date l) (loan_due_date l)
          (loan_return_date l) (loan_copy_id l) (loan_reader_id l)
          (loan_librarian_id l).

(** [INSERT INTO loans]: the id is drawn from the sequence (the id of the
    row passed in is not read), also when the row is then refused.  The
    partial unique index [uq_one_open_loan_per_copy] (migration 001)
    refuses a second open or overdue loan of one copy; the foreign keys
    [loans.reader_id] and [loans.librarian_id] ([app/models.py]) refuse a
    reader or librarian who is not in [users].  (The copy of the row has
    been read under a lock in the same transaction: the foreign key to
    [copies] holds.) *)
Definition insert_loan (l : Loan) (st : Store) : Store * outcome Loan :=
  let row := set_loan_id (loans_id_seq st) l in
  let st1 := with_seqs st (loans_id_seq st + 1) (reservations_id_seq st) in
  if status_in (loan_status l) ["open"; "overdue"]
     && existsb (fun l' => (loan_copy_id l' =? loan_copy_id l)
                           && status_in (loan_status l') ["open"; "overdue"])
                (loans st)
  then (st1, Raise IntegrityError)
  else if negb (is_user (loan_reader_id l) st && is_user (loan_librarian_id l) st)
  then (st1, Raise IntegrityError)
  else (with_loans st1 (loans st1 ++ [row]), Ret row).

Definition set_reservation_id (id : Z) (r : Reservation) : Reservation :=
  mk_Reservation id (reservation_status r) (reservation_pickup_date r)
                 (reservation_expires_at r) (reservation_extended_once r)
                 (reservation_reader_id r) (reservation_copy_id r)
                 (reservation_branch_id r).

(** [INSERT INTO reservations]: the partial unique index
    [uq_reservation_active_copy] (migration 002) refuses a second active
    reservation of one copy, the foreign key [reservations.reader_id] a
    reader who is not in [users]; the sequence has moved all the same.  (The
    copy of the row has been read under a lock in the same transaction, and
    its location is a row of the branch: the foreign keys to [copies] and
    [branches] hold.) *)
Definition insert_reservation (r : Reservation) (st : Store)
  : Store * outcome Reservation :=
  let row := set_reservation_id (reservations_id_seq st) r in
  let st1 := with_seqs st (loans_id_seq st) (reservations_id_seq st + 1) in
  if (reservation_status r =? "active")%string
     && existsb (fun r' => (reservation_copy_id r' =? reservation_copy_id r)
                           && (reservation_status r' =? "active")%string)
                (reservations st)
  then (st1, Raise IntegrityError)
  else if negb (is_user (reservation_reader_id r) st)
  then (st1, Raise IntegrityError)
  else (with_reservations st1 (reservations st1 ++ [row]), Ret row).

(** [order_by(Copy.id.asc())]: insertion sort on the id, stable. *)
Fixpoint insert_by_id (c : Copy) (l : list Copy) : list Copy :=
  match l with
  | [] => [c]
  | c' :: l' => if copy_id c <=? copy_id c' then c :: l
                else c' :: insert_by_id c l'
  end.

Definition order_by_id_asc (l : list Copy) : list Copy :=
  fold_right insert_by_id [] l.

(** [query.first()]. *)
Definition first {A} (rows : list A) : option A := hd_error rows.

End db.
Export db.

(** ** Rights and sessions ([app/services.py], "ПРАВА") *)

Module rights.

#[local] Set Warnings "-register-all".

(** The Python values a JSON column decodes to (floats are left out). *)
Inductive pyval :=
| PNone
| PBool (b : bool)
| PInt (z : Z)
| PStr (s : string)
| PList (l : list pyval)
| PDict (d : list (string * pyval)).

(** A [dict] keyed by strings: its items in insertion order. *)
Definition dict := list (string * pyval).

(** [d.get(k)]. *)
Fixpoint dict_get (k : string) (d : dict) : option pyval :=
  match d with
  | [] => None
  | (k', v) :: d' => if (k' =? k)%string then Some v else dict_get k d'
  end.

(** [d[k] = v]: the value of an existing key is replaced in place, a new
    key goes to the end. *)
Fixpoint dict_set (k : string) (v : pyval) (d : dict) : dict :=
  match d with
  | [] => [(k, v)]
  | (k', v') :: d' =>
      if (k' =? k)%string then (k', v) :: d' else (k', v') :: dict_set k v d'
  end.

(** [d.setdefault(k, v)] (its result is not used by the callers). *)
Definition dict_setdefault (k : string) (v : pyval) (d : dict) : dict :=
  match dict_get k d with
  | Some _ => d
  | None => dict_set k v d
  end.

(** [bool(v)]. *)
Definition truthy (v : pyval) : bool :=
  match v with
  | PNone => false
  | PBool b => b
  | PInt z => negb (z =? 0)
  | PStr s => negb (is_empty s)
  | PList l => match l with [] => false | _ => true end
  | PDict d => match d with [] => false | _ => true end
  end.

(** [v is True]. *)
Definition is_True (v : option pyval) : bool :=
  match v with Some (PBool true) => true | _ => false end.

Record Role := mk_Role
  { role_id : Z; role_name : string; role_rights : pyval }.

Record UserRole := mk_UserRole
  { user_role_user_id : Z; user_role_role_id : Z }.

Record Session := mk_Session
  { session_user : User;
    session_roles : list string;
    session_rights : dict }.

Section WithJson.

(** [json.loads]: [None] stands for the exception it raises on text
    that is not JSON. *)
Variable json_loads : string -> option pyval.

Definition _normalize_rights (v : pyval) : dict :=
  match v with
  | PNone => []
  | PDict d => d
  | PStr s =>
      let s := strip s in
      if is_empty s then []
      else match json_loads s with
           | Some (PDict obj) => obj
           | _ => []
           end
  | _ => []
  end.

(** One step of the inner loop of [get_user_rights]. *)
Definition merge_item (merged : dict) (item : string * pyval) : dict :=
  let (k, val) := item in
  if (k =? "all")%string then merged
  else match val with
       | PBool true => dict_set k (PBool true) merged
       | PBool false => dict_setdefault k (PBool false) merged
       | _ => dict_set k val merged
       end.

(** The outer loop over the rights of the user's roles, with its early
    [return {"all": True}]; [merged] is the dictionary built so far. *)
Fixpoint merge_roles (q : list pyval) (merged : dict) : dict :=
  match q with
  | [] => merged
  | r :: q' =>
      let d := _normalize_rights r in
      if is_True (dict_get "all" d) then [("all", PBool true)]
      else merge_roles q' (fold_left merge_item d merged)
  end.

(** [Role.select(Role.rights).join(UserRole).where(UserRole.user == user)].
    The query has no ORDER BY, so the order of its rows is the database's
    choice; the rows come here in the order of [roles], and what is proved
    of them is proved for every table [roles], whatever its order. *)
Definition user_role_rights (roles : list Role) (user_roles : list UserRole)
           (user : User) : list pyval :=
  flat_map
    (fun r =>
       map (fun _ => role_rights r)
           (filter (fun ur => (user_role_role_id ur =? role_id r)
                              && (user_role_user_id ur =? user_id user))
                   user_roles))
    roles.

Definition get_user_rights (roles : list Role) (user_roles : list UserRole)
           (user : User) : dict :=
  merge_roles (user_role_rights roles user_roles user) [].

End WithJson.

(** [Session.can]; [self.rights or {}] is [self.rights], an empty
    dictionary being replaced by an empty dictionary. *)
Definition can (s : Session) (perm : string) : bool :=
  let d := session_rights s in
  if is_True (dict_get "all" d) then true
  else match dict_get perm d with
       | Some v => truthy v
       | None => false
       end.

End rights.
Export rights.

(** ** Messages

    The services answer with a success flag and a Russian text; the texts
    are kept apart by constructor, with the values they interpolate. *)

Inductive Msg :=
| MsgNeedCodeAndReader            (* "Нужно указать инвентарный код и читателя." *)
| MsgCopyNotFound (code : string) (* "Экземпляр {code} не найден." *)
| MsgCopyNotAvailable (status : string)
                                  (* "Экземпляр сейчас не доступен (status=...)." *)
| MsgReaderNotFound (login : string) (* "Читатель {login} не найден." *)
| MsgCopyTaken (status : string)  (* "Кто-то уже успел забрать (status=...)." *)
| MsgLoanIssued (id : Z) (due : date)
                                  (* "Выдача оформлена. Loan ID=..., до ...." *)
| MsgDbError                      (* "Ошибка БД: ..." *)
| MsgLoanNotFound                 (* "Выдача не найдена." *)
| MsgCannotReturn (status : string)
                                  (* "Нельзя вернуть выдачу со статусом ...." *)
| MsgLoanStatusChanged (status : string)
                                  (* "Уже изменили статус на ...." *)
| MsgReturned                     (* "Возврат оформлен." *)
| MsgPickupDateRange              (* "Дату можно выбрать от сегодня до сегодня+3 дня." *)
| MsgNoFreeCopies                 (* "В этом филиале уже нет свободных экземпляров." *)
| MsgReservationCreated (pickup : date)
                                  (* "Резерв создан до конца дня ...." *)
| MsgReservationNotFound          (* "Резерв не найден." *)
| MsgNotYourReservation           (* "Это не ваш резерв." *)
| MsgReservationNoLongerActive    (* "Резерв уже не активен." *)
| MsgReservationCancelled         (* "Резерв отменён." *)
| MsgExtendOnlyOnce               (* "Продлить можно только один раз." *)
| MsgExtended (new_pick : date)   (* "Продлено до ...." *)
| MsgReservationNotActive         (* "Резерв не активен." *)
| MsgCopyNotReserved              (* "Экземпляр не зарезервирован." *)
| MsgActiveLoanExists             (* "На этот экземпляр уже есть активная выдача." *)
| MsgFulfilled (due : date).      (* "Выдано до ...." *)

(** ** Loans ([app/services.py], "Выдачи") *)

Module services.

Definition DEFAULT_LOAN_DAYS : Z := 14.

(** [copy.save()], [Copy.update(status=s).where(Copy.id == id)]: the row
    read under the lock is written back with its new status. *)
Definition save_copy_status (id : Z) (s : string) (st : Store) : Store :=
  with_copies st
    (update_where (fun c => copy_id c =? id) (set_copy_status s) (copies st)).

(** [today] is the reading of [date.today()]. *)
Definition issue_loan (today : date) (inventory_code reader_login : string)
           (librarian_user : User) (st : Store)
  : Store * outcome (bool * Msg) :=
  let inventory_code := strip inventory_code in
  let reader_login := strip reader_login in
  if is_empty inventory_code || is_empty reader_login
  then (st, Ret (false, MsgNeedCodeAndReader))
  else
    match get_or_none
            (fun c => (copy_inventory_code c =? inventory_code)%string)
            (copies st) with
    | None => (st, Ret (false, MsgCopyNotFound inventory_code))
    | Some copy =>
        if negb (copy_status copy =? "available")%string
        then (st, Ret (false, MsgCopyNotAvailable (copy_status copy)))
        else
          match get_or_none (fun u => (user_login u =? reader_login)%string)
                            (users st) with
          | None => (st, Ret (false, MsgReaderNotFound reader_login))
          | Some reader =>
              let start := today in
              let due := start + DEFAULT_LOAN_DAYS in
              let block :=
                atomic
                  (fun st =>
                     match get_or_none (fun c => copy_id c =? copy_id copy)
                                       (copies st) with
                     | None => (st, Raise DoesNotExist)
                     | Some copy =>
                         if negb (copy_status copy =? "available")%string
                         then (st, Ret (false, MsgCopyTaken (copy_status copy)))
                         else
                           match insert_loan
                                   (mk_Loan 0 "open" start due None
                                            (copy_id copy) (user_id reader)
                                            (user_id librarian_user)) st with
                           | (st1, Raise e) => (st1, Raise e)
                           | (st1, Ret loan) =>
                               (save_copy_status (copy_id copy) "loaned" st1,
                                Ret (true, MsgLoanIssued (loan_id loan) due))
                           end
                     end) st in
              match block with
              | (st', Raise IntegrityError) => (st', Ret (false, MsgDbError))
              | r => r
              end
          end
    end.

(** [loan.save()] in [return_loan]: the row with the loan's id gets the
    new status, return date and librarian.  The new [librarian_id] is under
    the foreign key to [users]: for a caller who is not in [users] the
    [UPDATE] raises, and [return_loan] does not catch it. *)
Definition close_loan (today : date) (librarian_user : User) (l : Loan) : Loan :=
  mk_Loan (loan_id l) "returned" (loan_start_date l) (loan_due_date l)
          (Some today) (loan_copy_id l) (loan_reader_id l)
          (user_id librarian_user).

Definition return_loan (today : date) (loan_id_arg : Z) (librarian_user : User)
           (st : Store) : Store * outcome (bool * Msg) :=
  match get_or_none (fun l => loan_id l =? loan_id_arg) (loans st) with
  | None => (st, Ret (false, MsgLoanNotFound))
  | Some loan =>
      if negb (status_in (loan_status loan) ["open"; "overdue"])
      then (st, Ret (false, MsgCannotReturn (loan_status loan)))
      else
        atomic
          (fun st =>
             match get_or_none (fun l => loan_id l =? loan_id_arg) (loans st) with
             | None => (st, Raise DoesNotExist)
             | Some loan =>
                 if negb (status_in (loan_status loan) ["open"; "overdue"])
                 then (st, Ret (false, MsgLoanStatusChanged (loan_status loan)))
                 else if negb (is_user (user_id librarian_user) st)
                 then (st, Raise IntegrityError)
                 else
                   let st1 :=
                     with_loans st
                       (update_where (fun l => loan_id l =? loan_id loan)
                                     (close_loan today librarian_user)
                                     (loans st)) in
                   (* copy = loan.copy *)
                   match get_or_none (fun c => copy_id c =? loan_copy_id loan)
                                     (copies st1) with
                   | None => (st1, Raise DoesNotExist)
                   | Some copy =>
                       (save_copy_status (copy_id copy) "available" st1,
                        Ret (true, MsgReturned))
                   end
             end) st
  end.

Definition update_overdue_statuses (today : date) (st : Store) : Store * Z :=
  let p := fun l => (loan_status l =? "open")%string
                    && (loan_due_date l <? today) in
  (with_loans st (update_where p (set_loan_status "overdue") (loans st)),
   count_where p (loans st)).

End services.
Export services.

(** ** Reservations ([app/services_reservations.py]) *)

Module services_reservations.

Definition ACTIVE_LOAN_STATUSES : list string := ["open"; "overdue"].

Definition _end_of_day (d : date) : datetime :=
  combine d (mk_time 23 59 59 0).

(** The rows of the sweep's query: active and past their expiry. *)
Definition stale (now : datetime) (r : Reservation) : bool :=
  (reservation_status r =? "active")%string
  && dt_ltb (reservation_expires_at r) now.

(** [now] is the reading of [datetime.now()].  Nothing in the block
    raises, so its transaction always commits. *)
Definition expire_old_reservations (now : datetime) (st : Store) : Store * Z :=
  let q := filter (stale now) (reservations st) in
  let ids := map reservation_id q in
  let copy_ids := map reservation_copy_id q in
  match ids with
  | [] => (st, 0)
  | _ =>
      let st1 :=
        with_reservations st
          (update_where (fun r => in_ (reservation_id r) ids)
                        (set_reservation_status "expired")
                        (reservations st)) in
      let st2 :=
        with_copies st1
          (update_where (fun c => in_ (copy_id c) copy_ids
                                  && (copy_status c =? "reserved")%string)
                        (set_copy_status "available")
                        (copies st1)) in
      (st2, Z.of_nat (List.length ids))
  end.

(** The inner join of a copy with [locations], filtered on the branch. *)
Definition at_branch (st : Store) (branch_id : Z) (c : Copy) : bool :=
  match copy_location_id c with
  | None => false
  | Some loc =>
      existsb (fun l => (location_id l =? loc)
                        && (location_branch_id l =? branch_id))
              (locations st)
  end.

(** The rows of [copy_q], before ordering. *)
Definition available_copies (st : Store) (book_id branch_id : Z) : list Copy :=
  filter (fun c => (copy_book_id c =? book_id)
                   && (copy_status c =? "available")%string
                   && at_branch st branch_id c)
         (copies st).

(** [today] and [now] are the readings of [date.today()] and, in the
    sweep, of [datetime.now()]. *)
Definition create_reservation (today : date) (now : datetime)
           (reader : User) (book_id branch_id : Z) (pickup_date : date)
           (st : Store) : Store * outcome (bool * Msg * option Z) :=
  if (pickup_date <? today) || (pickup_date >? today + 3)
  then (st, Ret (false, MsgPickupDateRange, None))
  else
    let st := fst (expire_old_reservations now st) in
    atomic
      (fun st =>
         let copy_q := order_by_id_asc (available_copies st book_id branch_id) in
         match first copy_q with
         | None => (st, Ret (false, MsgNoFreeCopies, None))
         | Some copy_obj =>
             let st1 := save_copy_status (copy_id copy_obj) "reserved" st in
             match insert_reservation
                     (mk_Reservation 0 "active" pickup_date
                                     (_end_of_day pickup_date) false
                                     (user_id reader) (copy_id copy_obj)
                                     branch_id) st1 with
             | (st2, Raise e) => (st2, Raise e)
             | (st2, Ret res) =>
                 (st2, Ret (true, MsgReservationCreated pickup_date,
                            Some (reservation_id res)))
             end
         end) st.

Definition cancel_reservation (now : datetime) (reader : User)
           (reservation_id_arg : Z) (st : Store) : Store * outcome (bool * Msg) :=
  let st := fst (expire_old_reservations now st) in
  atomic
    (fun st =>
       match get_or_none (fun r => reservation_id r =? reservation_id_arg)
                         (reservations st) with
       | None => (st, Ret (false, MsgReservationNotFound))
       | Some res =>
           if negb (reservation_reader_id res =? user_id reader)
           then (st, Ret (false, MsgNotYourReservation))
           else if negb (reservation_status res =? "active")%string
           then (st, Ret (false, MsgReservationNoLongerActive))
           else
             let st1 :=
               with_reservations st
                 (update_where (fun r => reservation_id r =? reservation_id res)
                               (set_reservation_status "cancelled")
                               (reservations st)) in
             let st2 :=
               with_copies st1
                 (update_where
                    (fun c => (copy_id c =? reservation_copy_id res)
                              && (copy_status c =? "reserved")%string)
                    (set_copy_status "available")
                    (copies st1)) in
             (st2, Ret (true, MsgReservationCancelled))
       end) st.

(** [res.save()] in [extend_reservation]. *)
Definition extend_row (new_pick : date) (r : Reservation) : Reservation :=
  mk_Reservation (reservation_id r) (reservation_status r) new_pick
                 (_end_of_day new_pick) true
                 (reservation_reader_id r) (reservation_copy_id r)
                 (reservation_branch_id r).

Definition extend_reservation (now : datetime) (reader : User)
           (reservation_id_arg : Z) (st : Store) : Store * outcome (bool * Msg) :=
  let st := fst (expire_old_reservations now st) in
  atomic
    (fun st =>
       match get_or_none (fun r => reservation_id r =? reservation_id_arg)
                         (reservations st) with
       | None => (st, Ret (false, MsgReservationNotFound))
       | Some res =>
           if negb (reservation_reader_id res =? user_id reader)
           then (st, Ret (false, MsgNotYourReservation))
           else if negb (reservation_status res =? "active")%string
           then (st, Ret (false, MsgReservationNoLongerActive))
           else if reservation_extended_once res
           then (st, Ret (false, MsgExtendOnlyOnce))
           else
             let new_pick := reservation_pickup_date res + 1 in
             (with_reservations st
                (update_where (fun r => reservation_id r =? reservation_id res)
                              (extend_row new_pick)
                              (reservations st)),
              Ret (true, MsgExtended new_pick))
       end) st.

(** [today] is read after the checks, [now] in the sweep. *)
Definition fulfill_reservation (today : date) (now : datetime)
           (librarian : User) (reservation_id_arg : Z) (loan_days : Z)
           (st : Store) : Store * outcome (bool * Msg) :=
  let st := fst (expire_old_reservations now st) in
  atomic
    (fun st =>
       (* Reservation joined with its copy *)
       match get_or_none (fun r => reservation_id r =? reservation_id_arg)
                         (filter (fun r => existsb (fun c => copy_id c
                                                    =? reservation_copy_id r)
                                                   (copies st))
                                 (reservations st)) with
       | None => (st, Ret (false, MsgReservationNotFound))
       | Some res =>
           if negb (reservation_status res =? "active")%string
           then (st, Ret (false, MsgReservationNotActive))
           else
             match get_or_none (fun c => copy_id c =? reservation_copy_id res)
                               (copies st) with
             | None => (st, Ret (false, MsgReservationNotFound))
             | Some copy_obj =>
                 if negb (copy_status copy_obj =? "reserved")%string
                 then (st, Ret (false, MsgCopyNotReserved))
                 else
                   let exists_open :=
                     existsb (fun l => (loan_copy_id l =? copy_id copy_obj)
                                       && status_in (loan_status l)
                                                    ACTIVE_LOAN_STATUSES)
                             (loans st) in
                   if exists_open
                   then (st, Ret (false, MsgActiveLoanExists))
                   else
                     let start := today in
                     match add_days start loan_days with
                     | None => (st, Raise OverflowError)
                     | Some due =>
                         (* res.reader: the row of [users] is fetched *)
                         match get_or_none
                                 (fun u => user_id u =? reservation_reader_id res)
                                 (users st) with
                         | None => (st, Raise DoesNotExist)
                         | Some reader =>
                             match insert_loan
                                     (mk_Loan 0 "open" start due None
                                              (copy_id copy_obj)
                                              (user_id reader)
                                              (user_id librarian)) st with
                             | (st1, Raise e) => (st1, Raise e)
                             | (st1, Ret _) =>
                                 let st2 :=
                                   with_reservations st1
                                     (update_where
                                        (fun r => reservation_id r
                                                  =? reservation_id res)
                                        (set_reservation_status "fulfilled")
                                        (reservations st1)) in
                                 (save_copy_status (copy_id copy_obj) "loaned" st2,
                                  Ret (true, MsgFulfilled due))
                             end
                         end
                     end
             end
       end) st.

End services_reservations.
Export services_reservations.

(** ** The guarded entry points ([app/gui_main.py], [app/gui_reserve.py])

    The services take no session: the permission keys are checked by the
    handlers of the main window, which are the callers of the services. *)

Module gui_main.

(** What the user sees when a handler ends. *)
Inductive shown :=
| Nothing                 (* a bare [return]: no dialog, no change of view *)
| Warning                 (* [messagebox.showwarning]: nothing selected *)
| Info (m : Msg)          (* [messagebox.showinfo] *)
| Error (m : Msg)         (* [messagebox.showerror] *)
| Updated (n : Z)         (* the label "Обновлено: n" *)
| Traceback (e : exn).    (* an exception left the handler *)

Definition show (r : bool * Msg) : shown :=
  if fst r then Info (snd r) else Error (snd r).

(** [_load_reservations]: the view refresh sweeps, and so does the listing
    it calls; [now1] and [now2] are their clock readings. *)
Definition _load_reservations (s : Session) (now1 now2 : datetime)
           (st : Store) : Store :=
  let st := fst (expire_old_reservations now1 st) in
  if can s "manage_reservations" then fst (expire_old_reservations now2 st)
  else if can s "manage_own_reservations"
       then fst (expire_old_reservations now2 st)
       else st.

Definition _ui_issue_loan (s : Session) (today : date)
           (issue_inv_var issue_reader_var : string) (st : Store)
  : Store * shown :=
  if negb (can s "manage_loans") then (st, Nothing)
  else
    match issue_loan today issue_inv_var issue_reader_var (session_user s) st with
    | (st', Ret r) => (st', show r)
    | (st', Raise e) => (st', Traceback e)
    end.

(** [selection] is the loan id of the selected row, if a row is selected. *)
Definition _ui_return_loan (s : Session) (today : date)
           (selection : option Z) (st : Store) : Store * shown :=
  if negb (can s "manage_loans") then (st, Nothing)
  else
    match selection with
    | None => (st, Warning)
    | Some loan_id =>
        match return_loan today loan_id (session_user s) st with
        | (st', Ret r) => (st', show r)
        | (st', Raise e) => (st', Traceback e)
        end
    end.

Definition _ui_update_overdue (s : Session) (today : date) (st : Store)
  : Store * shown :=
  if negb (can s "manage_loans") then (st, Nothing)
  else
    let (st', n) := update_overdue_statuses today st in
    (st', Updated n).

(** The id of the selected row as the handlers test it ([if not rid],
    [if not book_id]): no row selected, or the id 0, is no selection. *)
Definition selected_id (selection : option Z) : option Z :=
  match selection with
  | Some id => if id =? 0 then None else Some id
  | None => None
  end.

Definition _ui_cancel_reservation (s : Session) (now now1 now2 : datetime)
           (selection : option Z) (st : Store) : Store * shown :=
  if negb (can s "manage_own_reservations") then (st, Nothing)
  else
    match selected_id selection with
    | None => (st, Warning)
    | Some rid =>
        match cancel_reservation now (session_user s) rid st with
        | (st', Ret r) => (_load_reservations s now1 now2 st', show r)
        | (st', Raise e) => (st', Traceback e)
        end
    end.

Definition _ui_extend_reservation (s : Session) (now now1 now2 : datetime)
           (selection : option Z) (st : Store) : Store * shown :=
  if negb (can s "manage_own_reservations") then (st, Nothing)
  else
    match selected_id selection with
    | None => (st, Warning)
    | Some rid =>
        match extend_reservation now (session_user s) rid st with
        | (st', Ret r) => (_load_reservations s now1 now2 st', show r)
        | (st', Raise e) => (st', Traceback e)
        end
    end.

Definition _ui_fulfill_reservation (s : Session) (today : date)
           (now now1 now2 : datetime) (selection : option Z) (st : Store)
  : Store * shown :=
  if negb (can s "manage_reservations") then (st, Nothing)
  else
    match selected_id selection with
    | None => (st, Warning)
    | Some rid =>
        match fulfill_reservation today now (session_user s) rid 14 st with
        | (st', Ret r) => (_load_reservations s now1 now2 st', show r)
        | (st', Raise e) => (st', Traceback e)
        end
    end.

(** [_ui_reserve_book] with the dialog it opens: [book] is the selected
    book, [form] the branch and the parsed date the reader submits in
    [ReserveDialog] ([None] when the dialog is closed without a valid
    submission). *)
Definition _ui_reserve_book (s : Session) (today : date)
           (now now1 now2 : datetime) (book : option Z)
           (form : option (Z * date)) (st : Store) : Store * shown :=
  if negb (can s "create_reservation") then (st, Nothing)
  else
    match selected_id book with
    | None => (st, Warning)
    | Some book_id =>
        match form with
        | None => (st, Warning)
        | Some (branch_id, pickup) =>
            match create_reservation today now (session_user s) book_id
                                     branch_id pickup st with
            | (st', Ret (true, msg, _)) =>
                (_load_reservations s now1 now2 st', Info msg)
            | (st', Ret (false, msg, _)) => (st', Error msg)
            | (st', Raise e) => (st', Traceback e)
            end
        end
    end.

End gui_main.
Export gui_main.

(** ** Holders, consistency, reachability *)

Module invariants.

(** An open or overdue loan of copy [c]. *)
Definition loan_holds (c : Z) (l : Loan) : bool :=
  (loan_copy_id l =? c) && status_in (loan_status l) ACTIVE_LOAN_STATUSES.

(** An active reservation of copy [c]. *)
Definition reservation_holds (c : Z) (r : Reservation) : bool :=
  (reservation_copy_id r =? c) && (reservation_status r =? "active")%string.

(** The number of records that hold copy [c]: its open or overdue loans
    and its active reservations. *)
Definition holders (st : Store) (c : Z) : nat :=
  (List.length (filter (loan_holds c) (loans st))
   + List.length (filter (reservation_holds c) (reservations st)))%nat.

(** A consistent store: no copy has two holders, and a copy whose status
    is [available] has none. *)
Definition consistent (st : Store) : Prop :=
  (forall c, (holders st c <= 1)%nat)
  /\ (forall row, In row (copies st) ->
                  copy_status row = "available" ->
                  holders st (copy_id row) = 0%nat).

(** One call of one of the eight engine operations, whatever its
    arguments, its clock readings and its result.  A step is a call run to
    its end: [reachable] describes calls made one after another, by one
    session or by several that never overlap.  What two overlapping calls
    can do is the matter of the module [overlap]. *)
Inductive step : Store -> Store -> Prop :=
| step_create_reservation today now reader book_id branch_id pickup st :
    step st (fst (create_reservation today now reader book_id branch_id pickup st))
| step_fulfill_reservation today now librarian rid loan_days st :
    step st (fst (fulfill_reservation today now librarian rid loan_days st))
| step_cancel_reservation now reader rid st :
    step st (fst (cancel_reservation now reader rid st))
| step_extend_reservation now reader rid st :
    step st (fst (extend_reservation now reader rid st))
| step_expire_old_reservations now st :
    step st (fst (expire_old_reservations now st))
| step_issue_loan today code login librarian st :
    step st (fst (issue_loan today code login librarian st))
| step_return_loan today lid librarian st :
    step st (fst (return_loan today lid librarian st))
| step_update_overdue_statuses today st :
    step st (fst (update_overdue_statuses today st)).

Inductive reachable (st0 : Store) : Store -> Prop :=
| reachable_start : reachable st0 st0
| reachable_step st st' : reachable st0 st -> step st st' -> reachable st0 st'.

(** What the sweep does to one reservation and to one copy. *)
Definition expire_row (now : datetime) (r : Reservation) : Reservation :=
  if stale now r then set_reservation_status "expired" r else r.

Definition release_row (now : datetime) (rs : list Reservation) (c : Copy) : Copy :=
  if (copy_status c =? "reserved")%string
     && existsb (fun r => stale now r && (reservation_copy_id r =? copy_id c)) rs
  then set_copy_status "available" c
  else c.

(** A copy before and after a reservation is dropped: it is kept as it is,
    or it was [reserved] and is [available] now. *)
Definition kept_or_released (c c' : Copy) : Prop :=
  c' = c \/ (copy_status c = "reserved" /\ c' = set_copy_status "available" c).

(** What [fulfill_reservation] checks, in the store the sweep leaves:
    the reservation [res] with that id (joined with its copy) is active,
    its copy [copy] is [reserved] and has no open or overdue loan. *)
Definition fulfillable (st1 : Store) (rid : Z) (res : Reservation) (copy : Copy)
  : Prop :=
  get_or_none (fun r => reservation_id r =? rid)
              (filter (fun r => existsb (fun c => copy_id c
                                                  =? reservation_copy_id r)
                                        (copies st1))
                      (reservations st1)) = Some res
  /\ reservation_status res = "active"
  /\ get_or_none (fun c => copy_id c =? reservation_copy_id res) (copies st1)
     = Some copy
  /\ copy_status copy = "reserved"
  /\ existsb (fun l => (loan_copy_id l =? copy_id copy)
                       && status_in (loan_status l) ["open"; "overdue"])
             (loans st1) = false.




End invariants.
Export invariants.

(** ** Sample data *)

Module sample.

Definition reader : User := mk_User 3 "kap213".
Definition librarian : User := mk_User 2 "lib".

Definition at_noon (d : date) : datetime := mk_datetime d (mk_time 12 0 0 0).

(** Reservation 1 was cancelled; reservation 2 holds copy 2 and ran out
    at the end of day 100. *)
Definition stale_shelf : Store :=
  mk_Store [librarian; reader]
           [mk_Location 1 1]
           [mk_Copy 1 "INV-0001" "available" 1 (Some 1);
            mk_Copy 2 "INV-0002" "reserved" 1 (Some 1)]
           []
           [mk_Reservation 1 "cancelled" 99 (mk_datetime 99 (mk_time 23 59 59 0))
                           false 3 1 1;
            mk_Reservation 2 "active" 100 (mk_datetime 100 (mk_time 23 59 59 0))
                           false 3 2 1]
           1 3.

(** Two copies of book 1 on a shelf of branch 1, one of them lost. *)
Definition shelf : Store :=
  mk_Store [librarian; reader]
           [mk_Location 1 1]
           [mk_Copy 1 "INV-0001" "available" 1 (Some 1);
            mk_Copy 2 "INV-0002" "available" 1 (Some 1);
            mk_Copy 3 "INV-0003" "lost" 1 (Some 1)]
           [] [] 1 1.

(** The shelf after the reader has reserved book 1 for day 101 (copy 1 is
    taken) and the librarian has lent him copy 2. *)
Definition reserved_shelf : Store :=
  fst (create_reservation 100 (at_noon 100) reader 1 1 101 shelf).

Definition busy_shelf : Store :=
  fst (issue_loan 100 "INV-0002" "kap213" librarian reserved_shelf).

(** Copy 1 is on loan (loan 1, overdue) and was marked lost meanwhile. *)
Definition lost_on_loan : Store :=
  mk_Store [librarian; reader]
           [mk_Location 1 1]
           [mk_Copy 1 "INV-0001" "lost" 1 (Some 1)]
           [mk_Loan 1 "overdue" 60 74 None 1 3 2]
           [] 2 1.

(** Two loans, one of them due on day 90. *)
Definition two_loans : Store :=
  mk_Store [librarian; reader]
           [mk_Location 1 1]
           [mk_Copy 1 "INV-0001" "loaned" 1 (Some 1);
            mk_Copy 2 "INV-0002" "loaned" 1 (Some 1)]
           [mk_Loan 1 "open" 76 90 None 1 3 2;
            mk_Loan 2 "open" 95 109 None 2 3 2]
           [] 3 1.

(** The rights of the roles as [app/seed.py] stores them. *)
Definition librarian_rights : pyval :=
  PDict [("manage_catalog", PBool true); ("manage_loans", PBool true);
         ("view_reports", PBool true); ("backup", PBool false);
         ("export_tables", PBool false); ("manage_users", PBool false);
         ("manage_reservations", PBool true)].

Definition reader_rights : pyval :=
  PDict [("view_reports", PBool false); ("manage_catalog", PBool false);
         ("manage_loans", PBool false); ("backup", PBool false);
         ("manage_users", PBool false); ("export_tables", PBool false);
         ("create_reservation", PBool true);
         ("manage_own_reservations", PBool true)].

Definition seed_roles : list Role :=
  [mk_Role 2 "Librarian" librarian_rights; mk_Role 3 "Reader" reader_rights].

(** The librarian also holds the reader role. *)
Definition seed_user_roles : list UserRole :=
  [mk_UserRole 2 3; mk_UserRole 2 2; mk_UserRole 3 3].

Definition no_json (_ : string) : option pyval := None.

Definition reader_session : Session :=
  mk_Session reader ["Reader"]
             (get_user_rights no_json seed_roles seed_user_roles reader).

End sample.

(** ** Histories: what one transaction of the services does to the tables *)

Module history.

(** Primary keys are unique, and the ids of loans and reservations were
    drawn from the sequences. *)
Definition keys (st : Store) : Prop :=
  NoDup (map copy_id (copies st))
  /\ NoDup (map loan_id (loans st))
  /\ NoDup (map reservation_id (reservations st))
  /\ (forall l, In l (loans st) -> loan_id l < loans_id_seq st)
  /\ (forall r, In r (reservations st) ->
                reservation_id r < reservations_id_seq st).

(** The writes of the services, one committed transaction each, with what
    the code has checked before writing. *)
Inductive txn (st : Store) : Store -> Prop :=
| txn_seqs a b :
    (* an insert refused by a unique index: only a sequence has moved *)
    loans_id_seq st <= a -> reservations_id_seq st <= b ->
    txn st (with_seqs st a b)
| txn_release p s q :
    (* the sweep, and [cancel_reservation] *)
    s = "expired" \/ s = "cancelled" ->
    (forall r, In r (reservations st) -> p r = true ->
               reservation_status r = "active") ->
    (forall c, In c (copies st) ->
               (q c = true <->
                copy_status c = "reserved"
                /\ exists r, In r (reservations st) /\ p r = true
                             /\ reservation_copy_id r = copy_id c)) ->
    txn st (with_copies
              (with_reservations st
                 (update_where p (set_reservation_status s) (reservations st)))
              (update_where q (set_copy_status "available") (copies st)))
| txn_reserve copy r :
    (* [create_reservation] *)
    In copy (copies st) -> copy_status copy = "available" ->
    existsb (reservation_holds (copy_id copy)) (reservations st) = false ->
    reservation_status r = "active" ->
    reservation_copy_id r = copy_id copy ->
    reservation_extended_once r = false ->
    reservation_expires_at r = _end_of_day (reservation_pickup_date r) ->
    txn st (with_reservations
              (with_seqs (save_copy_status (copy_id copy) "reserved" st)
                         (loans_id_seq st) (reservations_id_seq st + 1))
              (reservations st ++ [set_reservation_id (reservations_id_seq st) r]))
| txn_lend copy l :
    (* [issue_loan] *)
    In copy (copies st) -> copy_status copy = "available" ->
    existsb (loan_holds (copy_id copy)) (loans st) = false ->
    loan_status l = "open" -> loan_copy_id l = copy_id copy ->
    txn st (save_copy_status (copy_id copy) "loaned"
              (with_loans
                 (with_seqs st (loans_id_seq st + 1) (reservations_id_seq st))
                 (loans st ++ [set_loan_id (loans_id_seq st) l])))
| txn_fulfill res copy l :
    (* [fulfill_reservation] *)
    In res (reservations st) -> reservation_status res = "active" ->
    In copy (copies st) -> copy_id copy = reservation_copy_id res ->
    copy_status copy = "reserved" ->
    existsb (loan_holds (copy_id copy)) (loans st) = false ->
    loan_status l = "open" -> loan_copy_id l = copy_id copy ->
    txn st (save_copy_status (copy_id copy) "loaned"
              (with_reservations
                 (with_loans
                    (with_seqs st (loans_id_seq st + 1) (reservations_id_seq st))
                    (loans st ++ [set_loan_id (loans_id_seq st) l]))
                 (update_where (fun r => reservation_id r =? reservation_id res)
                               (set_reservation_status "fulfilled")
                               (reservations st))))
| txn_return loan today u :
    (* [return_loan] *)
    In loan (loans st) ->
    status_in (loan_status loan) ["open"; "overdue"] = true ->
    txn st (save_copy_status (loan_copy_id loan) "available"
              (with_loans st
                 (update_where (fun l => loan_id l =? loan_id loan)
                               (close_loan today u) (loans st))))
| txn_overdue today :
    (* [update_overdue_statuses] *)
    txn st (fst (update_overdue_statuses today st))
| txn_extend res :
    (* [extend_reservation] *)
    In res (reservations st) -> reservation_status res = "active" ->
    reservation_extended_once res = false ->
    txn st (with_reservations st
              (update_where (fun r => reservation_id r =? reservation_id res)
                            (extend_row (reservation_pickup_date res + 1))
                            (reservations st))).

(** Transactions in a row. *)
Inductive txns : Store -> Store -> Prop :=
| txns_done st : txns st st
| txns_then st st1 st2 : txn st st1 -> txns st1 st2 -> txns st st2.

(** The status of every copy tells its holder: [loaned] exactly when an
    open or overdue loan refers to it, [reserved] exactly when an active
    reservation does. *)
Definition status_mirrors (st : Store) : Prop :=
  forall row, In row (copies st) ->
    (copy_status row = "loaned"
     <-> existsb (loan_holds (copy_id row)) (loans st) = true)
    /\ (copy_status row = "reserved"
        <-> existsb (reservation_holds (copy_id row)) (reservations st) = true).

(** Every reservation expires at the end of its pickup day. *)
Definition expiry_at_end_of_pickup_day (st : Store) : Prop :=
  forall r, In r (reservations st) ->
    reservation_expires_at r = _end_of_day (reservation_pickup_date r).

(** The life of a loan: it stays as it is, goes from [open] to [overdue],
    or is closed while [open] or [overdue]. *)
Definition loan_moves (l l' : Loan) : Prop :=
  l' = l
  \/ (loan_status l = "open" /\ l' = set_loan_status "overdue" l)
  \/ (status_in (loan_status l) ["open"; "overdue"] = true
      /\ exists today u, l' = close_loan today u l).

Definition terminal (s : string) : Prop :=
  s = "fulfilled" \/ s = "expired" \/ s = "cancelled".

(** The life of a reservation: while active it may be extended once, by
    one day, and may then, or at once, reach a terminal status; nothing
    else ever changes it. *)
Definition reservation_moves (r r' : Reservation) : Prop :=
  exists base,
    (base = r
     \/ (reservation_status r = "active"
         /\ reservation_extended_once r = false
         /\ base = extend_row (reservation_pickup_date r + 1) r))
    /\ (r' = base
        \/ (reservation_status r = "active"
            /\ exists s, terminal s /\ r' = set_reservation_status s base)).

(** A copy keeps its id, code, book and location; a status written by the
    services is [available], [reserved] or [loaned]. *)
Definition copy_moves (c c' : Copy) : Prop :=
  c' = c
  \/ exists s, In s ["available"; "reserved"; "loaned"]
               /\ c' = set_copy_status s c.

(** Tables only grow at the end, old rows move along their life cycle, new
    rows take their ids from the sequences, users and locations are not
    written. *)
Definition history_kept (st st' : Store) : Prop :=
  users st' = users st
  /\ locations st' = locations st
  /\ Forall2 copy_moves (copies st) (copies st')
  /\ (exists old new,
        loans st' = old ++ new
        /\ Forall2 loan_moves (loans st) old
        /\ Forall (fun l => loans_id_seq st <= loan_id l) new)
  /\ (exists old new,
        reservations st' = old ++ new
        /\ Forall2 reservation_moves (reservations st) old
        /\ Forall (fun r => reservations_id_seq st <= reservation_id r) new)
  /\ loans_id_seq st <= loans_id_seq st'
  /\ reservations_id_seq st <= reservations_id_seq st'.

End history.
Export history.

(** ** Branches offered for a book ([app/services_reservations.py]) *)

Module branches.

(** The columns of [branches] the query reads. *)
Record Branch := mk_Branch
  { branch_id : Z; branch_name : string }.

(** The rows of [branches] joined with [locations] and [copies] that the
    [WHERE] keeps for one branch: the outer joins' rows without a copy
    fail the conditions on the copy. *)
Definition joined (st : Store) (book_id : Z) (b : Branch)
  : list (Location * Copy) :=
  flat_map
    (fun l =>
       map (pair l)
           (filter (fun c => match copy_location_id c with
                             | Some loc => loc =? location_id l
                             | None => false
                             end
                             && (copy_book_id c =? book_id)
                             && (copy_status c =? "available")%string)
                   (copies st)))
    (filter (fun l => location_branch_id l =? branch_id b) (locations st)).

(** The rows of the query before [ORDER BY name] (whose order is the
    collation's): one row for each branch with at least one joined row,
    with [COUNT(Copy.id)] as [available_count].  [branches] is the table of
    branches, which no service writes. *)
Definition list_available_branches_for_book (branches : list Branch)
           (book_id : Z) (st : Store) : list (Branch * Z) :=
  flat_map (fun b => match joined st book_id b with
                     | [] => []
                     | rows => [(b, Z.of_nat (List.length rows))]
                     end)
           branches.

End branches.
Export branches.

(** ** Copies in the catalogue ([app/services_catalog.py]) *)

Module services_catalog.

Definition _ALLOWED_COPY_STATUSES : list string :=
  ["available"; "loaned"; "reserved"; "lost"; "damaged"].

Inductive CopyMsg :=
| MsgNoSuchCopy                   (* "Экземпляр не найден." *)
| MsgInventoryCodeEmpty           (* "Инвентарный код пустой." *)
| MsgBadCopyStatus                (* "Неверный статус экземпляра." *)
| MsgInventoryCodeTaken           (* "Такой инвентарный код уже существует." *)
| MsgCopyUpdated                  (* "Экземпляр обновлён." *)
| MsgCopyHasLoans (n : Z)         (* "Нельзя удалить: у экземпляра есть выдачи (n)." *)
| MsgCopyDeleted.                 (* "Экземпляр удалён." *)

(** The unique index on [copies.inventory_code], for the row [id]. *)
Definition code_taken (id : Z) (code : string) (cs : list Copy) : bool :=
  existsb (fun c => (copy_inventory_code c =? code)%string
                    && negb (copy_id c =? id)) cs.

(** [copy.save()] in [update_copy]: the row with the copy's id gets the new
    code, status and location (price and condition note are not modelled). *)
Definition save_copy (id : Z) (code status : string) (loc : option Z)
           (st : Store) : Store :=
  with_copies st
    (update_where (fun c => copy_id c =? id)
                  (fun c => mk_Copy (copy_id c) code status (copy_book_id c) loc)
                  (copies st)).

(** An absent string argument is the empty string: both give the default
    under [x or default].  [location_id] [None] or [0] stands for no
    location. *)
Definition update_copy (copy_id_arg : Z) (inventory_code status : string)
           (location_id_arg : option Z) (st : Store)
  : Store * outcome (bool * CopyMsg) :=
  match get_or_none (fun c => copy_id c =? copy_id_arg) (copies st) with
  | None => (st, Ret (false, MsgNoSuchCopy))
  | Some copy =>
      let inventory_code := strip inventory_code in
      let status := strip (if is_empty status then "available" else status) in
      if is_empty inventory_code
      then (st, Ret (false, MsgInventoryCodeEmpty))
      else if negb (status_in status _ALLOWED_COPY_STATUSES)
      then (st, Ret (false, MsgBadCopyStatus))
      else if code_taken (copy_id copy) inventory_code (copies st)
      then (st, Ret (false, MsgInventoryCodeTaken))
      else
        let loc :=
          match location_id_arg with
          | None => None
          | Some id =>
              if id =? 0 then None
              else option_map location_id
                     (get_or_none (fun l => location_id l =? id) (locations st))
          end in
        atomic
          (fun st =>
             (* the unique index speaks when [copy.save()] writes *)
             if code_taken (copy_id copy) inventory_code (copies st)
             then (st, Ret (false, MsgInventoryCodeTaken))
             else (save_copy (copy_id copy) inventory_code status loc st,
                   Ret (true, MsgCopyUpdated)))
          st
  end.

(** [reservations.copy_id] is [ON DELETE RESTRICT] (migration 002): the
    [DELETE] of a copy that a reservation refers to raises, and
    [delete_copy] does not catch it. *)
Definition delete_copy (copy_id_arg : Z) (st : Store)
  : Store * outcome (bool * CopyMsg) :=
  match get_or_none (fun c => copy_id c =? copy_id_arg) (copies st) with
  | None => (st, Ret (false, MsgNoSuchCopy))
  | Some copy =>
      let loans_cnt :=
        count_where (fun l => loan_copy_id l =? copy_id copy) (loans st) in
      if loans_cnt >? 0
      then (st, Ret (false, MsgCopyHasLoans loans_cnt))
      else
        atomic
          (fun st =>
             if existsb (fun l => loan_copy_id l =? copy_id copy) (loans st)
                || existsb (fun r => reservation_copy_id r =? copy_id copy)
                           (reservations st)
             then (st, Raise IntegrityError)
             else (with_copies st
                     (filter (fun c => negb (copy_id c =? copy_id copy))
                             (copies st)),
                   Ret (true, MsgCopyDeleted)))
          st
  end.

End services_catalog.
Export services_catalog.

(** ** Users and sessions ([app/services.py], "Пользователи") *)

Module accounts.

Definition ROLE_PRIORITY : list string := ["Admin"; "Librarian"; "Reader"].

(** [Session.primary_role]. *)
Definition primary_role (s : Session) : string :=
  match find (fun r => existsb (String.eqb r) (session_roles s)) ROLE_PRIORITY with
  | Some r => r
  | None => match session_roles s with
            | r :: _ => r
            | [] => "Reader"
            end
  end.

(** [Role.select(Role.name).join(UserRole).where(UserRole.user == user)].
    No ORDER BY here either: the names come in the order of [roles]. *)
Definition get_user_roles (roles : list Role) (user_roles : list UserRole)
           (user : User) : list string :=
  flat_map
    (fun r =>
       map (fun _ => role_name r)
           (filter (fun ur => (user_role_role_id ur =? role_id r)
                              && (user_role_user_id ur =? user_id user))
                   user_roles))
    roles.

Inductive LoginMsg :=
| MsgEmptyCredentials             (* "Логин/пароль пустые." *)
| MsgBadCredentials               (* "Неверный логин или пароль." *)
| MsgUserDisabled                 (* "Пользователь отключён." *)
| MsgOK.                          (* "OK" *)

Section Login.

Variable json_loads : string -> option pyval.

(** [auth.verify_password password password_hash] (bcrypt). *)
Variable verify_password : string -> string -> bool.

(** The columns [is_active] and [password_hash] of a row of [users]. *)
Variable is_active : User -> bool.
Variable password_hash : User -> string.

(** An absent [login] or [password] is the empty string. *)
Definition authenticate (login password : string) (roles : list Role)
           (user_roles : list UserRole) (st : Store)
  : bool * LoginMsg * option Session :=
  let login := strip login in
  if is_empty login || is_empty password
  then (false, MsgEmptyCredentials, None)
  else
    match get_or_none (fun u => (user_login u =? login)%string) (users st) with
    | None => (false, MsgBadCredentials, None)
    | Some user =>
        if negb (is_active user) then (false, MsgUserDisabled, None)
        else if negb (verify_password password (password_hash user))
        then (false, MsgBadCredentials, None)
        else
          let names := get_user_roles roles user_roles user in
          let names := match names with [] => ["Reader"] | _ => names end in
          let rights := get_user_rights json_loads roles user_roles user in
          (true, MsgOK, Some (mk_Session user names rights))
    end.

End Login.

Inductive UserMsg :=
| MsgNoManageUsers                (* "Нет прав: управление пользователями." *)
| MsgUserNotFound                 (* "Пользователь не найден." *)
| MsgCannotDeleteSelf             (* "Нельзя удалить самого себя." *)
| MsgCannotDeleteAdmin            (* "Нельзя удалить администратора." *)
| MsgUserHasLoans                 (* "Нельзя удалить: у пользователя есть выдачи ..." *)
| MsgUserDeleted.                 (* "Пользователь удалён." *)

(** [user.delete_instance()]: the row of [users] goes, and with it the rows
    that refer to it [ON DELETE CASCADE]: its [user_roles] (models) and its
    [reservations] (migration 002).  Loans refer to users [ON DELETE
    RESTRICT]; [delete_user] has found none. *)
Definition delete_instance (id : Z) (user_roles : list UserRole) (st : Store)
  : list UserRole * Store :=
  (filter (fun ur => negb (user_role_user_id ur =? id)) user_roles,
   mk_Store (filter (fun u => negb (user_id u =? id)) (users st))
            (locations st) (copies st) (loans st)
            (filter (fun r => negb (reservation_reader_id r =? id))
                    (reservations st))
            (loans_id_seq st) (reservations_id_seq st)).

(** The tables [roles] and [user_roles] are passed beside the store; the
    result carries the new [user_roles]. *)
Definition delete_user (session : Session) (user_id_arg : Z) (roles : list Role)
           (user_roles : list UserRole) (st : Store)
  : (list UserRole * Store) * (bool * UserMsg) :=
  if negb (can session "manage_users")
  then ((user_roles, st), (false, MsgNoManageUsers))
  else
    match get_or_none (fun u => user_id u =? user_id_arg) (users st) with
    | None => ((user_roles, st), (false, MsgUserNotFound))
    | Some user =>
        if user_id user =? user_id (session_user session)
        then ((user_roles, st), (false, MsgCannotDeleteSelf))
        else
          let is_admin :=
            match get_or_none (fun r => (role_name r =? "Admin")%string) roles with
            | None => false
            | Some admin_role =>
                existsb (fun ur => (user_role_user_id ur =? user_id user)
                                   && (user_role_role_id ur =? role_id admin_role))
                        user_roles
            end in
          if is_admin
          then ((user_roles, st), (false, MsgCannotDeleteAdmin))
          else if existsb (fun l => (loan_reader_id l =? user_id user)
                                    || (loan_librarian_id l =? user_id user))
                          (loans st)
          then ((user_roles, st), (false, MsgUserHasLoans))
          else (delete_instance (user_id user) user_roles st,
                (true, MsgUserDeleted))
    end.

End accounts.
Export accounts.

(** ** More sample data *)

Module scenes.

Definition admin : User := mk_User 1 "admin".

Definition admin_session : Session :=
  mk_Session admin ["Admin"] [("all", PBool true)].

Definition roles_table : list Role :=
  mk_Role 1 "Admin" (PDict [("all", PBool true)]) :: sample.seed_roles.

Definition user_roles_table : list UserRole :=
  mk_UserRole 1 1 :: sample.seed_user_roles.

Definition central : Branch := mk_Branch 1 "Central".

(** Loan 1 of [sample.two_loans] has come back on day 120. *)
Definition returned_shelf : Store :=
  fst (return_loan 120 1 sample.librarian sample.two_loans).

(** The shelf with the administrator among the users. *)
Definition staffed_shelf : Store :=
  mk_Store (admin :: users sample.reserved_shelf)
           (locations sample.reserved_shelf) (copies sample.reserved_shelf)
           (loans sample.reserved_shelf) (reservations sample.reserved_shelf)
           (loans_id_seq sample.reserved_shelf)
           (reservations_id_seq sample.reserved_shelf).

(** A library of two branches: location 1 is in branch 1, location 2 in
    branch 2.  Of book 1, copy 1 stands in branch 2, copy 2 is on loan, and
    copies 4 and 5 stand free in branch 1; copy 3 is a copy of book 2. *)
Definition two_branches : Store :=
  mk_Store [sample.librarian; sample.reader]
           [mk_Location 1 1; mk_Location 2 2]
           [mk_Copy 1 "INV-0001" "available" 1 (Some 2);
            mk_Copy 2 "INV-0002" "loaned" 1 (Some 1);
            mk_Copy 3 "INV-0003" "available" 2 (Some 1);
            mk_Copy 4 "INV-0004" "available" 1 (Some 1);
            mk_Copy 5 "INV-0005" "available" 1 (Some 1)]
           [mk_Loan 1 "open" 95 109 None 2 3 2]
           [] 2 1.

(** The only copy is held by reservation 1, which ran out at the end of
    day 100. *)
Definition run_out_shelf : Store :=
  mk_Store [sample.librarian; sample.reader]
           [mk_Location 1 1]
           [mk_Copy 1 "INV-0001" "reserved" 1 (Some 1)]
           []
           [mk_Reservation 1 "active" 100 (mk_datetime 100 (mk_time 23 59 59 0))
                           false 3 1 1]
           1 2.

(** The catalogue dialog has set copy 1 of the reserved shelf back to
    [available]: [update_copy] does not look at reservations, and
    reservation 1, which runs until the end of day 101, still holds the
    copy. *)
Definition stranded_shelf : Store :=
  fst (update_copy 1 "INV-0001" "available" (Some 1) sample.reserved_shelf).

(** Four reserved copies on day 105: reservations 1 and 2 ran out at the
    end of day 104, and copy 2 was marked damaged meanwhile; reservation 3
    runs until the end of day 110; reservation 4 was cancelled, yet its
    copy still reads [reserved]. *)
Definition lapsed_shelf : Store :=
  mk_Store [sample.librarian; sample.reader]
           [mk_Location 1 1]
           [mk_Copy 1 "INV-0001" "reserved" 1 (Some 1);
            mk_Copy 2 "INV-0002" "damaged" 1 (Some 1);
            mk_Copy 3 "INV-0003" "reserved" 1 (Some 1);
            mk_Copy 4 "INV-0004" "reserved" 1 (Some 1)]
           []
           [mk_Reservation 1 "active" 104 (mk_datetime 104 (mk_time 23 59 59 0))
                           false 3 1 1;
            mk_Reservation 2 "active" 104 (mk_datetime 104 (mk_time 23 59 59 0))
                           true 3 2 1;
            mk_Reservation 3 "active" 110 (mk_datetime 110 (mk_time 23 59 59 0))
                           false 3 3 1;
            mk_Reservation 4 "cancelled" 100
                           (mk_datetime 100 (mk_time 23 59 59 0)) false 3 4 1]
           1 5.

(** Somebody whose row is no longer in [users]. *)
Definition gone : User := mk_User 999 "gone".

(** A password check that compares with the stored text, and the columns
    of [users] that go with it. *)
Definition verify_plain (password hash : string) : bool := (password =? hash)%string.
Definition all_active (_ : User) : bool := true.
Definition hash_of (_ : User) : string := "secret".

End scenes.

(** ** Two sessions at once

    The services above are run to their end, one call after another.  The
    database serves several sessions at once, at PostgreSQL's READ
    COMMITTED: between two statements of a transaction another session may
    commit, unless the first has locked the rows it read.  [issue_loan],
    [return_loan], [create_reservation] and [fulfill_reservation] read the
    rows they go on to write with [for_update()]; [extend_reservation] and
    [cancel_reservation] read with a plain [get_or_none].  Here
    [extend_reservation] is cut where another session can come in: after
    the read and the checks, before [res.save()]. *)

Module overlap.

(** [res.save()] on an instance that was read before:
    [UPDATE reservations SET] every column [WHERE id = res.id].  The
    partial unique index on [copy_id] among the active reservations is
    checked against the other rows; a row that is gone is not written. *)
Definition save_reservation (obj : Reservation) (st : Store)
  : Store * outcome unit :=
  if (reservation_status obj =? "active")%string
     && existsb (fun r => reservation_holds (reservation_copy_id obj) r
                          && negb (reservation_id r =? reservation_id obj))
                (reservations st)
  then (st, Raise IntegrityError)
  else (with_reservations st
          (update_where (fun r => reservation_id r =? reservation_id obj)
                        (fun _ => obj) (reservations st)),
        Ret tt).

(** [extend_reservation] up to [res.save()]: the sweep, committed, then
    the read and the checks.  The answer is the refusal, or the instance
    with its new pickup date, expiry and flag, not yet saved. *)
Definition extend_reservation_read (now : datetime) (reader : User)
           (reservation_id_arg : Z) (st : Store) : Store * (Msg + Reservation) :=
  let st := fst (expire_old_reservations now st) in
  match get_or_none (fun r => reservation_id r =? reservation_id_arg)
                    (reservations st) with
  | None => (st, inl MsgReservationNotFound)
  | Some res =>
      if negb (reservation_reader_id res =? user_id reader)
      then (st, inl MsgNotYourReservation)
      else if negb (reservation_status res =? "active")%string
      then (st, inl MsgReservationNoLongerActive)
      else if reservation_extended_once res
      then (st, inl MsgExtendOnlyOnce)
      else
        let new_pick := reservation_pickup_date res + 1 in
        (st, inr (extend_row new_pick res))
  end.

(** [extend_reservation] from [res.save()] on, in the store as it is by
    then. *)
Definition extend_reservation_save (obj : Reservation) (st : Store)
  : Store * outcome (bool * Msg) :=
  match save_reservation obj st with
  | (st', Raise e) => (st', Raise e)
  | (st', Ret _) => (st', Ret (true, MsgExtended (reservation_pickup_date obj)))
  end.

End overlap.
Export overlap.

(** * Facts about the query layer *)

Section TableFacts.

Context {A : Type}.
Variables (p : A -> bool) (f : A -> A).

Lemma update_where_in (x : A) (rows : list A) :
  In x (update_where p f rows) ->
  exists r, In r rows /\ x = (if p r then f r else r).
Proof.
  unfold update_where. rewrite in_map_iff.
  intros [r [Hx Hr]]. exists r. split; [assumption | now symmetry].
Qed.

Lemma in_update_where (r : A) (rows : list A) :
  In r rows -> In (if p r then f r else r) (update_where p f rows).
Proof.
  intros H. unfold update_where.
  apply (in_map (fun r => if p r then f r else r)). exact H.
Qed.

Lemma update_where_none (rows : list A) :
  (forall r, In r rows -> p r = false) -> update_where p f rows = rows.
Proof.
  induction rows as [|r rows IH]; intros H; simpl; [reflexivity|].
  rewrite (H r (or_introl eq_refl)). f_equal.
  apply IH. intros r' Hr'. apply H. now right.
Qed.


(** Counting the rows that satisfy [h] after an update. *)
Variable h : A -> bool.

Lemma count_update_le (rows : list A) :
  (forall r, In r rows -> p r = true -> h (f r) = true -> h r = true) ->
  (List.length (filter h (update_where p f rows))
   <= List.length (filter h rows))%nat.
Proof.
  induction rows as [|r rows IH]; intros H; simpl; [lia|].
  assert (IH' := IH (fun r' Hr' => H r' (or_intror Hr'))).
  assert (Hr := H r (or_introl eq_refl)).
  destruct (p r) eqn:Hp.
  - destruct (h (f r)) eqn:Hf.
    + rewrite (Hr eq_refl eq_refl). simpl. lia.
    + destruct (h r); simpl; lia.
  - destruct (h r); simpl; lia.
Qed.

Lemma count_update_lt (r0 : A) (rows : list A) :
  (forall r, In r rows -> p r = true -> h (f r) = true -> h r = true) ->
  In r0 rows -> p r0 = true -> h r0 = true -> h (f r0) = false ->
  (List.length (filter h (update_where p f rows))
   < List.length (filter h rows))%nat.
Proof.
  induction rows as [|r rows IH]; intros H Hin Hp0 Hh0 Hf0; [destruct Hin|].
  assert (Hle := count_update_le rows (fun r' Hr' => H r' (or_intror Hr'))).
  simpl. destruct Hin as [-> | Hin].
  - rewrite Hp0, Hf0, Hh0. simpl. lia.
  - assert (IH' := IH (fun r' Hr' => H r' (or_intror Hr')) Hin Hp0 Hh0 Hf0).
    assert (Hr := H r (or_introl eq_refl)).
    destruct (p r) eqn:Hp.
    + destruct (h (f r)) eqn:Hf.
      * rewrite (Hr eq_refl eq_refl). simpl. lia.
      * destruct (h r); simpl; lia.
    + destruct (h r); simpl; lia.
Qed.

Lemma count_update_eq (rows : list A) :
  (forall r, In r rows -> p r = true -> h (f r) = h r) ->
  List.length (filter h (update_where p f rows)) = List.length (filter h rows).
Proof.
  induction rows as [|r rows IH]; intros H; simpl; [reflexivity|].
  assert (IH' := IH (fun r' Hr' => H r' (or_intror Hr'))).
  assert (Hr := H r (or_introl eq_refl)).
  destruct (p r) eqn:Hp.
  - rewrite (Hr eq_refl). destruct (h r); simpl; lia.
  - destruct (h r); simpl; lia.
Qed.

(** Looking a row up by a key that the update keeps. *)
Variable k : A -> bool.

Lemma get_update_where (rows : list A) :
  (forall r, k (f r) = k r) ->
  get_or_none k (update_where p f rows)
  = option_map (fun r => if p r then f r else r) (get_or_none k rows).
Proof.
  intros Hk. unfold get_or_none, update_where.
  induction rows as [|r rows IH]; simpl; [reflexivity|].
  replace (k (if p r then f r else r)) with (k r)
    by (destruct (p r); [now rewrite Hk | reflexivity]).
  destruct (k r); [reflexivity | exact IH].
Qed.

End TableFacts.

Lemma count_app {A} (h : A -> bool) (rows : list A) (r : A) :
  List.length (filter h (rows ++ [r]))
  = (List.length (filter h rows) + (if h r then 1 else 0))%nat.
Proof.
  rewrite filter_app, length_app. simpl. destruct (h r); reflexivity.
Qed.

Lemma in__spec (x : Z) (xs : list Z) : in_ x xs = true <-> In x xs.
Proof.
  unfold in_. rewrite existsb_exists. split.
  - intros [y [Hy Heq]]. apply Z.eqb_eq in Heq. now subst.
  - intros H. exists x. split; [assumption | apply Z.eqb_refl].
Qed.

Lemma get_or_none_some {A} (k : A -> bool) (rows : list A) (r : A) :
  get_or_none k rows = Some r -> In r rows /\ k r = true.
Proof. unfold get_or_none. apply find_some. Qed.

Lemma get_or_none_none {A} (k : A -> bool) (rows : list A) :
  get_or_none k rows = None -> forall r, In r rows -> k r = false.
Proof. unfold get_or_none. apply find_none. Qed.

(** Two different rows that satisfy [h] count for two. *)
Lemma count_two {A} (h : A -> bool) (rows : list A) (a b : A) :
  In a rows -> In b rows -> a <> b -> h a = true -> h b = true ->
  (2 <= List.length (filter h rows))%nat.
Proof.
  induction rows as [|r rows IH]; intros Ha Hb Hab Hha Hhb; [destruct Ha|].
  assert (Hone : forall x, In x rows -> h x = true ->
                           (1 <= List.length (filter h rows))%nat).
  { intros x Hx Hhx.
    assert (Hin : In x (filter h rows)) by (apply filter_In; now split).
    destruct (filter h rows); [destruct Hin | simpl; lia]. }
  simpl. destruct Ha as [-> | Ha], Hb as [-> | Hb].
  - now contradiction Hab.
  - rewrite Hha. simpl. specialize (Hone b Hb Hhb). lia.
  - rewrite Hhb. simpl. specialize (Hone a Ha Hha). lia.
  - specialize (IH Ha Hb Hab Hha Hhb). destruct (h r); simpl; lia.
Qed.

(** * Overdue update *)



(** * The expiry sweep *)

Lemma NoDup_key_inj {A} (key : A -> Z) (rows : list A) (a b : A) :
  NoDup (map key rows) -> In a rows -> In b rows -> key a = key b -> a = b.
Proof.
  induction rows as [|r rows IH]; intros Hnd Ha Hb Hk; [destruct Ha|].
  simpl in Hnd. inversion Hnd as [|x xs Hnot Hnd']; subst.
  destruct Ha as [-> | Ha], Hb as [-> | Hb].
  - reflexivity.
  - exfalso. apply Hnot. rewrite Hk. now apply in_map.
  - exfalso. apply Hnot. rewrite <- Hk. now apply in_map.
  - now apply IH.
Qed.

Lemma stale_expired (now : datetime) (r : Reservation) :
  stale now (set_reservation_status "expired" r) = false.
Proof. reflexivity. Qed.

(** The ids the sweep collects are those of the stale rows. *)
Lemma stale_id_collected (now : datetime) (rs : list Reservation) (r : Reservation) :
  In r rs -> stale now r = true ->
  in_ (reservation_id r) (map reservation_id (filter (stale now) rs)) = true.
Proof.
  intros Hin Hs. apply in__spec. apply in_map. apply filter_In. now split.
Qed.

Lemma collected_id_stale (now : datetime) (rs : list Reservation) (r : Reservation) :
  NoDup (map reservation_id rs) -> In r rs ->
  in_ (reservation_id r) (map reservation_id (filter (stale now) rs))
  = stale now r.
Proof.
  intros Hnd Hin. destruct (stale now r) eqn:Hs.
  - now apply stale_id_collected.
  - destruct (in_ _ _) eqn:Hi; [|reflexivity].
    apply in__spec in Hi. apply in_map_iff in Hi.
    destruct Hi as [r' [Hid Hr']]. apply filter_In in Hr'.
    destruct Hr' as [Hr' Hs'].
    assert (r' = r) by (apply (NoDup_key_inj reservation_id rs); auto).
    subst. congruence.
Qed.

Lemma collected_copy (now : datetime) (rs : list Reservation) (c : Z) :
  in_ c (map reservation_copy_id (filter (stale now) rs))
  = existsb (fun r => stale now r && (reservation_copy_id r =? c)) rs.
Proof.
  unfold in_. induction rs as [|r rs IH]; simpl; [reflexivity|].
  destruct (stale now r); simpl.
  - rewrite IH. now rewrite (Z.eqb_sym c).
  - exact IH.
Qed.

(** After a sweep at [now] nothing is stale at [now]. *)
Lemma swept_not_stale (now : datetime) (rs : list Reservation) (r' : Reservation) :
  In r' (update_where
           (fun r => in_ (reservation_id r)
                         (map reservation_id (filter (stale now) rs)))
           (set_reservation_status "expired") rs) ->
  stale now r' = false.
Proof.
  intros H. apply update_where_in in H. destruct H as [r [Hin ->]].
  destruct (in_ _ _) eqn:Hi.
  - apply stale_expired.
  - destruct (stale now r) eqn:Hs; [|reflexivity].
    rewrite (stale_id_collected now rs r Hin Hs) in Hi. discriminate.
Qed.

Lemma filter_nil {A} (p : A -> bool) (rows : list A) :
  (forall r, In r rows -> p r = false) -> filter p rows = [].
Proof.
  induction rows as [|r rows IH]; intros H; simpl; [reflexivity|].
  rewrite (H r (or_introl eq_refl)). apply IH. intros r' Hr'. apply H. now right.
Qed.

Lemma filter_nil_inv {A} (p : A -> bool) (rows : list A) :
  filter p rows = [] -> forall r, In r rows -> p r = false.
Proof.
  intros H r Hin. destruct (p r) eqn:Hp; [|reflexivity].
  assert (Hf : In r (filter p rows)) by (apply filter_In; now split).
  rewrite H in Hf. destruct Hf.
Qed.

(** The sweep written row by row; needs no assumption on the keys except
    for the reservations table. *)
Lemma expire_old_reservations_rows (now : datetime) (st : Store) :
  NoDup (map reservation_id (reservations st)) ->
  reservations (fst (expire_old_reservations now st))
  = map (expire_row now) (reservations st)
  /\ copies (fst (expire_old_reservations now st))
     = map (release_row now (reservations st)) (copies st).
Proof.
  intros Hnd. unfold expire_old_reservations.
  destruct (map reservation_id (filter (stale now) (reservations st))) eqn:Hids.
  - assert (Hq : filter (stale now) (reservations st) = [])
      by (destruct (filter (stale now) (reservations st)); [reflexivity | discriminate]).
    assert (Hns := filter_nil_inv _ _ Hq). simpl. split.
    + rewrite <- (map_id (reservations st)) at 1. apply map_ext_in.
      intros r Hr. unfold expire_row. now rewrite (Hns r Hr).
    + rewrite <- (map_id (copies st)) at 1. apply map_ext_in.
      intros c _. unfold release_row.
      replace (existsb _ (reservations st)) with false;
        [now rewrite andb_false_r|].
      symmetry. rewrite <- collected_copy. now rewrite Hq.
  - rewrite <- Hids. simpl. split.
    + apply map_ext_in. intros r Hr. unfold expire_row.
      now rewrite collected_id_stale.
    + apply map_ext_in. intros c _. unfold release_row.
      now rewrite collected_copy, andb_comm.
Qed.

Lemma expire_old_reservations_count (now : datetime) (st : Store) :
  snd (expire_old_reservations now st)
  = Z.of_nat (List.length (filter (stale now) (reservations st))).
Proof.
  unfold expire_old_reservations.
  destruct (map reservation_id (filter (stale now) (reservations st))) eqn:Hids.
  - destruct (filter (stale now) (reservations st)); [reflexivity | discriminate].
  - rewrite <- Hids. simpl. now rewrite length_map.
Qed.

Lemma expire_old_reservations_again (now : datetime) (st : Store) :
  expire_old_reservations now (fst (expire_old_reservations now st))
  = (fst (expire_old_reservations now st), 0).
Proof.
  assert (Hq : filter (stale now)
                      (reservations (fst (expire_old_reservations now st))) = []).
  { apply filter_nil. unfold expire_old_reservations.
    destruct (map reservation_id (filter (stale now) (reservations st))) eqn:Hids.
    - assert (Hq : filter (stale now) (reservations st) = [])
        by (destruct (filter (stale now) (reservations st));
            [reflexivity | discriminate]).
      simpl. now apply filter_nil_inv.
    - rewrite <- Hids. simpl. apply swept_not_stale. }
  unfold expire_old_reservations at 1. now rewrite Hq.
Qed.

Lemma expire_old_reservations_others (now : datetime) (st : Store) :
  loans (fst (expire_old_reservations now st)) = loans st
  /\ users (fst (expire_old_reservations now st)) = users st
  /\ locations (fst (expire_old_reservations now st)) = locations st
  /\ loans_id_seq (fst (expire_old_reservations now st)) = loans_id_seq st
  /\ reservations_id_seq (fst (expire_old_reservations now st))
     = reservations_id_seq st.
Proof.
  unfold expire_old_reservations.
  destruct (map reservation_id (filter (stale now) (reservations st)));
    simpl; repeat split; reflexivity.
Qed.

(** C3. The sweep sets to [expired] exactly the reservations that are
    [active] with an expiry strictly before [now], changing nothing else in
    their rows; a copy is reset to [available] exactly when it is [reserved]
    and one of these reservations refers to it, every other copy keeps its
    status; loans are not touched; the result is the number of reservations
    expired; a second sweep at the same [now] changes nothing and
    returns 0. *)
Theorem expire_old_reservations_spec (now : datetime) (st : Store) :
  NoDup (map reservation_id (reservations st)) ->
  let st' := fst (expire_old_reservations now st) in
  let run_out := fun r => (reservation_status r =? "active")%string
                          && dt_ltb (reservation_expires_at r) now in
  reservations st'
  = map (fun r => if run_out r
                  then mk_Reservation (reservation_id r) "expired"
                                      (reservation_pickup_date r)
                                      (reservation_expires_at r)
                                      (reservation_extended_once r)
                                      (reservation_reader_id r)
                                      (reservation_copy_id r)
                                      (reservation_branch_id r)
                  else r)
        (reservations st)
  /\ copies st'
     = map (fun c =>
              if (copy_status c =? "reserved")%string
                 && existsb (fun r => run_out r
                                      && (reservation_copy_id r =? copy_id c))
                            (reservations st)
              then mk_Copy (copy_id c) (copy_inventory_code c) "available"
                           (copy_book_id c) (copy_location_id c)
              else c)
           (copies st)
  /\ (forall r, In r (reservations st) -> run_out r = true ->
                exists r', In r' (reservations st')
                           /\ reservation_id r' = reservation_id r
                           /\ reservation_status r' = "expired")
  /\ (forall r, In r (reservations st) -> run_out r = false ->
                In r (reservations st'))
  /\ (forall c r, In c (copies st) -> copy_status c = "reserved" ->
                  In r (reservations st) -> run_out r = true ->
                  reservation_copy_id r = copy_id c ->
                  exists c', In c' (copies st') /\ copy_id c' = copy_id c
                             /\ copy_status c' = "available")
  /\ (forall c, In c (copies st) -> copy_status c <> "reserved" ->
                In c (copies st'))
  /\ (forall c, In c (copies st) ->
                (forall r, In r (reservations st) -> run_out r = true ->
                           reservation_copy_id r <> copy_id c) ->
                In c (copies st'))
  /\ loans st' = loans st
  /\ snd (expire_old_reservations now st)
     = Z.of_nat (List.length (filter run_out (reservations st)))
  /\ expire_old_reservations now st' = (st', 0).
Proof.
  intros Hnd st' run_out. subst st' run_out. cbv beta.
  destruct (expire_old_reservations_rows now st Hnd) as [Hr Hc].
  split; [exact Hr|]. split; [exact Hc|].
  split.
  { intros r Hin Hout. rewrite Hr.
    exists (set_reservation_status "expired" r). split; [|split; reflexivity].
    apply in_map_iff. exists r. split; [|assumption].
    cbv beta delta [expire_row release_row stale]. now rewrite Hout. }
  split.
  { intros r Hin Hout. rewrite Hr. apply in_map_iff. exists r.
    split; [|assumption]. cbv beta delta [expire_row release_row stale]. now rewrite Hout. }
  split.
  { intros c r Hc0 Hres Hin Hout Hcopy. rewrite Hc.
    exists (set_copy_status "available" c). split; [|split; reflexivity].
    apply in_map_iff. exists c. split; [|assumption]. cbv beta delta [expire_row release_row stale].
    replace (copy_status c =? "reserved")%string with true
      by (symmetry; now apply String.eqb_eq).
    replace (existsb _ (reservations st)) with true; [reflexivity|].
    symmetry. apply existsb_exists. exists r. split; [assumption|].
    rewrite Hout. now apply Z.eqb_eq. }
  split.
  { intros c Hc0 Hres. rewrite Hc. apply in_map_iff. exists c.
    split; [|assumption]. cbv beta delta [expire_row release_row stale].
    replace (copy_status c =? "reserved")%string with false; [reflexivity|].
    symmetry. now apply String.eqb_neq. }
  split.
  { intros c Hc0 Hnone. rewrite Hc. apply in_map_iff. exists c.
    split; [|assumption]. cbv beta delta [expire_row release_row stale].
    replace (existsb _ (reservations st)) with false;
      [now rewrite andb_false_r|].
    symmetry. apply not_true_is_false. intros E.
    apply existsb_exists in E. destruct E as [r [Hin E]].
    apply andb_prop in E. destruct E as [Hout E]. apply Z.eqb_eq in E.
    exact (Hnone r Hin Hout E). }
  split; [apply expire_old_reservations_others|].
  split; [apply expire_old_reservations_count|].
  apply expire_old_reservations_again.
Qed.

(** * At most one holder *)

Lemma consistent_shrink (st st' : Store) :
  consistent st ->
  (forall c, (holders st' c <= holders st c)%nat) ->
  (forall row', In row' (copies st') -> copy_status row' = "available" ->
     (exists row, In row (copies st) /\ copy_id row = copy_id row'
                  /\ copy_status row = "available")
     \/ (holders st' (copy_id row') < holders st (copy_id row'))%nat) ->
  consistent st'.
Proof.
  intros [Hone Hfree] Hle Hrows. split.
  - intros c. specialize (Hle c). specialize (Hone c). lia.
  - intros row' Hin Hav. destruct (Hrows row' Hin Hav) as [[row [Hr [Hid Hs]]] | Hlt].
    + specialize (Hfree row Hr Hs). rewrite Hid in Hfree.
      specialize (Hle (copy_id row')). lia.
    + specialize (Hone (copy_id row')). lia.
Qed.

Lemma consistent_take (st st' : Store) (c0 : Z) :
  consistent st ->
  (holders st' c0 <= 1)%nat ->
  (forall c, c <> c0 -> (holders st' c <= holders st c)%nat) ->
  (forall row', In row' (copies st') -> copy_status row' = "available" ->
     copy_id row' <> c0
     /\ exists row, In row (copies st) /\ copy_id row = copy_id row'
                    /\ copy_status row = "available") ->
  consistent st'.
Proof.
  intros [Hone Hfree] H0 Hle Hrows. split.
  - intros c. destruct (Z.eq_dec c c0) as [-> | Hne]; [assumption|].
    specialize (Hle c Hne). specialize (Hone c). lia.
  - intros row' Hin Hav. destruct (Hrows row' Hin Hav) as [Hne [row [Hr [Hid Hs]]]].
    specialize (Hfree row Hr Hs). rewrite Hid in Hfree.
    specialize (Hle _ Hne). lia.
Qed.

(** A store without loans and reservations is consistent, whatever the
    statuses of its copies. *)
Lemma fresh_store_consistent (st : Store) :
  loans st = [] -> reservations st = [] -> consistent st.
Proof.
  intros Hl Hr.
  assert (H0 : forall c, holders st c = 0%nat)
    by (intros c; unfold holders; now rewrite Hl, Hr).
  split.
  - intros c. rewrite H0. lia.
  - intros row _ _. apply H0.
Qed.

Lemma consistent_with_seqs (st : Store) (a b : Z) :
  consistent st -> consistent (with_seqs st a b).
Proof. intros H. exact H. Qed.

(** A transaction keeps consistency when its body does. *)
Lemma consistent_atomic {A} (body : Store -> Store * outcome A) (st : Store) :
  consistent st -> consistent (fst (body st)) -> consistent (fst (atomic body st)).
Proof.
  intros Hst Hbody. unfold atomic.
  destruct (body st) as [st' [a | e]]; simpl in *.
  - exact Hbody.
  - now apply consistent_with_seqs.
Qed.

Lemma stale_active (now : datetime) (r : Reservation) :
  stale now r = true -> reservation_status r = "active".
Proof.
  unfold stale. intros H. apply andb_prop in H. destruct H as [H _].
  now apply String.eqb_eq in H.
Qed.

Lemma reservation_holds_own (r : Reservation) :
  reservation_status r = "active" ->
  reservation_holds (reservation_copy_id r) r = true.
Proof.
  intros H. unfold reservation_holds. now rewrite Z.eqb_refl, H.
Qed.

Lemma holders_release (st : Store) (p : Reservation -> bool) (s : string)
      (q : Copy -> bool) (s' : string) (c : Z) :
  s <> "active" ->
  (holders
     (with_copies
        (with_reservations st
           (update_where p (set_reservation_status s) (reservations st)))
        (update_where q (set_copy_status s') (copies st))) c
   <= holders st c)%nat.
Proof.
  intros Hs. unfold holders. simpl.
  apply Nat.add_le_mono_l. apply count_update_le.
  intros r _ _ H. unfold reservation_holds in H. simpl in H.
  apply andb_prop in H. destruct H as [_ H]. apply String.eqb_eq in H.
  now contradiction Hs.
Qed.

Lemma holders_release_lt (st : Store) (p : Reservation -> bool) (s : string)
      (q : Copy -> bool) (s' : string) (r0 : Reservation) :
  s <> "active" ->
  In r0 (reservations st) -> p r0 = true -> reservation_status r0 = "active" ->
  (holders
     (with_copies
        (with_reservations st
           (update_where p (set_reservation_status s) (reservations st)))
        (update_where q (set_copy_status s') (copies st)))
     (reservation_copy_id r0)
   < holders st (reservation_copy_id r0))%nat.
Proof.
  intros Hs Hin Hp Hact. unfold holders. simpl.
  apply Nat.add_lt_mono_l. apply (count_update_lt _ _ _ r0); auto.
  - intros r _ _ H. unfold reservation_holds in H. simpl in H.
    apply andb_prop in H. destruct H as [_ H]. apply String.eqb_eq in H.
    now contradiction Hs.
  - now apply reservation_holds_own.
  - unfold reservation_holds. simpl. apply andb_false_intro2.
    apply String.eqb_neq. exact Hs.
Qed.

Lemma consistent_expire (now : datetime) (st : Store) :
  consistent st -> consistent (fst (expire_old_reservations now st)).
Proof.
  intros Hst. unfold expire_old_reservations.
  destruct (map reservation_id (filter (stale now) (reservations st))) eqn:Hids;
    [exact Hst|].
  rewrite <- Hids. simpl.
  apply (consistent_shrink st); [assumption | |].
  - intros c. apply holders_release. discriminate.
  - intros row' Hin Hav. simpl in Hin. apply update_where_in in Hin.
    destruct Hin as [row [Hrow ->]].
    destruct (in_ (copy_id row) _ && _) eqn:Hq.
    + right. apply andb_prop in Hq. destruct Hq as [Hq _].
      apply in__spec in Hq. apply in_map_iff in Hq.
      destruct Hq as [r0 [Hc Hr0]]. apply filter_In in Hr0.
      destruct Hr0 as [Hr0 Hs]. simpl. rewrite <- Hc.
      apply holders_release_lt; auto.
      * discriminate.
      * now apply stale_id_collected.
      * now apply stale_active in Hs.
    + left. exists row. auto.
Qed.

Lemma consistent_update_overdue (today : date) (st : Store) :
  consistent st -> consistent (fst (update_overdue_statuses today st)).
Proof.
  intros Hst. apply (consistent_shrink st); [assumption | |].
  - intros c. unfold holders. simpl. apply Nat.add_le_mono_r.
    apply Nat.eq_le_incl. apply count_update_eq.
    intros l _ Hp. apply andb_prop in Hp. destruct Hp as [Hp _].
    apply String.eqb_eq in Hp. unfold loan_holds. simpl. now rewrite Hp.
  - intros row' Hin Hav. left. exists row'. auto.
Qed.

Lemma consistent_extend (now : datetime) (reader : User) (rid : Z) (st : Store) :
  consistent st -> consistent (fst (extend_reservation now reader rid st)).
Proof.
  intros Hst. unfold extend_reservation.
  assert (H1 := consistent_expire now st Hst).
  set (st1 := fst (expire_old_reservations now st)) in *.
  apply consistent_atomic; [assumption|].
  destruct (get_or_none _ (reservations st1)) as [res|]; [|exact H1].
  destruct (negb (reservation_reader_id res =? user_id reader)); [exact H1|].
  destruct (negb (reservation_status res =? "active")%string); [exact H1|].
  destruct (reservation_extended_once res); [exact H1|].
  simpl. apply (consistent_shrink st1); [assumption | |].
  - intros c. unfold holders. simpl. apply Nat.add_le_mono_l.
    apply Nat.eq_le_incl. apply count_update_eq. reflexivity.
  - intros row' Hin Hav. left. exists row'. auto.
Qed.

Lemma consistent_cancel (now : datetime) (reader : User) (rid : Z) (st : Store) :
  consistent st -> consistent (fst (cancel_reservation now reader rid st)).
Proof.
  intros Hst. unfold cancel_reservation.
  assert (H1 := consistent_expire now st Hst).
  set (st1 := fst (expire_old_reservations now st)) in *.
  apply consistent_atomic; [assumption|].
  destruct (get_or_none _ (reservations st1)) as [res|] eqn:Hget; [|exact H1].
  destruct (negb (reservation_reader_id res =? user_id reader)); [exact H1|].
  destruct (negb (reservation_status res =? "active")%string) eqn:Hact; [exact H1|].
  apply negb_false_iff, String.eqb_eq in Hact.
  apply get_or_none_some in Hget. destruct Hget as [Hin _].
  simpl. apply (consistent_shrink st1); [assumption | |].
  - intros c. apply holders_release. discriminate.
  - intros row' Hrow' Hav. simpl in Hrow'. apply update_where_in in Hrow'.
    destruct Hrow' as [row [Hrow ->]].
    destruct ((copy_id row =? reservation_copy_id res) && _) eqn:Hq.
    + right. apply andb_prop in Hq. destruct Hq as [Hq _].
      apply Z.eqb_eq in Hq. simpl. rewrite Hq.
      apply holders_release_lt; auto.
      * discriminate.
      * apply Z.eqb_refl.
    + left. exists row. auto.
Qed.

Lemma consistent_atomic_ret {A} (body : Store -> Store * outcome A) (st : Store) :
  consistent st ->
  (forall st' a, body st = (st', Ret a) -> consistent st') ->
  consistent (fst (atomic body st)).
Proof.
  intros Hst Hbody. unfold atomic.
  destruct (body st) as [st' [a | e]] eqn:Hb; simpl.
  - now apply (Hbody st' a).
  - now apply consistent_with_seqs.
Qed.

Lemma loan_holds_own (l : Loan) :
  status_in (loan_status l) ACTIVE_LOAN_STATUSES = true ->
  loan_holds (loan_copy_id l) l = true.
Proof. intros H. unfold loan_holds. now rewrite Z.eqb_refl, H. Qed.

Lemma loan_holds_closed (today : date) (u : User) (c : Z) (l : Loan) :
  loan_holds c (close_loan today u l) = false.
Proof. unfold loan_holds. simpl. apply andb_false_r. Qed.

(** Rows of [copies] after [save_copy_status]: a row that is [available]
    afterwards was so before and is not the saved one, unless [available] is
    the status saved. *)
Lemma save_copy_status_available (id : Z) (s : string) (st : Store) (row' : Copy) :
  s <> "available" ->
  In row' (copies (save_copy_status id s st)) ->
  copy_status row' = "available" ->
  copy_id row' <> id /\ In row' (copies st).
Proof.
  intros Hs Hin Hav. simpl in Hin. apply update_where_in in Hin.
  destruct Hin as [row [Hrow ->]].
  destruct (copy_id row =? id) eqn:Hid.
  - simpl in Hav. now contradiction Hs.
  - apply Z.eqb_neq in Hid. now split.
Qed.

Lemma consistent_return_loan (today : date) (lid : Z) (librarian : User) (st : Store) :
  consistent st -> consistent (fst (return_loan today lid librarian st)).
Proof.
  intros Hst. unfold return_loan.
  destruct (get_or_none _ (loans st)) as [loan|] eqn:Hget; [|exact Hst].
  destruct (negb (status_in (loan_status loan) ["open"; "overdue"])) eqn:Hact;
    [exact Hst|].
  apply consistent_atomic_ret; [assumption|].
  intros st' a. rewrite Hget, Hact.
  destruct (negb (is_user (user_id librarian) st)); [discriminate|].
  apply negb_false_iff in Hact.
  apply get_or_none_some in Hget. destruct Hget as [Hin Hid].
  destruct (get_or_none _ (copies _)) as [copy|] eqn:Hcopy; [|discriminate].
  intros Heq. injection Heq as <- _.
  apply get_or_none_some in Hcopy. destruct Hcopy as [_ Hcid].
  apply Z.eqb_eq in Hcid. rewrite Hcid.
  assert (Hle : forall c,
    (List.length (filter (loan_holds c)
        (update_where (fun l => (loan_id l =? loan_id loan)%Z)
                      (close_loan today librarian) (loans st)))
     <= List.length (filter (loan_holds c) (loans st)))%nat).
  { intros c. apply count_update_le. intros l _ _ H.
    now rewrite loan_holds_closed in H. }
  apply (consistent_shrink st); [assumption | |].
  - intros c. unfold holders. simpl. apply Nat.add_le_mono_r. apply Hle.
  - intros row' Hrow' Hav. simpl in Hrow'. apply update_where_in in Hrow'.
    destruct Hrow' as [row [Hrow ->]].
    destruct (copy_id row =? loan_copy_id loan) eqn:Hq.
    + right. apply Z.eqb_eq in Hq. simpl. rewrite Hq.
      unfold holders. simpl. apply Nat.add_lt_mono_r.
      apply (count_update_lt _ _ _ loan); auto.
      * intros l _ _ H. now rewrite loan_holds_closed in H.
      * apply Z.eqb_refl.
      * now apply loan_holds_own.
      * apply loan_holds_closed.
    + left. exists row. auto.
Qed.

(** Inserting a loan that holds its copy: refused when the copy has such
    a loan already. *)
Lemma insert_loan_open (l : Loan) (st : Store) :
  status_in (loan_status l) ["open"; "overdue"] = true ->
  insert_loan l st
  = if existsb (loan_holds (loan_copy_id l)) (loans st)
    then (with_seqs st (loans_id_seq st + 1) (reservations_id_seq st),
          Raise IntegrityError)
    else if negb (is_user (loan_reader_id l) st && is_user (loan_librarian_id l) st)
    then (with_seqs st (loans_id_seq st + 1) (reservations_id_seq st),
          Raise IntegrityError)
    else (with_loans (with_seqs st (loans_id_seq st + 1) (reservations_id_seq st))
                     (loans st ++ [set_loan_id (loans_id_seq st) l]),
          Ret (set_loan_id (loans_id_seq st) l)).
Proof. intros H. unfold insert_loan. rewrite H. reflexivity. Qed.

Lemma insert_reservation_active (r : Reservation) (st : Store) :
  reservation_status r = "active" ->
  insert_reservation r st
  = if existsb (reservation_holds (reservation_copy_id r)) (reservations st)
    then (with_seqs st (loans_id_seq st) (reservations_id_seq st + 1),
          Raise IntegrityError)
    else if negb (is_user (reservation_reader_id r) st)
    then (with_seqs st (loans_id_seq st) (reservations_id_seq st + 1),
          Raise IntegrityError)
    else (with_reservations
            (with_seqs st (loans_id_seq st) (reservations_id_seq st + 1))
            (reservations st ++ [set_reservation_id (reservations_id_seq st) r]),
          Ret (set_reservation_id (reservations_id_seq st) r)).
Proof. intros H. unfold insert_reservation. rewrite H. reflexivity. Qed.

Lemma existsb_false_count {A} (h : A -> bool) (rows : list A) :
  existsb h rows = false -> List.length (filter h rows) = 0%nat.
Proof.
  induction rows as [|r rows IH]; simpl; [reflexivity|].
  destruct (h r); simpl; [discriminate | exact IH].
Qed.

Lemma count_zero_existsb {A} (h : A -> bool) (rows : list A) :
  List.length (filter h rows) = 0%nat -> existsb h rows = false.
Proof.
  induction rows as [|r rows IH]; simpl; [reflexivity|].
  destruct (h r); simpl; [discriminate | exact IH].
Qed.

Lemma fst_on_integrity_error {A} (x : Store * outcome A) (y : outcome A) :
  fst (match x with
       | (st', Raise IntegrityError) => (st', y)
       | r => r
       end) = fst x.
Proof. destruct x as [st' [a | [| |]]]; reflexivity. Qed.

Lemma consistent_issue_loan (today : date) (code login : string) (librarian : User)
      (st : Store) :
  consistent st -> consistent (fst (issue_loan today code login librarian st)).
Proof.
  intros Hst. unfold issue_loan.
  destruct (is_empty (strip code) || is_empty (strip login)); [exact Hst|].
  destruct (get_or_none _ (copies st)) as [copy|] eqn:Hget; [|exact Hst].
  destruct (negb (copy_status copy =? "available")%string) eqn:Hav; [exact Hst|].
  destruct (get_or_none _ (users st)) as [reader|]; [|exact Hst].
  cbv zeta. rewrite fst_on_integrity_error.
  apply consistent_atomic_ret; [assumption|].
  intros st' a.
  destruct (get_or_none (fun c => copy_id c =? copy_id copy) (copies st))
    as [copy'|] eqn:Hget'; [|discriminate].
  destruct (negb (copy_status copy' =? "available")%string);
    [intros Heq; injection Heq as <- _; exact Hst|].
  rewrite insert_loan_open by reflexivity.
  destruct (existsb _ (loans st)); [discriminate|].
  destruct (negb (is_user _ _ && is_user _ _)); [discriminate|].
  intros Heq. injection Heq as <- _.
  apply negb_false_iff, String.eqb_eq in Hav.
  apply get_or_none_some in Hget. destruct Hget as [Hin _].
  apply get_or_none_some in Hget'. destruct Hget' as [_ Hid].
  apply Z.eqb_eq in Hid.
  destruct Hst as [Hone Hfree].
  assert (H0 := Hfree copy Hin Hav). rewrite <- Hid in H0.
  apply (consistent_take st _ (copy_id copy')); [now split | | |].
  - unfold holders in *. simpl. rewrite count_app.
    destruct (loan_holds _ _); lia.
  - intros c Hc. unfold holders. simpl. rewrite count_app.
    unfold loan_holds at 2. simpl.
    replace (copy_id copy' =? c) with false
      by (symmetry; apply Z.eqb_neq; congruence).
    simpl. lia.
  - intros row' Hrow' Hav'.
    apply save_copy_status_available in Hrow'; [|discriminate|exact Hav'].
    destruct Hrow' as [Hne Hrow].
    split; [exact Hne|]. exists row'. auto.
Qed.

Lemma in_insert_by_id (c x : Copy) (l : list Copy) :
  In x (insert_by_id c l) -> x = c \/ In x l.
Proof.
  induction l as [|c' l IH]; simpl.
  - intros [<- | []]. now left.
  - destruct (copy_id c <=? copy_id c'); simpl.
    + intros [<- | H]; [now left | now right].
    + intros [<- | H]; [right; now left|].
      destruct (IH H) as [-> | H']; [now left | right; now right].
Qed.

Lemma in_order_by_id_asc (x : Copy) (l : list Copy) :
  In x (order_by_id_asc l) -> In x l.
Proof.
  induction l as [|c l IH]; simpl; [auto|].
  intros H. apply in_insert_by_id in H. destruct H as [-> | H]; auto.
Qed.

Lemma first_in {A} (rows : list A) (r : A) : first rows = Some r -> In r rows.
Proof. destruct rows; simpl; [discriminate|]. intros [= ->]. now left. Qed.

Lemma available_copies_in (st : Store) (book_id branch_id : Z) (c : Copy) :
  In c (available_copies st book_id branch_id) ->
  In c (copies st) /\ copy_status c = "available"
  /\ copy_book_id c = book_id /\ at_branch st branch_id c = true.
Proof.
  unfold available_copies. rewrite filter_In. intros [Hin H].
  apply andb_prop in H. destruct H as [H Hb].
  apply andb_prop in H. destruct H as [Hk Hs].
  apply Z.eqb_eq in Hk. apply String.eqb_eq in Hs. auto.
Qed.

Lemma consistent_create (today : date) (now : datetime) (reader : User)
      (book_id branch_id : Z) (pickup : date) (st : Store) :
  consistent st ->
  consistent (fst (create_reservation today now reader book_id branch_id pickup st)).
Proof.
  intros Hst. unfold create_reservation.
  destruct ((pickup <? today) || (pickup >? today + 3)); [exact Hst|].
  assert (H1 := consistent_expire now st Hst).
  set (st1 := fst (expire_old_reservations now st)) in *.
  apply consistent_atomic_ret; [assumption|].
  intros st' a.
  destruct (first _) as [copy_obj|] eqn:Hfirst;
    [|intros Heq; injection Heq as <- _; exact H1].
  rewrite insert_reservation_active by reflexivity.
  destruct (existsb _ (reservations _)); [discriminate|].
  destruct (negb (is_user _ _)); [discriminate|].
  intros Heq. injection Heq as <- _.
  apply first_in, in_order_by_id_asc, available_copies_in in Hfirst.
  destruct Hfirst as [Hin [Hav _]].
  destruct H1 as [Hone Hfree].
  assert (H0 := Hfree copy_obj Hin Hav).
  apply (consistent_take st1 _ (copy_id copy_obj)); [now split | | |].
  - unfold holders in *. simpl. rewrite count_app.
    destruct (reservation_holds _ _); lia.
  - intros c Hc. unfold holders. simpl. rewrite count_app.
    unfold reservation_holds at 2. simpl.
    replace (copy_id copy_obj =? c) with false
      by (symmetry; apply Z.eqb_neq; congruence).
    simpl. lia.
  - intros row' Hrow' Hav'.
    apply save_copy_status_available in Hrow'; [|discriminate|exact Hav'].
    destruct Hrow' as [Hne Hrow].
    split; [exact Hne|]. exists row'. auto.
Qed.

Lemma consistent_fulfill (today : date) (now : datetime) (librarian : User)
      (rid loan_days : Z) (st : Store) :
  consistent st ->
  consistent (fst (fulfill_reservation today now librarian rid loan_days st)).
Proof.
  intros Hst. unfold fulfill_reservation.
  assert (H1 := consistent_expire now st Hst).
  set (st1 := fst (expire_old_reservations now st)) in *.
  apply consistent_atomic_ret; [assumption|].
  intros st' a.
  destruct (get_or_none _ (filter _ (reservations st1))) as [res|] eqn:Hget;
    [|intros Heq; injection Heq as <- _; exact H1].
  destruct (negb (reservation_status res =? "active")%string) eqn:Hact;
    [intros Heq; injection Heq as <- _; exact H1|].
  destruct (get_or_none _ (copies st1)) as [copy_obj|] eqn:Hcopy;
    [|intros Heq; injection Heq as <- _; exact H1].
  destruct (negb (copy_status copy_obj =? "reserved")%string);
    [intros Heq; injection Heq as <- _; exact H1|].
  destruct (existsb _ (loans st1)) eqn:Hopen;
    [intros Heq; injection Heq as <- _; exact H1|].
  destruct (add_days today loan_days) as [due|]; [|discriminate].
  destruct (get_or_none (fun u => user_id u =? reservation_reader_id res)
                        (users st1)) as [rdr|]; [|discriminate].
  rewrite insert_loan_open by reflexivity.
  cbn [loan_copy_id]. change (existsb (loan_holds (copy_id copy_obj)) (loans st1))
    with (existsb (fun l => (loan_copy_id l =? copy_id copy_obj)
                            && status_in (loan_status l) ACTIVE_LOAN_STATUSES)
                  (loans st1)).
  rewrite Hopen.
  destruct (negb (is_user _ _ && is_user _ _)); [discriminate|].
  intros Heq. injection Heq as <- _.
  apply negb_false_iff, String.eqb_eq in Hact.
  apply get_or_none_some in Hget. destruct Hget as [Hin _].
  apply filter_In in Hin. destruct Hin as [Hin _].
  apply get_or_none_some in Hcopy. destruct Hcopy as [_ Hid].
  apply Z.eqb_eq in Hid.
  destruct H1 as [Hone Hfree].
  assert (Hle : forall c,
    (List.length (filter (reservation_holds c)
        (update_where (fun r => (reservation_id r =? reservation_id res)%Z)
                      (set_reservation_status "fulfilled") (reservations st1)))
     <= List.length (filter (reservation_holds c) (reservations st1)))%nat).
  { intros c. apply count_update_le. intros r _ _ H.
    unfold reservation_holds in H. simpl in H. now rewrite andb_false_r in H. }
  assert (Hlt :
    (List.length (filter (reservation_holds (copy_id copy_obj))
        (update_where (fun r => (reservation_id r =? reservation_id res)%Z)
                      (set_reservation_status "fulfilled") (reservations st1)))
     < List.length (filter (reservation_holds (copy_id copy_obj))
                           (reservations st1)))%nat).
  { apply (count_update_lt _ _ _ res); auto.
    - intros r _ _ H. unfold reservation_holds in H. simpl in H.
      now rewrite andb_false_r in H.
    - apply Z.eqb_refl.
    - rewrite Hid. now apply reservation_holds_own.
    - unfold reservation_holds. simpl. apply andb_false_r. }
  apply (consistent_take st1 _ (copy_id copy_obj)); [now split | | |].
  - specialize (Hone (copy_id copy_obj)).
    unfold holders in *. simpl. rewrite count_app.
    destruct (loan_holds _ _); lia.
  - intros c Hc. specialize (Hle c).
    unfold holders. simpl. rewrite count_app.
    unfold loan_holds at 2. simpl.
    replace (copy_id copy_obj =? c) with false
      by (symmetry; apply Z.eqb_neq; congruence).
    simpl. lia.
  - intros row' Hrow' Hav'.
    apply save_copy_status_available in Hrow'; [|discriminate|exact Hav'].
    destruct Hrow' as [Hne Hrow].
    split; [exact Hne|]. exists row'. auto.
Qed.

Lemma consistent_step (st st' : Store) :
  step st st' -> consistent st -> consistent st'.
Proof.
  intros Hstep Hst. destruct Hstep.
  - now apply consistent_create.
  - now apply consistent_fulfill.
  - now apply consistent_cancel.
  - now apply consistent_extend.
  - now apply consistent_expire.
  - now apply consistent_issue_loan.
  - now apply consistent_return_loan.
  - now apply consistent_update_overdue.
Qed.

Lemma consistent_reachable (st0 st : Store) :
  reachable st0 st -> consistent st0 -> consistent st.
Proof.
  intros Hreach H0. induction Hreach as [|st st' _ IH Hstep].
  - exact H0.
  - exact (consistent_step st st' Hstep IH).
Qed.

(** X26. Calls made one after another keep at most one holder.  From a
    consistent store (no copy with two holders, no holder on a copy that is
    [available]) every store reached by calls of the eight engine
    operations, each run to its end before the next begins, has, for every
    copy, at most one record among its open or overdue loans and its active
    reservations. *)
Theorem at_most_one_holder (st0 st : Store) (c : Z) :
  consistent st0 -> reachable st0 st ->
  let open_or_overdue :=
    filter (fun l => (loan_copy_id l =? c)
                     && status_in (loan_status l) ["open"; "overdue"])
           (loans st) in
  let active :=
    filter (fun r => (reservation_copy_id r =? c)
                     && (reservation_status r =? "active")%string)
           (reservations st) in
  (List.length open_or_overdue + List.length active <= 1)%nat.
Proof.
  intros H0 Hreach.
  destruct (consistent_reachable st0 st Hreach H0) as [Hone _].
  exact (Hone c).
Qed.

(** * Returning a loan *)

Lemma released_by_update (q : Copy -> bool) (cs : list Copy) :
  (forall c, q c = true -> copy_status c = "reserved") ->
  Forall2 kept_or_released cs (update_where q (set_copy_status "available") cs).
Proof.
  intros Hq. induction cs as [|c cs IH]; simpl; constructor; [|exact IH].
  destruct (q c) eqn:E; [right | left]; auto.
Qed.

Lemma Forall2_kept_refl (cs : list Copy) : Forall2 kept_or_released cs cs.
Proof. induction cs; constructor; [now left | assumption]. Qed.

Lemma expire_releases_reserved_only (now : datetime) (st : Store) :
  Forall2 kept_or_released (copies st) (copies (fst (expire_old_reservations now st))).
Proof.
  unfold expire_old_reservations.
  destruct (map reservation_id (filter (stale now) (reservations st)));
    [apply Forall2_kept_refl|].
  simpl. apply released_by_update. intros c H.
  apply andb_prop in H. destruct H as [_ H]. now apply String.eqb_eq in H.
Qed.

Lemma Forall2_kept_trans (cs cs' cs'' : list Copy) :
  Forall2 kept_or_released cs cs' -> Forall2 kept_or_released cs' cs'' ->
  Forall2 kept_or_released cs cs''.
Proof.
  intros H. revert cs''. induction H as [|c c' cs cs' Hc _ IH]; intros cs'' H'.
  - inversion H'. constructor.
  - inversion H' as [|x c'' xs cs2 Hc' Hrest]; subst. constructor; [|now apply IH].
    destruct Hc as [-> | [Hres ->]]; [exact Hc'|].
    destruct Hc' as [-> | [Hres' _]]; [right; now split|].
    simpl in Hres'. discriminate.
Qed.

Lemma cancel_releases_reserved_only (now : datetime) (reader : User) (rid : Z)
      (st : Store) :
  Forall2 kept_or_released (copies st)
          (copies (fst (cancel_reservation now reader rid st))).
Proof.
  apply (Forall2_kept_trans _ (copies (fst (expire_old_reservations now st))));
    [apply expire_releases_reserved_only|].
  unfold cancel_reservation, atomic.
  destruct (get_or_none _ _) as [res|]; [|apply Forall2_kept_refl].
  destruct (negb _); [apply Forall2_kept_refl|].
  destruct (negb _); [apply Forall2_kept_refl|].
  simpl. apply released_by_update. intros c H.
  apply andb_prop in H. destruct H as [_ H]. now apply String.eqb_eq in H.
Qed.

(** What a transaction that raises nothing leaves. *)
Lemma atomic_ret {A} (body : Store -> Store * outcome A) (st st' : Store) (a : A) :
  body st = (st', Ret a) -> atomic body st = (st', Ret a).
Proof. intros H. unfold atomic. now rewrite H. Qed.

Lemma with_seqs_same (st : Store) :
  with_seqs st (loans_id_seq st) (reservations_id_seq st) = st.
Proof. now destruct st. Qed.

Lemma atomic_raise {A} (body : Store -> Store * outcome A) (st st' : Store) (e : exn) :
  body st = (st', Raise e) ->
  atomic body st
  = (with_seqs st (loans_id_seq st') (reservations_id_seq st'), Raise e).
Proof. intros H. unfold atomic. now rewrite H. Qed.

Lemma atomic_ret_inv {A} (body : Store -> Store * outcome A) (st st' : Store) (a : A) :
  atomic body st = (st', Ret a) -> body st = (st', Ret a).
Proof.
  unfold atomic. destruct (body st) as [st'' [a' | e]]; [auto | discriminate].
Qed.

Lemma get_or_none_exists {A} (k : A -> bool) (rows : list A) (r : A) :
  In r rows -> k r = true -> exists r', get_or_none k rows = Some r'.
Proof.
  intros Hin Hk. destruct (get_or_none k rows) as [r'|] eqn:E; [now exists r'|].
  rewrite (get_or_none_none k rows E r Hin) in Hk. discriminate.
Qed.

Lemma is_user_spec (id : Z) (st : Store) :
  is_user id st = true <-> exists u, In u (users st) /\ user_id u = id.
Proof.
  unfold is_user. rewrite existsb_exists. split.
  - intros [u [Hu E]]. apply Z.eqb_eq in E. now exists u.
  - intros [u [Hu E]]. exists u. split; [assumption | now apply Z.eqb_eq].
Qed.

Lemma is_user_none (id : Z) (st : Store) :
  is_user id st = false <-> forall u, In u (users st) -> user_id u <> id.
Proof.
  split.
  - intros H u Hu E. assert (Hyes : is_user id st = true)
      by (apply is_user_spec; now exists u).
    congruence.
  - intros H. destruct (is_user id st) eqn:E; [|reflexivity].
    apply is_user_spec in E. destruct E as [u [Hu E]]. now apply H in Hu.
Qed.

(** C10. A return of a loan that is [open] or [overdue], by a librarian who
    is a user, succeeds (the copy row exists, as the foreign key demands),
    closes the loan and sets the status of the copy to [available] whatever
    that status was, also when the copy had been marked [lost] or
    [damaged]; every successful return has left the copy [available].  For
    a caller who is not in [users] the write of the loan breaks the foreign
    key: the return raises and nothing is changed.  The expiry sweep and
    [cancel_reservation], in contrast, turn to [available] only copies that
    are [reserved]. *)
Theorem return_loan_frees_copy (today : date) (lid : Z) (librarian : User)
        (st : Store) (loan : Loan) :
  get_or_none (fun l => loan_id l =? lid) (loans st) = Some loan ->
  status_in (loan_status loan) ["open"; "overdue"] = true ->
  (exists row, In row (copies st) /\ copy_id row = loan_copy_id loan) ->
  ((exists u, In u (users st) /\ user_id u = user_id librarian) ->
   exists st',
     return_loan today lid librarian st = (st', Ret (true, MsgReturned))
     /\ copies st'
        = map (fun c => if copy_id c =? loan_copy_id loan
                        then mk_Copy (copy_id c) (copy_inventory_code c) "available"
                                     (copy_book_id c) (copy_location_id c)
                        else c) (copies st)
     /\ (forall row', In row' (copies st') ->
                      copy_id row' = loan_copy_id loan ->
                      copy_status row' = "available")
     /\ loans st'
        = map (fun l => if loan_id l =? loan_id loan
                        then mk_Loan (loan_id l) "returned" (loan_start_date l)
                                     (loan_due_date l) (Some today)
                                     (loan_copy_id l) (loan_reader_id l)
                                     (user_id librarian)
                        else l) (loans st)
     /\ reservations st' = reservations st)
  /\ ((forall u, In u (users st) -> user_id u <> user_id librarian) ->
      return_loan today lid librarian st = (st, Raise IntegrityError))
  /\ (forall st' m,
        return_loan today lid librarian st = (st', Ret (true, m)) ->
        forall row', In row' (copies st') ->
                     copy_id row' = loan_copy_id loan ->
                     copy_status row' = "available")
  /\ (forall now,
        Forall2 kept_or_released (copies st)
                (copies (fst (expire_old_reservations now st))))
  /\ (forall now reader rid,
        Forall2 kept_or_released (copies st)
                (copies (fst (cancel_reservation now reader rid st)))).
Proof.
  intros Hget Hact [row [Hrow Hid]].
  destruct (get_or_none_exists (fun c => copy_id c =? loan_copy_id loan)
                               (copies st) row Hrow) as [copy Hcopy];
    [now apply Z.eqb_eq|].
  assert (Hcid : copy_id copy = loan_copy_id loan).
  { apply get_or_none_some in Hcopy. now apply Z.eqb_eq. }
  set (st1 := save_copy_status (loan_copy_id loan) "available"
                (with_loans st
                   (update_where (fun l => loan_id l =? loan_id loan)
                                 (close_loan today librarian) (loans st)))).
  assert (Hrows : forall row', In row' (copies st1) ->
                               copy_id row' = loan_copy_id loan ->
                               copy_status row' = "available").
  { intros row' Hin' Hid'. simpl in Hin'. apply update_where_in in Hin'.
    destruct Hin' as [r [_ ->]]. destruct (copy_id r =? loan_copy_id loan) eqn:E.
    - reflexivity.
    - simpl in Hid'. apply Z.eqb_neq in E. contradiction. }
  assert (Hyes : is_user (user_id librarian) st = true ->
                 return_loan today lid librarian st = (st1, Ret (true, MsgReturned))).
  { intros Hu. unfold return_loan. rewrite Hget, Hact. cbn [negb].
    apply atomic_ret. rewrite Hget, Hact, Hu. cbn [negb copies with_loans].
    rewrite Hcopy, Hcid. reflexivity. }
  assert (Hno : is_user (user_id librarian) st = false ->
                return_loan today lid librarian st = (st, Raise IntegrityError)).
  { intros Hu. unfold return_loan. rewrite Hget, Hact. cbn [negb].
    unfold atomic. rewrite Hget, Hact, Hu. cbn [negb]. now destruct st. }
  split; [|split; [|split; [|split]]].
  - intros Hu. apply is_user_spec in Hu. exists st1.
    split; [now apply Hyes|]. split; [reflexivity|]. split; [exact Hrows|].
    split; reflexivity.
  - intros Hu. apply is_user_none in Hu. now apply Hno.
  - intros st' m Hrun.
    destruct (is_user (user_id librarian) st) eqn:Hu.
    + rewrite (Hyes eq_refl) in Hrun. injection Hrun as <- _. exact Hrows.
    + rewrite (Hno eq_refl) in Hrun. discriminate.
  - intros now. apply expire_releases_reserved_only.
  - intros now reader rid. apply cancel_releases_reserved_only.
Qed.

(** * Issuing a loan *)

Lemma issue_loan_fails (today : date) (code login : string) (librarian : User)
      (st : Store) :
  get_or_none (fun c => (copy_inventory_code c =? strip code)%string) (copies st)
  = None
  \/ get_or_none (fun u => (user_login u =? strip login)%string) (users st) = None
  \/ (exists copy,
        get_or_none (fun c => (copy_inventory_code c =? strip code)%string)
                    (copies st) = Some copy
        /\ copy_status copy <> "available") ->
  exists m, issue_loan today code login librarian st = (st, Ret (false, m)).
Proof.
  intros H. unfold issue_loan.
  destruct (is_empty (strip code) || is_empty (strip login)); [eauto|].
  destruct (get_or_none _ (copies st)) as [copy|] eqn:Hcopy; [|eauto].
  destruct (negb (copy_status copy =? "available")%string) eqn:Hav; [eauto|].
  destruct (get_or_none _ (users st)) as [reader|] eqn:Hreader; [|eauto].
  exfalso. apply negb_false_iff, String.eqb_eq in Hav.
  destruct H as [H | [H | [copy' [H Hne]]]]; try discriminate.
  injection H as <-. contradiction.
Qed.

Lemma issue_loan_success (today : date) (code login : string) (librarian : User)
      (st st' : Store) (m : Msg) :
  issue_loan today code login librarian st = (st', Ret (true, m)) ->
  exists copy reader,
    is_empty (strip code) = false
    /\ get_or_none (fun c => (copy_inventory_code c =? strip code)%string)
                    (copies st) = Some copy
    /\ copy_status copy = "available"
    /\ get_or_none (fun u => (user_login u =? strip login)%string) (users st)
       = Some reader
    /\ m = MsgLoanIssued (loans_id_seq st) (today + 14)
    /\ st' = save_copy_status (copy_id copy) "loaned"
               (with_loans
                  (with_seqs st (loans_id_seq st + 1) (reservations_id_seq st))
                  (loans st ++ [mk_Loan (loans_id_seq st) "open" today (today + 14)
                                        None (copy_id copy) (user_id reader)
                                        (user_id librarian)])).
Proof.
  unfold issue_loan.
  destruct (is_empty (strip code)) eqn:Hcode; [discriminate|].
  destruct (is_empty (strip login)); [discriminate|]. cbn [orb].
  destruct (get_or_none _ (copies st)) as [copy|] eqn:Hcopy; [|discriminate].
  destruct (negb (copy_status copy =? "available")%string) eqn:Hav; [discriminate|].
  destruct (get_or_none _ (users st)) as [reader|] eqn:Hreader; [|discriminate].
  cbv zeta.
  destruct (atomic _ st) as [st'' [a | e]] eqn:Hblock;
    [|destruct e; discriminate].
  intros Heq. injection Heq as -> ->.
  apply atomic_ret_inv in Hblock.
  destruct (get_or_none (fun c => copy_id c =? copy_id copy) (copies st))
    as [copy'|] eqn:Hcopy'; [|discriminate].
  destruct (negb (copy_status copy' =? "available")%string); [discriminate|].
  rewrite insert_loan_open in Hblock by reflexivity.
  destruct (existsb _ (loans st)); [discriminate|].
  destruct (negb (is_user _ _ && is_user _ _)); [discriminate|].
  apply get_or_none_some in Hcopy'. destruct Hcopy' as [_ Hid].
  apply Z.eqb_eq in Hid. cbn [loan_copy_id] in Hblock. rewrite Hid in Hblock.
  injection Hblock as <- <-.
  apply negb_false_iff, String.eqb_eq in Hav.
  exists copy, reader. repeat split; auto.
Qed.

Lemma get_after_save_copy_status (k : Copy -> bool) (id : Z) (s : string)
      (cs : list Copy) (copy : Copy) :
  (forall c s', k (set_copy_status s' c) = k c) ->
  get_or_none k cs = Some copy ->
  get_or_none k (update_where (fun c => copy_id c =? id) (set_copy_status s) cs)
  = Some (if copy_id copy =? id then set_copy_status s copy else copy).
Proof.
  intros Hk Hget. rewrite get_update_where by (intros r; apply Hk).
  now rewrite Hget.
Qed.

Lemma issue_loan_again (today : date) (code login : string) (librarian : User)
      (st : Store) (copy : Copy) (ls : list Loan) (a b : Z) :
  get_or_none (fun c => (copy_inventory_code c =? strip code)%string) (copies st)
  = Some copy ->
  is_empty (strip code) = false ->
  is_empty (strip login) = false ->
  let st' := save_copy_status (copy_id copy) "loaned"
               (with_loans (with_seqs st a b) ls) in
  issue_loan today code login librarian st'
  = (st', Ret (false, MsgCopyNotAvailable "loaned")).
Proof.
  intros Hcopy Hcode Hlogin st'.
  unfold issue_loan. rewrite Hcode, Hlogin. cbn [orb].
  subst st'. cbn [copies save_copy_status with_copies with_loans with_seqs].
  rewrite (get_after_save_copy_status _ _ _ _ copy) by (reflexivity || exact Hcopy).
  rewrite Z.eqb_refl. reflexivity.
Qed.

Lemma get_by_key_unique {A} (key : A -> Z) (rows : list A) (r : A) :
  NoDup (map key rows) -> In r rows ->
  get_or_none (fun x => key x =? key r) rows = Some r.
Proof.
  intros Hnd Hin.
  destruct (get_or_none_exists (fun x => key x =? key r) rows r Hin
                               (Z.eqb_refl _)) as [r' Hget].
  rewrite Hget. f_equal.
  apply get_or_none_some in Hget. destruct Hget as [Hin' Hk].
  apply Z.eqb_eq in Hk. now apply (NoDup_key_inj key rows).
Qed.

Lemma free_copy_no_loan (st : Store) (c : Z) :
  holders st c = 0%nat -> existsb (loan_holds c) (loans st) = false.
Proof. unfold holders. intros H. apply count_zero_existsb. lia. Qed.

Lemma free_copy_no_reservation (st : Store) (c : Z) :
  holders st c = 0%nat -> existsb (reservation_holds c) (reservations st) = false.
Proof. unfold holders. intros H. apply count_zero_existsb. lia. Qed.

Lemma issue_loan_succeeds (today : date) (code login : string) (librarian : User)
      (st : Store) (copy : Copy) (reader : User) :
  consistent st -> NoDup (map copy_id (copies st)) ->
  is_empty (strip code) = false -> is_empty (strip login) = false ->
  get_or_none (fun c => (copy_inventory_code c =? strip code)%string) (copies st)
  = Some copy ->
  copy_status copy = "available" ->
  get_or_none (fun u => (user_login u =? strip login)%string) (users st)
  = Some reader ->
  is_user (user_id librarian) st = true ->
  exists st',
    issue_loan today code login librarian st
    = (st', Ret (true, MsgLoanIssued (loans_id_seq st) (today + 14))).
Proof.
  intros [_ Hfree] Hnd Hcode Hlogin Hcopy Hav Hreader Hlib.
  assert (Hin : In copy (copies st)) by (now apply get_or_none_some in Hcopy).
  assert (Hrd : is_user (user_id reader) st = true).
  { apply is_user_spec. exists reader. split; [|reflexivity].
    now apply get_or_none_some in Hreader. }
  eexists. unfold issue_loan.
  rewrite Hcode, Hlogin, Hcopy, Hav, Hreader.
  change (negb ("available" =? "available")%string) with false. cbn [orb].
  erewrite atomic_ret; [reflexivity|].
  rewrite (get_by_key_unique copy_id (copies st) copy Hnd Hin).
  rewrite Hav.
  change (negb ("available" =? "available")%string) with false. cbv iota.
  rewrite insert_loan_open by reflexivity.
  cbn [loan_copy_id loan_reader_id loan_librarian_id].
  rewrite (free_copy_no_loan st (copy_id copy) (Hfree copy Hin Hav)), Hrd, Hlib.
  reflexivity.
Qed.

Lemma issue_loan_no_librarian (today : date) (code login : string)
      (librarian : User) (st : Store) (copy : Copy) (reader : User) :
  NoDup (map copy_id (copies st)) ->
  is_empty (strip code) = false -> is_empty (strip login) = false ->
  get_or_none (fun c => (copy_inventory_code c =? strip code)%string) (copies st)
  = Some copy ->
  copy_status copy = "available" ->
  get_or_none (fun u => (user_login u =? strip login)%string) (users st)
  = Some reader ->
  is_user (user_id librarian) st = false ->
  issue_loan today code login librarian st
  = (with_seqs st (loans_id_seq st + 1) (reservations_id_seq st),
     Ret (false, MsgDbError)).
Proof.
  intros Hnd Hcode Hlogin Hcopy Hav Hreader Hlib.
  assert (Hin : In copy (copies st)) by (now apply get_or_none_some in Hcopy).
  unfold issue_loan.
  rewrite Hcode, Hlogin, Hcopy, Hav, Hreader.
  change (negb ("available" =? "available")%string) with false. cbn [orb].
  unfold atomic.
  rewrite (get_by_key_unique copy_id (copies st) copy Hnd Hin).
  rewrite Hav.
  change (negb ("available" =? "available")%string) with false. cbv iota.
  rewrite insert_loan_open by reflexivity.
  cbn [loan_copy_id loan_reader_id loan_librarian_id].
  rewrite Hlib, andb_false_r. cbn [negb].
  destruct (existsb _ (loans st)); reflexivity.
Qed.

(** C6. [issue_loan] fails and leaves the store as it is when the code
    finds no copy, when the login finds no reader, or when the copy found is
    not [available].  When it succeeds it has appended one loan, [open],
    starting today and due 14 days later, for that copy and reader, and has
    set the copy to [loaned]; any further [issue_loan] with the same code is
    then refused because the copy is not available.  On a consistent store
    with unique copy ids it does succeed for an available copy, a known
    reader and a librarian who is a user; for a caller who is no longer a
    user the database refuses the loan, and the answer is the database
    error. *)
Theorem issue_loan_spec (today : date) (code login : string) (librarian : User)
        (st : Store) :
  let by_code := fun c => (copy_inventory_code c =? strip code)%string in
  let by_login := fun u => (user_login u =? strip login)%string in
  ((get_or_none by_code (copies st) = None
    \/ get_or_none by_login (users st) = None
    \/ (exists copy, get_or_none by_code (copies st) = Some copy
                     /\ copy_status copy <> "available")) ->
   exists m, issue_loan today code login librarian st = (st, Ret (false, m)))
  /\ (forall st' m,
        issue_loan today code login librarian st = (st', Ret (true, m)) ->
        exists copy reader,
          get_or_none by_code (copies st) = Some copy
          /\ copy_status copy = "available"
          /\ get_or_none by_login (users st) = Some reader
          /\ loans st'
             = loans st ++ [mk_Loan (loans_id_seq st) "open" today (today + 14)
                                    None (copy_id copy) (user_id reader)
                                    (user_id librarian)]
          /\ copies st'
             = map (fun c => if copy_id c =? copy_id copy
                             then set_copy_status "loaned" c else c) (copies st)
          /\ (forall row, In row (copies st') -> copy_id row = copy_id copy ->
                          copy_status row = "loaned")
          /\ reservations st' = reservations st
          /\ forall today2 login2 librarian2,
               is_empty (strip login2) = false ->
               issue_loan today2 code login2 librarian2 st'
               = (st', Ret (false, MsgCopyNotAvailable "loaned")))
  /\ (consistent st -> NoDup (map copy_id (copies st)) ->
      forall copy reader,
        is_empty (strip code) = false -> is_empty (strip login) = false ->
        get_or_none by_code (copies st) = Some copy ->
        copy_status copy = "available" ->
        get_or_none by_login (users st) = Some reader ->
        ((exists u, In u (users st) /\ user_id u = user_id librarian) ->
         exists st',
           issue_loan today code login librarian st
           = (st', Ret (true, MsgLoanIssued (loans_id_seq st) (today + 14))))
        /\ ((forall u, In u (users st) -> user_id u <> user_id librarian) ->
            issue_loan today code login librarian st
            = (with_seqs st (loans_id_seq st + 1) (reservations_id_seq st),
               Ret (false, MsgDbError)))).
Proof.
  cbv zeta. split; [|split].
  - apply issue_loan_fails.
  - intros st' m H. apply issue_loan_success in H.
    destruct H as [copy [reader [Hcode [Hcopy [Hav [Hreader [-> ->]]]]]]].
    exists copy, reader.
    split; [assumption|]. split; [assumption|]. split; [assumption|].
    split; [reflexivity|]. split; [reflexivity|].
    split.
    { intros row Hrow Hid. cbn in Hrow. apply update_where_in in Hrow.
      destruct Hrow as [x [_ ->]].
      destruct (copy_id x =? copy_id copy) eqn:E; [reflexivity|].
      apply Z.eqb_neq in E. contradiction. }
    split; [reflexivity|].
    intros today2 login2 librarian2 Hlogin2.
    now apply issue_loan_again.
  - intros Hst Hnd copy reader Hcode Hlogin Hcopy Hav Hreader. split.
    + intros Hu. apply is_user_spec in Hu.
      now apply (issue_loan_succeeds today code login librarian st copy reader).
    + intros Hu. apply is_user_none in Hu.
      now apply (issue_loan_no_librarian today code login librarian st copy reader).
Qed.

(** * Creating a reservation *)

Lemma first_insert_by_id (c : Copy) (l : list Copy) :
  first (insert_by_id c l)
  = Some (match first l with
          | None => c
          | Some h => if copy_id c <=? copy_id h then c else h
          end).
Proof.
  destruct l as [|h l]; simpl; [reflexivity|].
  destruct (copy_id c <=? copy_id h); reflexivity.
Qed.

Lemma order_by_id_asc_nil (l : list Copy) : order_by_id_asc l = [] -> l = [].
Proof.
  destruct l as [|c l]; [reflexivity|]. simpl. intros H.
  assert (Hf := first_insert_by_id c (order_by_id_asc l)).
  rewrite H in Hf. discriminate.
Qed.

(** The first row in id order is a row with the least id. *)
Lemma first_order_by_id_asc (l : list Copy) (c : Copy) :
  first (order_by_id_asc l) = Some c ->
  In c l /\ forall c', In c' l -> copy_id c <= copy_id c'.
Proof.
  revert c. induction l as [|a l IH]; intros c; simpl; [discriminate|].
  rewrite first_insert_by_id.
  destruct (first (order_by_id_asc l)) as [h|] eqn:Hh.
  - destruct (IH h eq_refl) as [Hin Hmin].
    destruct (copy_id a <=? copy_id h) eqn:Hle; intros [= <-].
    + apply Z.leb_le in Hle. split; [now left|].
      intros c' [<- | Hc']; [lia|]. specialize (Hmin c' Hc'). lia.
    + apply Z.leb_gt in Hle. split; [now right|].
      intros c' [<- | Hc']; [lia|]. now apply Hmin.
  - intros [= <-].
    assert (l = []) as ->.
    { apply order_by_id_asc_nil. now destruct (order_by_id_asc l). }
    split; [now left|]. intros c' [<- | []]. lia.
Qed.

Lemma first_order_by_id_asc_some (l : list Copy) :
  l <> [] -> exists c, first (order_by_id_asc l) = Some c.
Proof.
  intros Hl. destruct (first (order_by_id_asc l)) as [c|] eqn:E; [now exists c|].
  exfalso. apply Hl. apply order_by_id_asc_nil.
  now destruct (order_by_id_asc l).
Qed.

Lemma expire_nothing_stale (now : datetime) (st : Store) :
  (forall r, In r (reservations st) -> stale now r = false) ->
  expire_old_reservations now st = (st, 0).
Proof.
  intros H. unfold expire_old_reservations. now rewrite (filter_nil _ _ H).
Qed.

Lemma store_ext (a b : Store) :
  users a = users b -> locations a = locations b -> copies a = copies b ->
  loans a = loans b -> reservations a = reservations b ->
  loans_id_seq a = loans_id_seq b ->
  reservations_id_seq a = reservations_id_seq b -> a = b.
Proof. destruct a, b. simpl. intros. subst. reflexivity. Qed.

Lemma expire_reservations_eq (now : datetime) (st : Store) :
  reservations (fst (expire_old_reservations now st))
  = update_where
      (fun r => in_ (reservation_id r)
                    (map reservation_id (filter (stale now) (reservations st))))
      (set_reservation_status "expired") (reservations st).
Proof.
  unfold expire_old_reservations.
  destruct (map reservation_id (filter (stale now) (reservations st))) eqn:Hids.
  - simpl. symmetry. now apply update_where_none.
  - reflexivity.
Qed.

Lemma expire_copies_eq (now : datetime) (st : Store) :
  copies (fst (expire_old_reservations now st))
  = update_where
      (fun c => in_ (copy_id c)
                    (map reservation_copy_id (filter (stale now) (reservations st)))
                && (copy_status c =? "reserved")%string)
      (set_copy_status "available") (copies st).
Proof.
  unfold expire_old_reservations.
  destruct (map reservation_id (filter (stale now) (reservations st))) eqn:Hids.
  - assert (Hq : filter (stale now) (reservations st) = [])
      by (destruct (filter (stale now) (reservations st)); [reflexivity | discriminate]).
    rewrite Hq. simpl. symmetry. now apply update_where_none.
  - reflexivity.
Qed.

Lemma expire_store (now : datetime) (st : Store) :
  fst (expire_old_reservations now st)
  = with_copies
      (with_reservations st
         (update_where
            (fun r => in_ (reservation_id r)
                          (map reservation_id (filter (stale now) (reservations st))))
            (set_reservation_status "expired") (reservations st)))
      (update_where
         (fun c => in_ (copy_id c)
                       (map reservation_copy_id
                            (filter (stale now) (reservations st)))
                   && (copy_status c =? "reserved")%string)
         (set_copy_status "available") (copies st)).
Proof.
  destruct (expire_old_reservations_others now st) as [Hl [Hu [Hlo [Hs1 Hs2]]]].
  apply store_ext; simpl; auto.
  - apply expire_copies_eq.
  - apply expire_reservations_eq.
Qed.

Lemma sequences_after_sweep (now : datetime) (st : Store) :
  loans (fst (expire_old_reservations now st)) = loans st
  /\ loans_id_seq (fst (expire_old_reservations now st)) = loans_id_seq st
  /\ reservations_id_seq (fst (expire_old_reservations now st))
     = reservations_id_seq st.
Proof. rewrite expire_store. repeat split. Qed.

Lemma sweep_keeps_available (now : datetime) (st : Store) (book_id branch_id : Z)
      (c : Copy) :
  In c (available_copies st book_id branch_id) ->
  In c (available_copies (fst (expire_old_reservations now st)) book_id branch_id).
Proof.
  unfold available_copies. rewrite !filter_In. intros [Hc H]. split.
  - rewrite expire_copies_eq.
    set (q := fun c0 : Copy => _ && _).
    assert (Hup := in_update_where q (set_copy_status "available") c (copies st) Hc).
    replace (q c) with false in Hup; [exact Hup|].
    unfold q. apply andb_true_iff in H. destruct H as [H _].
    apply andb_true_iff in H. destruct H as [_ Hs].
    apply String.eqb_eq in Hs. rewrite Hs. now rewrite andb_false_r.
  - rewrite expire_store. exact H.
Qed.

Lemma at_branch_exists (st : Store) (b : Z) (c : Copy) :
  at_branch st b c = true
  <-> exists l, In l (locations st) /\ location_branch_id l = b
                /\ copy_location_id c = Some (location_id l).
Proof.
  unfold at_branch. destruct (copy_location_id c) as [loc|].
  - rewrite existsb_exists. split.
    + intros [l [Hl H]]. apply andb_true_iff in H. destruct H as [H1 H2].
      apply Z.eqb_eq in H1, H2. exists l. repeat split; auto. now rewrite H1.
    + intros [l [Hl [Hb [= ->]]]]. exists l. split; [assumption|].
      now rewrite Hb, !Z.eqb_refl.
  - split; [discriminate | intros [l [_ [_ H]]]; discriminate].
Qed.

(** The rows of [copy_q]: the available copies of the book on a location
    of the branch. *)
Lemma available_copies_spec (st : Store) (book_id branch_id : Z) (c : Copy) :
  In c (available_copies st book_id branch_id)
  <-> In c (copies st) /\ copy_book_id c = book_id
      /\ copy_status c = "available"
      /\ exists l, In l (locations st) /\ location_branch_id l = branch_id
                   /\ copy_location_id c = Some (location_id l).
Proof.
  unfold available_copies. rewrite filter_In, !andb_true_iff, at_branch_exists,
    Z.eqb_eq, String.eqb_eq.
  tauto.
Qed.

Lemma is_user_save_copy_status (id c : Z) (s : string) (st : Store) :
  is_user id (save_copy_status c s st) = is_user id st.
Proof. reflexivity. Qed.

Lemma is_user_after_sweep (id : Z) (now : datetime) (st : Store) :
  is_user id (fst (expire_old_reservations now st)) = is_user id st.
Proof.
  unfold expire_old_reservations.
  destruct (map reservation_id (filter (stale now) (reservations st)));
    reflexivity.
Qed.

(** A request in range whose insert the database accepts. *)
Lemma create_reservation_accepted (today : date) (now : datetime) (reader : User)
      (book_id branch_id : Z) (pickup : date) (st : Store) (c : Copy) :
  today <= pickup <= today + 3 ->
  let st1 := fst (expire_old_reservations now st) in
  first (order_by_id_asc (available_copies st1 book_id branch_id)) = Some c ->
  existsb (reservation_holds (copy_id c)) (reservations st1) = false ->
  is_user (user_id reader) st = true ->
  create_reservation today now reader book_id branch_id pickup st
  = (with_reservations
       (with_seqs (save_copy_status (copy_id c) "reserved" st1)
                  (loans_id_seq st1) (reservations_id_seq st1 + 1))
       (reservations st1
        ++ [mk_Reservation (reservations_id_seq st1) "active" pickup
                           (mk_datetime pickup (mk_time 23 59 59 0)) false
                           (user_id reader) (copy_id c) branch_id]),
     Ret (true, MsgReservationCreated pickup, Some (reservations_id_seq st1))).
Proof.
  intros Hrange st1 Hfirst Hfree Hu.
  unfold create_reservation.
  replace ((pickup <? today) || (pickup >? today + 3)) with false
    by (symmetry; apply orb_false_intro; [apply Z.ltb_ge | rewrite Z.gtb_ltb;
        apply Z.ltb_ge]; lia).
  fold st1. apply atomic_ret. rewrite Hfirst.
  rewrite insert_reservation_active by reflexivity.
  cbn [reservation_copy_id reservation_reader_id reservations save_copy_status
       with_copies].
  rewrite Hfree.
  subst st1. rewrite is_user_save_copy_status, is_user_after_sweep, Hu.
  reflexivity.
Qed.

(** A request in range whose insert the database refuses: the exception
    leaves [create_reservation], the copy is [available] as before, the
    sequence has moved. *)
Lemma create_reservation_refused (today : date) (now : datetime) (reader : User)
      (book_id branch_id : Z) (pickup : date) (st : Store) (c : Copy) :
  today <= pickup <= today + 3 ->
  let st1 := fst (expire_old_reservations now st) in
  first (order_by_id_asc (available_copies st1 book_id branch_id)) = Some c ->
  existsb (reservation_holds (copy_id c)) (reservations st1) = true
  \/ is_user (user_id reader) st = false ->
  create_reservation today now reader book_id branch_id pickup st
  = (with_seqs st1 (loans_id_seq st1) (reservations_id_seq st1 + 1),
     Raise IntegrityError).
Proof.
  intros Hrange st1 Hfirst Hno.
  unfold create_reservation.
  replace ((pickup <? today) || (pickup >? today + 3)) with false
    by (symmetry; apply orb_false_intro; [apply Z.ltb_ge | rewrite Z.gtb_ltb;
        apply Z.ltb_ge]; lia).
  fold st1. unfold atomic. rewrite Hfirst.
  rewrite insert_reservation_active by reflexivity.
  cbn [reservation_copy_id reservation_reader_id reservations save_copy_status
       with_copies].
  subst st1. rewrite is_user_save_copy_status, is_user_after_sweep.
  destruct (existsb _ (reservations _)); [reflexivity|].
  destruct Hno as [Hno | Hno]; [discriminate|]. now rewrite Hno.
Qed.

Lemma create_reservation_succeeds (today : date) (now : datetime) (reader : User)
      (book_id branch_id : Z) (pickup : date) (st : Store) :
  today <= pickup <= today + 3 ->
  consistent st ->
  is_user (user_id reader) st = true ->
  let st1 := fst (expire_old_reservations now st) in
  available_copies st1 book_id branch_id <> [] ->
  exists c,
    In c (available_copies st1 book_id branch_id)
    /\ (forall c', In c' (available_copies st1 book_id branch_id) ->
                   copy_id c <= copy_id c')
    /\ create_reservation today now reader book_id branch_id pickup st
       = (with_reservations
            (with_seqs (save_copy_status (copy_id c) "reserved" st1)
                       (loans_id_seq st1) (reservations_id_seq st1 + 1))
            (reservations st1
             ++ [mk_Reservation (reservations_id_seq st1) "active" pickup
                                (mk_datetime pickup (mk_time 23 59 59 0)) false
                                (user_id reader) (copy_id c) branch_id]),
          Ret (true, MsgReservationCreated pickup,
               Some (reservations_id_seq st1))).
Proof.
  intros Hrange Hst Hu st1 Hsome.
  destruct (first_order_by_id_asc_some _ Hsome) as [c Hfirst].
  destruct (first_order_by_id_asc _ c Hfirst) as [Hin Hmin].
  exists c. split; [exact Hin|]. split; [exact Hmin|].
  destruct (available_copies_in _ _ _ _ Hin) as [Hrow [Hav _]].
  destruct (consistent_expire now st Hst) as [_ Hfree]. fold st1 in Hfree.
  apply create_reservation_accepted; try assumption.
  exact (free_copy_no_reservation st1 (copy_id c) (Hfree c Hrow Hav)).
Qed.

(** C4 (amended). [create_reservation] refuses a pickup date before today
    or after today + 3 and then leaves the store as it is.  For a date in
    that range it sweeps first, and judges availability in the store the
    sweep leaves: a copy is on offer when it is a copy of the book, is
    [available], and lies on a location of the branch; every copy that was
    on offer before the sweep still is.  If none is on offer it fails with
    the no-free-copies message.  Otherwise it takes the copy on offer with
    the least id and, when the database accepts the new row (the reader is
    a user, and the copy has no active reservation, as on every consistent
    store), sets that copy to [reserved] and appends a reservation that is
    [active], not yet extended, and expires at 23:59:59 of the pickup
    date.  When no reservation is past its expiry the sweep changes
    nothing. *)
Theorem create_reservation_spec (today : date) (now : datetime) (reader : User)
        (book_id branch_id : Z) (pickup : date) (st : Store) :
  let st1 := fst (expire_old_reservations now st) in
  let on_offer := fun (s : Store) (c : Copy) =>
    In c (copies s) /\ copy_book_id c = book_id /\ copy_status c = "available"
    /\ exists l, In l (locations s) /\ location_branch_id l = branch_id
                 /\ copy_location_id c = Some (location_id l) in
  ((pickup < today \/ today + 3 < pickup) ->
   create_reservation today now reader book_id branch_id pickup st
   = (st, Ret (false, MsgPickupDateRange, None)))
  /\ (forall c, on_offer st c -> on_offer st1 c)
  /\ (today <= pickup <= today + 3 ->
      (forall c, ~ on_offer st1 c) ->
      create_reservation today now reader book_id branch_id pickup st
      = (st1, Ret (false, MsgNoFreeCopies, None)))
  /\ (today <= pickup <= today + 3 ->
      forall c0, on_offer st1 c0 ->
      exists c,
        on_offer st1 c
        /\ (forall c', on_offer st1 c' -> copy_id c <= copy_id c')
        /\ ((exists u, In u (users st) /\ user_id u = user_id reader) ->
            (forall r, In r (reservations st1) ->
                       reservation_copy_id r = copy_id c ->
                       reservation_status r <> "active") ->
            exists st' rid,
              create_reservation today now reader book_id branch_id pickup st
              = (st', Ret (true, MsgReservationCreated pickup, Some rid))
              /\ rid = reservations_id_seq st
              /\ copies st'
                 = map (fun x => if copy_id x =? copy_id c
                                 then mk_Copy (copy_id x) (copy_inventory_code x)
                                              "reserved" (copy_book_id x)
                                              (copy_location_id x)
                                 else x) (copies st1)
              /\ (forall row, In row (copies st') -> copy_id row = copy_id c ->
                              copy_status row = "reserved")
              /\ reservations st'
                 = reservations st1
                   ++ [mk_Reservation rid "active" pickup
                                      (mk_datetime pickup (mk_time 23 59 59 0))
                                      false (user_id reader) (copy_id c)
                                      branch_id]
              /\ loans st' = loans st1)
        /\ (consistent st ->
            forall r, In r (reservations st1) ->
                      reservation_copy_id r = copy_id c ->
                      reservation_status r <> "active"))
  /\ ((forall r, In r (reservations st) ->
                 (reservation_status r =? "active")%string
                 && dt_ltb (reservation_expires_at r) now = false) ->
      st1 = st).
Proof.
  cbv zeta.
  set (st1 := fst (expire_old_reservations now st)).
  assert (Hfalse : today <= pickup <= today + 3 ->
                   (pickup <? today) || (pickup >? today + 3) = false).
  { intros Hrange. apply orb_false_intro; [apply Z.ltb_ge | rewrite Z.gtb_ltb;
      apply Z.ltb_ge]; lia. }
  split; [|split; [|split; [|split]]].
  - intros Hout. unfold create_reservation.
    replace ((pickup <? today) || (pickup >? today + 3)) with true; [reflexivity|].
    symmetry. apply orb_true_iff. rewrite Z.gtb_ltb.
    destruct Hout; [left | right]; now apply Z.ltb_lt.
  - intros c Hc. apply available_copies_spec. apply available_copies_spec in Hc.
    now apply sweep_keeps_available.
  - intros Hrange Hnone. unfold create_reservation.
    rewrite (Hfalse Hrange). fold st1. apply atomic_ret.
    replace (available_copies st1 book_id branch_id) with (@nil Copy);
      [reflexivity|].
    destruct (available_copies st1 book_id branch_id) as [|c cs] eqn:E;
      [reflexivity|].
    exfalso. apply (Hnone c). apply available_copies_spec. rewrite E. now left.
  - intros Hrange c0 Hc0.
    assert (Hsome : available_copies st1 book_id branch_id <> []).
    { apply available_copies_spec in Hc0. intros E. now rewrite E in Hc0. }
    destruct (first_order_by_id_asc_some _ Hsome) as [c Hfirst].
    destruct (first_order_by_id_asc _ c Hfirst) as [Hin Hmin].
    exists c.
    split; [now apply available_copies_spec|].
    split; [intros c' Hc'; apply Hmin; now apply available_copies_spec|].
    split.
    + intros Hu Hfree. apply is_user_spec in Hu.
      assert (Hno : existsb (reservation_holds (copy_id c)) (reservations st1)
                    = false).
      { destruct (existsb _ (reservations st1)) eqn:E; [|reflexivity].
        exfalso. apply existsb_exists in E. destruct E as [r [Hr Hh]].
        unfold reservation_holds in Hh. apply andb_true_iff in Hh.
        destruct Hh as [H1 H2]. apply Z.eqb_eq in H1. apply String.eqb_eq in H2.
        now apply (Hfree r Hr H1). }
      eexists. eexists.
      split; [exact (create_reservation_accepted today now reader book_id
                       branch_id pickup st c Hrange Hfirst Hno Hu)|].
      split; [apply sequences_after_sweep|].
      split; [reflexivity|].
      split.
      { intros row Hrow Hid. cbn in Hrow. apply update_where_in in Hrow.
        destruct Hrow as [x [_ ->]].
        destruct (copy_id x =? copy_id c) eqn:E; [reflexivity|].
        apply Z.eqb_neq in E. contradiction. }
      split; reflexivity.
    + intros Hst r Hr Hcopy Hact.
      destruct (available_copies_in _ _ _ _ Hin) as [Hrow [Hav _]].
      destruct (consistent_expire now st Hst) as [_ Hfree]. fold st1 in Hfree.
      assert (Hno := free_copy_no_reservation st1 (copy_id c) (Hfree c Hrow Hav)).
      assert (Hyes : existsb (reservation_holds (copy_id c)) (reservations st1)
                     = true).
      { apply existsb_exists. exists r. split; [assumption|].
        unfold reservation_holds. now rewrite Hcopy, Z.eqb_refl, Hact. }
      congruence.
  - intros Hns. unfold st1. now rewrite expire_nothing_stale.
Qed.

(** C4 as stated fails.  On the shelf whose only copy is held by a
    reservation that has run out, no copy is available before the call, yet
    the call sweeps, releases the copy and reserves it again.  And an
    available copy is not enough: for a reader whose row is gone, and for a
    copy that the catalogue dialog has set to [available] while an active
    reservation holds it, the insert of the reservation breaks a
    constraint, the exception leaves [create_reservation], and neither is
    the copy reserved nor a reservation created. *)
Lemma create_reservation_judges_after_sweep :
  let run := create_reservation 101 (sample.at_noon 101) sample.reader 1 1 102
                                scenes.run_out_shelf in
  let lost := create_reservation 100 (sample.at_noon 100) scenes.gone 1 1 101
                                 sample.shelf in
  let held := create_reservation 100 (sample.at_noon 100) sample.reader 1 1 101
                                 scenes.stranded_shelf in
  (100 <= 101 <= 100 + 3 /\ 101 <= 102 <= 101 + 3)
  /\ (available_copies scenes.run_out_shelf 1 1 = []
      /\ map copy_status (copies scenes.run_out_shelf) = ["reserved"]
      /\ snd run = Ret (true, MsgReservationCreated 102, Some 2)
      /\ snd run <> Ret (false, MsgNoFreeCopies, None)
      /\ map reservation_status (reservations (fst run)) = ["expired"; "active"]
      /\ map copy_status (copies (fst run)) = ["reserved"])
  /\ (map copy_id (available_copies sample.shelf 1 1) = [1; 2]
      /\ snd lost = Raise IntegrityError
      /\ copies (fst lost) = copies sample.shelf
      /\ reservations (fst lost) = [])
  /\ (snd (update_copy 1 "INV-0001" "available" (Some 1) sample.reserved_shelf)
      = Ret (true, MsgCopyUpdated)
      /\ map copy_id (available_copies scenes.stranded_shelf 1 1) = [1; 2]
      /\ map reservation_status (reservations scenes.stranded_shelf) = ["active"]
      /\ snd held = Raise IntegrityError
      /\ map copy_status (copies (fst held)) = ["available"; "available"; "lost"]
      /\ reservations (fst held) = reservations scenes.stranded_shelf).
Proof.
  cbv zeta. split; [lia|].
  repeat split; try reflexivity. discriminate.
Qed.

(** * Fulfilling a reservation *)

Lemma add_days_spec (d : date) (n : Z) :
  (Z.abs n <= 999999999 /\ 1 <= d + n <= MAXORDINAL
   /\ add_days d n = Some (d + n))
  \/ ((999999999 < Z.abs n \/ d + n < 1 \/ MAXORDINAL < d + n)
      /\ add_days d n = None).
Proof.
  unfold add_days.
  destruct (Z.leb_spec (Z.abs n) 999999999);
    destruct (Z.leb_spec 1 (d + n));
    destruct (Z.leb_spec (d + n) MAXORDINAL); cbn [andb];
    first [left; repeat split; (assumption || reflexivity)
          | right; split; [lia | reflexivity]].
Qed.

Lemma get_user_some (id : Z) (st : Store) :
  is_user id st = true ->
  exists u, get_or_none (fun u => user_id u =? id) (users st) = Some u
            /\ user_id u = id.
Proof.
  intros H. apply is_user_spec in H. destruct H as [u [Hu E]].
  destruct (get_or_none_exists (fun u => user_id u =? id) (users st) u Hu)
    as [u' Hget]; [now apply Z.eqb_eq|].
  exists u'. split; [assumption|].
  apply get_or_none_some in Hget. now apply Z.eqb_eq.
Qed.

Lemma get_user_none (id : Z) (st : Store) :
  is_user id st = false ->
  get_or_none (fun u => user_id u =? id) (users st) = None.
Proof.
  intros H.
  destruct (get_or_none (fun u => user_id u =? id) (users st)) as [u|] eqn:E;
    [|reflexivity].
  apply get_or_none_some in E. destruct E as [Hu E]. apply Z.eqb_eq in E.
  assert (Hyes : is_user id st = true) by (apply is_user_spec; now exists u).
  congruence.
Qed.

(** The run of [fulfill_reservation] after its sweep: a refusal when a check
    fails; otherwise an [OverflowError] when the due date is no date, a
    [DoesNotExist] when the reader of the reservation is no row of [users],
    an [IntegrityError] when the librarian is none, and the three writes
    when all is well. *)
Lemma fulfill_reservation_run (today : date) (now : datetime) (librarian : User)
      (rid loan_days : Z) (st : Store) :
  let st1 := fst (expire_old_reservations now st) in
  (exists m, fulfill_reservation today now librarian rid loan_days st
             = (st1, Ret (false, m))
             /\ forall res copy, ~ fulfillable st1 rid res copy)
  \/ (exists res copy,
        fulfillable st1 rid res copy
        /\ fulfill_reservation today now librarian rid loan_days st
           = match add_days today loan_days with
             | None => (st1, Raise OverflowError)
             | Some due =>
                 if negb (is_user (reservation_reader_id res) st1)
                 then (st1, Raise DoesNotExist)
                 else if negb (is_user (user_id librarian) st1)
                 then (with_seqs st1 (loans_id_seq st1 + 1)
                                 (reservations_id_seq st1),
                       Raise IntegrityError)
                 else
                   (save_copy_status (copy_id copy) "loaned"
                      (with_reservations
                         (with_loans
                            (with_seqs st1 (loans_id_seq st1 + 1)
                                       (reservations_id_seq st1))
                            (loans st1
                             ++ [mk_Loan (loans_id_seq st1) "open" today
                                         due None (copy_id copy)
                                         (reservation_reader_id res)
                                         (user_id librarian)]))
                         (update_where
                            (fun r => reservation_id r =? reservation_id res)
                            (set_reservation_status "fulfilled")
                            (reservations st1))),
                    Ret (true, MsgFulfilled due))
             end).
Proof.
  intros st1. unfold fulfill_reservation. fold st1.
  destruct (get_or_none (fun r => reservation_id r =? rid)
              (filter (fun r => existsb (fun c => copy_id c =? reservation_copy_id r)
                                        (copies st1))
                      (reservations st1))) as [res|] eqn:Hres.
  2:{ left. eexists. split.
      - apply atomic_ret. rewrite Hres. reflexivity.
      - intros res copy [H _]. congruence. }
  destruct (negb (reservation_status res =? "active")%string) eqn:Hact.
  { left. eexists. split.
    - apply atomic_ret. rewrite Hres, Hact. reflexivity.
    - intros res' copy [H [Hs _]]. rewrite Hres in H. injection H as <-.
      rewrite Hs in Hact. discriminate. }
  destruct (get_or_none (fun c => copy_id c =? reservation_copy_id res)
                        (copies st1)) as [copy|] eqn:Hcopy.
  2:{ left. eexists. split.
      - apply atomic_ret. rewrite Hres, Hact, Hcopy. reflexivity.
      - intros res' copy [H [_ [Hc _]]]. rewrite Hres in H. injection H as <-.
        congruence. }
  destruct (negb (copy_status copy =? "reserved")%string) eqn:Hreserved.
  { left. eexists. split.
    - apply atomic_ret. rewrite Hres, Hact, Hcopy, Hreserved. reflexivity.
    - intros res' copy' [H [_ [Hc [Hs _]]]]. rewrite Hres in H. injection H as <-.
      rewrite Hcopy in Hc. injection Hc as <-.
      rewrite Hs in Hreserved. discriminate. }
  destruct (existsb (fun l => (loan_copy_id l =? copy_id copy)
                              && status_in (loan_status l) ACTIVE_LOAN_STATUSES)
                    (loans st1)) eqn:Hopen.
  { left. eexists. split.
    - apply atomic_ret. rewrite Hres, Hact, Hcopy, Hreserved, Hopen. reflexivity.
    - intros res' copy' [H [_ [Hc [_ Hl]]]]. rewrite Hres in H. injection H as <-.
      rewrite Hcopy in Hc. injection Hc as <-.
      unfold ACTIVE_LOAN_STATUSES in Hopen. congruence. }
  right. exists res, copy.
  assert (Hact' := Hact). apply negb_false_iff, String.eqb_eq in Hact'.
  assert (Hreserved' := Hreserved).
  apply negb_false_iff, String.eqb_eq in Hreserved'.
  split; [repeat split; auto|].
  destruct (add_days today loan_days) as [due|] eqn:Hdue.
  2:{ erewrite atomic_raise
        by (rewrite Hres, Hact, Hcopy, Hreserved, Hopen; reflexivity).
      now rewrite with_seqs_same. }
  destruct (is_user (reservation_reader_id res) st1) eqn:Hreader; cbn [negb].
  2:{ erewrite atomic_raise
        by (rewrite Hres, Hact, Hcopy, Hreserved, Hopen,
              (get_user_none _ _ Hreader); reflexivity).
      now rewrite with_seqs_same. }
  destruct (get_user_some _ _ Hreader) as [reader [Hget Hrid]].
  assert (Hins := insert_loan_open
                    (mk_Loan 0 "open" today due None (copy_id copy)
                             (user_id reader) (user_id librarian)) st1
                    eq_refl).
  cbn [loan_copy_id loan_reader_id loan_librarian_id] in Hins.
  change (existsb (loan_holds (copy_id copy)) (loans st1))
    with (existsb (fun l => (loan_copy_id l =? copy_id copy)
                            && status_in (loan_status l) ACTIVE_LOAN_STATUSES)
                  (loans st1)) in Hins.
  rewrite <- Hrid in Hreader.
  rewrite Hopen, Hreader in Hins. cbn [andb] in Hins.
  destruct (is_user (user_id librarian) st1) eqn:Hlib; cbn [negb] in Hins |- *.
  - apply atomic_ret. rewrite Hres, Hact, Hcopy, Hreserved, Hopen, Hget, Hins.
    cbn [set_loan_id]. rewrite Hrid. reflexivity.
  - erewrite atomic_raise
      by (rewrite Hres, Hact, Hcopy, Hreserved, Hopen, Hget, Hins; reflexivity).
    reflexivity.
Qed.

(** C5, amended.  [fulfill_reservation] sweeps first.  In the store the
    sweep leaves it fails, changing nothing more, unless the reservation is
    active, its copy is [reserved] and the copy has no open or overdue loan.
    Otherwise, when [loan_days] later is a date and the reader of the
    reservation and the librarian are users, it succeeds and, in one
    transaction, appends a loan that is [open], starts today and is due
    [loan_days] later, sets the reservation to [fulfilled] and the copy to
    [loaned]; when the due date is no date it raises [OverflowError], when
    the reader is no user [DoesNotExist], when the librarian is none
    [IntegrityError], and nothing but the sweep (and, for the last, the
    loan sequence) has changed. *)
Theorem fulfill_reservation_spec (today : date) (now : datetime) (librarian : User)
        (rid loan_days : Z) (st : Store) :
  let st1 := fst (expire_old_reservations now st) in
  let known := fun id => exists u, In u (users st) /\ user_id u = id in
  let is_date := Z.abs loan_days <= 999999999
                 /\ 1 <= today + loan_days <= 3652059 in
  ((forall res copy, ~ fulfillable st1 rid res copy) ->
   exists m, fulfill_reservation today now librarian rid loan_days st
             = (st1, Ret (false, m)))
  /\ (forall st' m,
        fulfill_reservation today now librarian rid loan_days st
        = (st', Ret (false, m)) -> st' = st1)
  /\ (forall res copy,
        fulfillable st1 rid res copy ->
        (is_date -> known (reservation_reader_id res) ->
         known (user_id librarian) ->
         exists st',
           fulfill_reservation today now librarian rid loan_days st
           = (st', Ret (true, MsgFulfilled (today + loan_days)))
           /\ loans st'
              = loans st1 ++ [mk_Loan (loans_id_seq st1) "open" today
                                      (today + loan_days) None (copy_id copy)
                                      (reservation_reader_id res)
                                      (user_id librarian)]
           /\ reservations st'
              = map (fun r => if reservation_id r =? reservation_id res
                              then set_reservation_status "fulfilled" r else r)
                    (reservations st1)
           /\ (forall r, In r (reservations st') ->
                         reservation_id r = reservation_id res ->
                         reservation_status r = "fulfilled")
           /\ copies st'
              = map (fun c => if copy_id c =? copy_id copy
                              then set_copy_status "loaned" c else c)
                    (copies st1)
           /\ (forall c, In c (copies st') -> copy_id c = copy_id copy ->
                         copy_status c = "loaned"))
        /\ (~ is_date ->
            fulfill_reservation today now librarian rid loan_days st
            = (st1, Raise OverflowError))
        /\ (is_date -> ~ known (reservation_reader_id res) ->
            fulfill_reservation today now librarian rid loan_days st
            = (st1, Raise DoesNotExist))
        /\ (is_date -> known (reservation_reader_id res) ->
            ~ known (user_id librarian) ->
            fulfill_reservation today now librarian rid loan_days st
            = (with_seqs st1 (loans_id_seq st1 + 1) (reservations_id_seq st1),
               Raise IntegrityError)))
  /\ (forall st' m,
        fulfill_reservation today now librarian rid loan_days st
        = (st', Ret (true, m)) ->
        exists res copy, fulfillable st1 rid res copy).
Proof.
  cbv zeta.
  assert (Hknown : forall id,
             is_user id (fst (expire_old_reservations now st)) = true
             <-> exists u, In u (users st) /\ user_id u = id).
  { intros id. rewrite is_user_after_sweep. apply is_user_spec. }
  destruct (fulfill_reservation_run today now librarian rid loan_days st)
    as [[m0 [Hrun Hnot]] | [res0 [copy0 [Hok Hrun]]]].
  - split; [|split; [|split]].
    + intros _. now exists m0.
    + intros st' m H. rewrite Hrun in H. now injection H as <- _.
    + intros res copy H. now destruct (Hnot res copy).
    + intros st' m H. rewrite Hrun in H. discriminate.
  - split; [|split; [|split]].
    + intros Hnot. now destruct (Hnot res0 copy0).
    + intros st' m H. rewrite Hrun in H.
      destruct (add_days today loan_days); [|discriminate].
      destruct (negb (is_user (reservation_reader_id res0) _)); [discriminate|].
      destruct (negb (is_user (user_id librarian) _)); discriminate.
    + intros res copy H.
      assert (res = res0) as ->.
      { destruct H as [H _], Hok as [H0 _]. congruence. }
      assert (copy = copy0) as ->.
      { destruct H as [_ [_ [H _]]], Hok as [_ [_ [H0 _]]]. congruence. }
      change 3652059 with MAXORDINAL.
      destruct (add_days_spec today loan_days) as [[Ha [Hb Hdue]] | [Hbad Hdue]];
        rewrite Hdue in Hrun.
      * split; [|split; [|split]].
        -- intros _ Hr Hl. apply Hknown in Hr, Hl. rewrite Hr, Hl in Hrun.
           eexists. split; [exact Hrun|].
           split; [reflexivity|]. split; [reflexivity|].
           split.
           { intros r Hr' Hid. cbn in Hr'. apply update_where_in in Hr'.
             destruct Hr' as [x [_ ->]].
             destruct (reservation_id x =? reservation_id res0) eqn:E;
               [reflexivity|].
             apply Z.eqb_neq in E. contradiction. }
           split; [reflexivity|].
           intros c Hc Hid. cbn in Hc. apply update_where_in in Hc.
           destruct Hc as [x [_ ->]].
           destruct (copy_id x =? copy_id copy0) eqn:E; [reflexivity|].
           apply Z.eqb_neq in E. contradiction.
        -- intros Hno. destruct Hno. now split.
        -- intros _ Hno.
           destruct (is_user (reservation_reader_id res0) _) eqn:E;
             [|exact Hrun].
           apply Hknown in E. contradiction.
        -- intros _ Hr Hno. apply Hknown in Hr. rewrite Hr in Hrun.
           destruct (is_user (user_id librarian) _) eqn:E; [|exact Hrun].
           apply Hknown in E. contradiction.
      * split; [|split; [|split]].
        -- intros [Ha Hb]. lia.
        -- intros _. exact Hrun.
        -- intros [Ha Hb]. lia.
        -- intros [Ha Hb]. lia.
    + intros st' m _. now exists res0, copy0.
Qed.

(** C5 as stated fails: asked to fulfil the cancelled reservation 1,
    [fulfill_reservation] fails, yet its sweep has expired reservation 2 and
    released copy 2.  Nor is every call a failure or a success: for the
    active reservation 1 of the reserved shelf, a loan of four million days
    ends in an [OverflowError] and a librarian whose row is gone in an
    [IntegrityError]; no loan is made and the reservation stays active. *)
Lemma fulfill_reservation_failure_changes_store :
  let st := sample.stale_shelf in
  let run := fulfill_reservation 105 (sample.at_noon 105) sample.librarian 1 14 st in
  let far := fulfill_reservation 101 (sample.at_noon 101) sample.librarian 1 4000000
                                 sample.reserved_shelf in
  let gone := fulfill_reservation 101 (sample.at_noon 101) scenes.gone 1 14
                                  sample.reserved_shelf in
  (get_or_none (fun r => reservation_id r =? 1) (reservations st)
   = Some (mk_Reservation 1 "cancelled" 99 (mk_datetime 99 (mk_time 23 59 59 0))
                          false 3 1 1)
   /\ snd run = Ret (false, MsgReservationNotActive)
   /\ fst run <> st
   /\ map reservation_status (reservations st) = ["cancelled"; "active"]
   /\ map reservation_status (reservations (fst run)) = ["cancelled"; "expired"]
   /\ map copy_status (copies st) = ["available"; "reserved"]
   /\ map copy_status (copies (fst run)) = ["available"; "available"])
  /\ (map reservation_status (reservations sample.reserved_shelf) = ["active"]
      /\ map copy_status (copies sample.reserved_shelf)
         = ["reserved"; "available"; "lost"]
      /\ loans sample.reserved_shelf = []
      /\ snd far = Raise OverflowError
      /\ loans (fst far) = []
      /\ map reservation_status (reservations (fst far)) = ["active"]
      /\ snd gone = Raise IntegrityError
      /\ loans (fst gone) = []
      /\ map reservation_status (reservations (fst gone)) = ["active"]).
Proof.
  cbv zeta. repeat split; try reflexivity.
  intros H. apply (f_equal copies) in H. vm_compute in H. discriminate.
Qed.

(** * Extending a reservation *)

(** The reservations the sweep leaves, in one formula. *)
(** The run of [extend_reservation] after its sweep. *)
Lemma extend_reservation_run (now : datetime) (reader : User) (rid : Z) (st : Store) :
  let st1 := fst (expire_old_reservations now st) in
  match get_or_none (fun r => reservation_id r =? rid) (reservations st1) with
  | None =>
      extend_reservation now reader rid st = (st1, Ret (false, MsgReservationNotFound))
  | Some res =>
      if negb (reservation_reader_id res =? user_id reader)
      then extend_reservation now reader rid st
           = (st1, Ret (false, MsgNotYourReservation))
      else if negb (reservation_status res =? "active")%string
      then extend_reservation now reader rid st
           = (st1, Ret (false, MsgReservationNoLongerActive))
      else if reservation_extended_once res
      then extend_reservation now reader rid st
           = (st1, Ret (false, MsgExtendOnlyOnce))
      else extend_reservation now reader rid st
           = (with_reservations st1
                (update_where (fun r => reservation_id r =? reservation_id res)
                              (extend_row (reservation_pickup_date res + 1))
                              (reservations st1)),
              Ret (true, MsgExtended (reservation_pickup_date res + 1)))
  end.
Proof.
  intros st1. unfold extend_reservation. fold st1.
  destruct (get_or_none _ (reservations st1)) as [res|] eqn:Hres.
  - destruct (negb (reservation_reader_id res =? user_id reader)) eqn:Hown;
      [apply atomic_ret; now rewrite Hres, Hown|].
    destruct (negb (reservation_status res =? "active")%string) eqn:Hact;
      [apply atomic_ret; now rewrite Hres, Hown, Hact|].
    destruct (reservation_extended_once res) eqn:Hext;
      apply atomic_ret; now rewrite Hres, Hown, Hact, Hext.
  - apply atomic_ret. now rewrite Hres.
Qed.














Lemma map_key_update_where {A} (key : A -> Z) (p : A -> bool) (f : A -> A)
      (rows : list A) :
  (forall r, key (f r) = key r) ->
  map key (update_where p f rows) = map key rows.
Proof.
  intros Hk. unfold update_where. rewrite map_map. apply map_ext.
  intros r. destruct (p r); [apply Hk | reflexivity].
Qed.






Lemma sweep_leaves_none_stale (now : datetime) (st : Store) (r : Reservation) :
  In r (reservations (fst (expire_old_reservations now st))) -> stale now r = false.
Proof.
  rewrite expire_reservations_eq. apply swept_not_stale.
Qed.




(** * Rights *)

Lemma dict_get_set_same (k : string) (v : pyval) (d : dict) :
  dict_get k (dict_set k v d) = Some v.
Proof.
  induction d as [|[k' v'] d IH]; simpl.
  - now rewrite String.eqb_refl.
  - destruct (k' =? k)%string eqn:E; simpl; rewrite E; [reflexivity | exact IH].
Qed.

Lemma dict_get_set_other (k k' : string) (v : pyval) (d : dict) :
  k' <> k -> dict_get k (dict_set k' v d) = dict_get k d.
Proof.
  intros Hne. induction d as [|[k2 v2] d IH]; simpl.
  - apply String.eqb_neq in Hne. now rewrite Hne.
  - destruct (k2 =? k')%string eqn:E; simpl.
    + apply String.eqb_eq in E. subst k2.
      apply String.eqb_neq in Hne. now rewrite Hne.
    + destruct (k2 =? k)%string; [reflexivity | exact IH].
Qed.






Section MergeFacts.

Variable json_loads : string -> option pyval.



End MergeFacts.



(** * Permission checks *)

(** C2, amended.  The handler that calls a mutating operation checks the
    permission key of the session first ([manage_loans] for issue, return
    and overdue update, [create_reservation] for creation,
    [manage_own_reservations] for cancel and extend, [manage_reservations]
    for fulfilment); without the key it returns at once: the service is not
    called, the store is untouched, and nothing is reported. *)
Theorem handlers_guarded (s : Session) :
  (can s "manage_loans" = false ->
   (forall today inv login st,
      _ui_issue_loan s today inv login st = (st, Nothing))
   /\ (forall today selection st,
         _ui_return_loan s today selection st = (st, Nothing))
   /\ (forall today st, _ui_update_overdue s today st = (st, Nothing)))
  /\ (can s "create_reservation" = false ->
      forall today now now1 now2 book form st,
        _ui_reserve_book s today now now1 now2 book form st = (st, Nothing))
  /\ (can s "manage_own_reservations" = false ->
      (forall now now1 now2 selection st,
         _ui_cancel_reservation s now now1 now2 selection st = (st, Nothing))
      /\ (forall now now1 now2 selection st,
            _ui_extend_reservation s now now1 now2 selection st = (st, Nothing)))
  /\ (can s "manage_reservations" = false ->
      forall today now now1 now2 selection st,
        _ui_fulfill_reservation s today now now1 now2 selection st = (st, Nothing)).
Proof.
  repeat split; intros;
    unfold _ui_issue_loan, _ui_return_loan, _ui_update_overdue, _ui_reserve_book,
           _ui_cancel_reservation, _ui_extend_reservation, _ui_fulfill_reservation;
    match goal with H : can s _ = false |- _ => rewrite H end; reflexivity.
Qed.

(** C2 as stated fails: a reader's session has no [manage_loans]; the
    guarded handler then ends without any failure being reported, and the
    service itself, which takes no session, lends the copy when called for
    that user. *)
Lemma permission_denied_not_reported :
  let s := sample.reader_session in
  let handled := _ui_issue_loan s 100 "INV-0001" "kap213" sample.shelf in
  let served := issue_loan 100 "INV-0001" "kap213" (session_user s) sample.shelf in
  can s "manage_loans" = false
  /\ handled = (sample.shelf, Nothing)
  /\ (forall m, snd handled <> Error m)
  /\ snd served = Ret (true, MsgLoanIssued 1 114)
  /\ map copy_status (copies sample.shelf) = ["available"; "available"; "lost"]
  /\ map copy_status (copies (fst served)) = ["loaned"; "available"; "lost"].
Proof.
  cbv zeta. split; [reflexivity|]. split; [reflexivity|].
  split; [intros m; discriminate|]. repeat split.
Qed.

(** * The statements at work on sample data *)

Lemma shelf_consistent : consistent sample.shelf.
Proof. apply fresh_store_consistent; reflexivity. Defined.

Lemma shelf_keys : NoDup (map copy_id (copies sample.shelf)).
Proof.
  simpl. repeat constructor; simpl; intros H;
    repeat (destruct H as [H | H]; [discriminate|]); exact H.
Defined.

(** After a reservation of copy 1 and a loan of copy 2, copy 1 has one
    holder. *)
Lemma at_most_one_holder_witness :
  consistent sample.shelf
  /\ reachable sample.shelf sample.busy_shelf
  /\ (let open_or_overdue :=
          filter (fun l => (loan_copy_id l =? 1)
                           && status_in (loan_status l) ["open"; "overdue"])
                 (loans sample.busy_shelf) in
        let active :=
          filter (fun r => (reservation_copy_id r =? 1)
                           && (reservation_status r =? "active")%string)
                 (reservations sample.busy_shelf) in
        (List.length open_or_overdue + List.length active <= 1)%nat).
Proof.
  assert (Hreach : reachable sample.shelf sample.busy_shelf).
  { unfold sample.busy_shelf, sample.reserved_shelf.
    eapply reachable_step; [eapply reachable_step; [apply reachable_start|]|].
    - apply step_create_reservation.
    - apply step_issue_loan. }
  split; [exact shelf_consistent|]. split; [exact Hreach|].
  exact (at_most_one_holder sample.shelf sample.busy_shelf 1
                            shelf_consistent Hreach).
Defined.

Lemma handlers_guarded_witness :
  can sample.reader_session "manage_loans" = false
  /\ _ui_issue_loan sample.reader_session 100 "INV-0001" "kap213" sample.shelf
     = (sample.shelf, Nothing).
Proof.
  split; [reflexivity|].
  destruct (handlers_guarded sample.reader_session) as [Hloans _].
  destruct (Hloans eq_refl) as [Hissue _].
  apply Hissue.
Defined.

(** The sweep at noon of day 105: reservations 1 and 2 have run out and
    are expired, reservation 3 runs until day 110 and reservation 4 was
    cancelled; copy 1 is released, copy 2, marked damaged meanwhile, stays
    so, and copies 3 and 4 stay reserved. *)
Lemma expire_old_reservations_spec_witness :
  let st := scenes.lapsed_shelf in
  let run := expire_old_reservations (sample.at_noon 105) st in
  NoDup (map reservation_id (reservations st))
  /\ map reservation_status (reservations st)
     = ["active"; "active"; "active"; "cancelled"]
  /\ map reservation_status (reservations (fst run))
     = ["expired"; "expired"; "active"; "cancelled"]
  /\ map copy_status (copies st) = ["reserved"; "damaged"; "reserved"; "reserved"]
  /\ map copy_status (copies (fst run))
     = ["available"; "damaged"; "reserved"; "reserved"]
  /\ snd run = 2
  /\ expire_old_reservations (sample.at_noon 105) (fst run) = (fst run, 0).
Proof.
  cbv zeta.
  assert (Hnd : NoDup (map reservation_id (reservations scenes.lapsed_shelf))).
  { simpl. repeat constructor; simpl; intros H;
      repeat (destruct H as [H | H]; [discriminate|]); exact H. }
  split; [exact Hnd|].
  assert (H := expire_old_reservations_spec (sample.at_noon 105)
                                            scenes.lapsed_shelf Hnd).
  cbv zeta in H.
  destruct H as [Hr [Hc [_ [_ [_ [_ [_ [_ [Hcount Hagain]]]]]]]]].
  split; [reflexivity|]. split; [rewrite Hr; reflexivity|].
  split; [reflexivity|]. split; [rewrite Hc; reflexivity|].
  split; [rewrite Hcount; reflexivity | exact Hagain].
Defined.

(** In the library of two branches the reader asks for book 1 in branch 1
    for day 101: copy 4 is taken, not copy 1 of the other branch, not copy 2
    on loan, not copy 3 of the other book. *)
Lemma create_reservation_spec_witness :
  100 <= 101 <= 100 + 3
  /\ (exists u, In u (users scenes.two_branches)
                /\ user_id u = user_id sample.reader)
  /\ exists c st' rid,
       copy_id c = 4
       /\ create_reservation 100 (sample.at_noon 100) sample.reader 1 1 101
                             scenes.two_branches
          = (st', Ret (true, MsgReservationCreated 101, Some rid))
       /\ rid = 1
       /\ map copy_status (copies scenes.two_branches)
          = ["available"; "loaned"; "available"; "available"; "available"]
       /\ map copy_status (copies st')
          = ["available"; "loaned"; "available"; "reserved"; "available"]
       /\ reservations st'
          = [mk_Reservation 1 "active" 101 (mk_datetime 101 (mk_time 23 59 59 0))
                            false 3 4 1].
Proof.
  assert (Hrange : 100 <= 101 <= 100 + 3) by lia.
  assert (Huser : exists u, In u (users scenes.two_branches)
                            /\ user_id u = user_id sample.reader).
  { exists sample.reader. split; [right; left|]; reflexivity. }
  split; [exact Hrange|]. split; [exact Huser|].
  assert (H := create_reservation_spec 100 (sample.at_noon 100) sample.reader 1 1 101
                                       scenes.two_branches).
  cbv zeta in H. destruct H as [_ [_ [_ [Hok _]]]].
  set (st1 := fst (expire_old_reservations (sample.at_noon 100)
                                           scenes.two_branches)) in Hok.
  vm_compute in st1. subst st1.
  destruct (Hok Hrange (mk_Copy 5 "INV-0005" "available" 1 (Some 1)))
    as [c [Hoffer [Hmin [Hrun _]]]].
  { split; [cbn; tauto|]. split; [reflexivity|]. split; [reflexivity|].
    exists (mk_Location 1 1). split; [now left|]. split; reflexivity. }
  assert (Hid : c = mk_Copy 4 "INV-0004" "available" 1 (Some 1)).
  { assert (H4 := Hmin (mk_Copy 4 "INV-0004" "available" 1 (Some 1))).
    cbn in H4.
    destruct Hoffer as [Hin [Hbook [Hav [l [Hl [Hbr Hloc]]]]]].
    cbn in Hin, Hl.
    destruct Hin as [<- | [<- | [<- | [<- | [<- | []]]]]];
      try discriminate; try reflexivity.
    - destruct Hl as [<- | [<- | []]]; discriminate.
    - exfalso. assert (5 <= 4); [|lia]. apply H4.
      split; [tauto|]. split; [reflexivity|]. split; [reflexivity|].
      exists (mk_Location 1 1). split; [now left|]. split; reflexivity. }
  subst c.
  destruct (Hrun Huser) as [st' [rid [Hcall [Hrid [Hc [_ [Hr _]]]]]]].
  { intros r []. }
  exists (mk_Copy 4 "INV-0004" "available" 1 (Some 1)), st', rid.
  split; [reflexivity|]. split; [exact Hcall|].
  split; [exact Hrid|]. split; [reflexivity|].
  rewrite Hc, Hr, Hrid. split; reflexivity.
Defined.

(** The librarian hands out the reserved copy 1 on day 101; a loan of four
    million days has no due date, and somebody who is no user cannot be the
    librarian of a loan. *)
Lemma fulfill_reservation_spec_witness :
  let st := sample.reserved_shelf in
  let st1 := fst (expire_old_reservations (sample.at_noon 101) st) in
  (Z.abs 14 <= 999999999 /\ 1 <= 101 + 14 <= 3652059)
  /\ ~ (Z.abs 4000000 <= 999999999 /\ 1 <= 101 + 4000000 <= 3652059)
  /\ exists res copy,
       fulfillable st1 1 res copy
       /\ (exists u, In u (users st) /\ user_id u = reservation_reader_id res)
       /\ (exists u, In u (users st) /\ user_id u = user_id sample.librarian)
       /\ ~ (exists u, In u (users st) /\ user_id u = user_id scenes.gone)
       /\ (exists st',
             fulfill_reservation 101 (sample.at_noon 101) sample.librarian 1 14 st
             = (st', Ret (true, MsgFulfilled 115))
             /\ loans st' = [mk_Loan 1 "open" 101 115 None 1 3 2]
             /\ map reservation_status (reservations st') = ["fulfilled"]
             /\ map copy_status (copies st') = ["loaned"; "available"; "lost"])
       /\ fulfill_reservation 101 (sample.at_noon 101) sample.librarian 1 4000000 st
          = (st1, Raise OverflowError)
       /\ fulfill_reservation 101 (sample.at_noon 101) scenes.gone 1 14 st
          = (with_seqs st1 2 2, Raise IntegrityError).
Proof.
  cbv zeta.
  set (res := mk_Reservation 1 "active" 101 (mk_datetime 101 (mk_time 23 59 59 0))
                             false 3 1 1).
  set (copy := mk_Copy 1 "INV-0001" "reserved" 1 (Some 1)).
  assert (Hdate : Z.abs 14 <= 999999999 /\ 1 <= 101 + 14 <= 3652059) by (cbn; lia).
  assert (Hfar : ~ (Z.abs 4000000 <= 999999999
                    /\ 1 <= 101 + 4000000 <= 3652059)) by (cbn; lia).
  assert (Hf : fulfillable (fst (expire_old_reservations (sample.at_noon 101)
                                                         sample.reserved_shelf))
                           1 res copy).
  { repeat split. }
  assert (Hreader : exists u, In u (users sample.reserved_shelf)
                              /\ user_id u = reservation_reader_id res).
  { exists sample.reader. split; [right; left|]; reflexivity. }
  assert (Hlib : exists u, In u (users sample.reserved_shelf)
                           /\ user_id u = user_id sample.librarian).
  { exists sample.librarian. split; [left|]; reflexivity. }
  assert (Hgone : ~ (exists u, In u (users sample.reserved_shelf)
                               /\ user_id u = user_id scenes.gone)).
  { intros [u [[<- | [<- | []]] E]]; discriminate. }
  split; [exact Hdate|]. split; [exact Hfar|].
  exists res, copy. split; [exact Hf|]. split; [exact Hreader|].
  split; [exact Hlib|]. split; [exact Hgone|].
  split; [|split].
  - assert (H := fulfill_reservation_spec 101 (sample.at_noon 101) sample.librarian
                                          1 14 sample.reserved_shelf).
    cbv zeta in H. destruct H as [_ [_ [Hok _]]].
    destruct (Hok res copy Hf) as [Hgood _].
    destruct (Hgood Hdate Hreader Hlib) as [st' [Hrun [Hl [Hr [_ [Hc _]]]]]].
    exists st'. split; [exact Hrun|]. rewrite Hl, Hr, Hc. repeat split.
  - assert (H := fulfill_reservation_spec 101 (sample.at_noon 101) sample.librarian
                                          1 4000000 sample.reserved_shelf).
    cbv zeta in H. destruct H as [_ [_ [Hok _]]].
    destruct (Hok res copy Hf) as [_ [Hover _]]. exact (Hover Hfar).
  - assert (H := fulfill_reservation_spec 101 (sample.at_noon 101) scenes.gone
                                          1 14 sample.reserved_shelf).
    cbv zeta in H. destruct H as [_ [_ [Hok _]]].
    destruct (Hok res copy Hf) as [_ [_ [_ Hbad]]].
    exact (Hbad Hdate Hreader Hgone).
Defined.

(** The scenario of the loan desk: INV-0001 goes to kap213, a second issue
    is refused. *)
Lemma issue_loan_spec_witness :
  consistent sample.shelf
  /\ NoDup (map copy_id (copies sample.shelf))
  /\ (exists st',
        issue_loan 100 "INV-0001" "kap213" sample.librarian sample.shelf
        = (st', Ret (true, MsgLoanIssued 1 114))
        /\ map copy_status (copies st') = ["loaned"; "available"; "lost"]
        /\ issue_loan 100 "INV-0001" "kap213" sample.librarian st'
           = (st', Ret (false, MsgCopyNotAvailable "loaned")))
  /\ issue_loan 100 "INV-0001" "kap213" (mk_User 999 "gone") sample.shelf
     = (with_seqs sample.shelf 2 1, Ret (false, MsgDbError)).
Proof.
  split; [exact shelf_consistent|]. split; [exact shelf_keys|]. split.
  - destruct (issue_loan_spec 100 "INV-0001" "kap213" sample.librarian
                              sample.shelf) as [_ [Hdone Hgo]].
    destruct (Hgo shelf_consistent shelf_keys
                  (mk_Copy 1 "INV-0001" "available" 1 (Some 1)) sample.reader
                  eq_refl eq_refl eq_refl eq_refl eq_refl) as [Hyes _].
    destruct Hyes as [st' Hrun].
    { exists sample.librarian. split; [now left | reflexivity]. }
    exists st'. split; [exact Hrun|].
    destruct (Hdone st' _ Hrun)
      as [copy [rd [Hcopy [_ [_ [_ [Hc [_ [_ Hagain]]]]]]]]].
    injection Hcopy as <-.
    split; [rewrite Hc; reflexivity|].
    apply Hagain. reflexivity.
  - destruct (issue_loan_spec 100 "INV-0001" "kap213" (mk_User 999 "gone")
                              sample.shelf) as [_ [_ Hgo]].
    destruct (Hgo shelf_consistent shelf_keys
                  (mk_Copy 1 "INV-0001" "available" 1 (Some 1)) sample.reader
                  eq_refl eq_refl eq_refl eq_refl eq_refl) as [_ Hno].
    apply Hno. intros u Hu. cbn in Hu.
    destruct Hu as [<- | [<- | []]]; discriminate.
Defined.




(** A copy marked lost while on loan is [available] after the return. *)
Lemma return_loan_frees_copy_witness :
  (exists u, In u (users sample.lost_on_loan)
             /\ user_id u = user_id sample.librarian)
  /\ exists st',
       return_loan 100 1 sample.librarian sample.lost_on_loan
       = (st', Ret (true, MsgReturned))
       /\ map copy_status (copies sample.lost_on_loan) = ["lost"]
       /\ map copy_status (copies st') = ["available"]
       /\ map loan_status (loans st') = ["returned"].
Proof.
  assert (Hu : exists u, In u (users sample.lost_on_loan)
                         /\ user_id u = user_id sample.librarian)
    by (exists sample.librarian; split; [now left | reflexivity]).
  split; [exact Hu|].
  destruct (return_loan_frees_copy 100 1 sample.librarian sample.lost_on_loan
              (mk_Loan 1 "overdue" 60 74 None 1 3 2) eq_refl eq_refl)
    as [Hrun _].
  { exists (mk_Copy 1 "INV-0001" "lost" 1 (Some 1)). split; [now left | reflexivity]. }
  destruct (Hrun Hu) as [st' [Hret [Hc [_ [Hl _]]]]].
  exists st'. split; [exact Hret|]. split; [reflexivity|].
  split; [rewrite Hc; reflexivity | rewrite Hl; reflexivity].
Defined.

(** * Transactions *)

Lemma update_where_ext {A} (p p' : A -> bool) (f : A -> A) (rows : list A) :
  (forall r, In r rows -> p r = p' r) ->
  update_where p f rows = update_where p' f rows.
Proof.
  intros H. unfold update_where. apply map_ext_in. intros r Hr.
  now rewrite (H r Hr).
Qed.

Lemma NoDup_snoc_fresh (l : list Z) (n : Z) :
  NoDup l -> (forall x, In x l -> x < n) -> NoDup (l ++ [n]).
Proof.
  intros Hnd Hlt. induction l as [|x l IH]; simpl.
  - constructor; [intros [] | constructor].
  - inversion Hnd as [|y ys Hnot Hnd']; subst. constructor.
    + intros Hin. apply in_app_or in Hin. destruct Hin as [Hin | [Heq | []]].
      * contradiction.
      * specialize (Hlt x (or_introl eq_refl)). lia.
    + apply IH; [assumption|]. intros y Hy. apply Hlt. now right.
Qed.

Lemma keys_txn (st st' : Store) : keys st -> txn st st' -> keys st'.
Proof.
  intros [Hc [Hl [Hr [Hls Hrs]]]] Htxn.
  destruct Htxn; unfold keys; simpl.
  - repeat split; auto.
    + intros l Hin. specialize (Hls l Hin). lia.
    + intros r Hin. specialize (Hrs r Hin). lia.
  - rewrite !map_key_update_where by reflexivity. repeat split; auto.
    intros r' Hin. apply update_where_in in Hin. destruct Hin as [r0 [Hr0 ->]].
    specialize (Hrs r0 Hr0). now destruct (p r0).
  - rewrite map_key_update_where by reflexivity. rewrite map_app. simpl.
    repeat split; auto.
    + apply NoDup_snoc_fresh; [assumption|].
      intros x Hx. apply in_map_iff in Hx. destruct Hx as [r0 [<- Hr0]]. auto.
    + intros r' Hin. apply in_app_or in Hin. destruct Hin as [Hin | [<- | []]].
      * specialize (Hrs r' Hin). lia.
      * simpl. lia.
  - rewrite map_key_update_where by reflexivity. rewrite map_app. simpl.
    repeat split; auto.
    + apply NoDup_snoc_fresh; [assumption|].
      intros x Hx. apply in_map_iff in Hx. destruct Hx as [l0 [<- Hl0]]. auto.
    + intros l' Hin. apply in_app_or in Hin. destruct Hin as [Hin | [<- | []]].
      * specialize (Hls l' Hin). lia.
      * simpl. lia.
  - rewrite !map_key_update_where by reflexivity. rewrite map_app. simpl.
    repeat split; auto.
    + apply NoDup_snoc_fresh; [assumption|].
      intros x Hx. apply in_map_iff in Hx. destruct Hx as [l0 [<- Hl0]]. auto.
    + intros l' Hin. apply in_app_or in Hin. destruct Hin as [Hin | [<- | []]].
      * specialize (Hls l' Hin). lia.
      * simpl. lia.
    + intros r' Hin. apply update_where_in in Hin. destruct Hin as [r0 [Hr0 ->]].
      specialize (Hrs r0 Hr0). now destruct (_ =? _).
  - rewrite !map_key_update_where by reflexivity. repeat split; auto.
    intros l' Hin. apply update_where_in in Hin. destruct Hin as [l0 [Hl0 ->]].
    specialize (Hls l0 Hl0). now destruct (_ =? _).
  - rewrite map_key_update_where by reflexivity. repeat split; auto.
    intros l' Hin. apply update_where_in in Hin. destruct Hin as [l0 [Hl0 ->]].
    specialize (Hls l0 Hl0). now destruct (_ && _).
  - rewrite map_key_update_where by reflexivity. repeat split; auto.
    intros r' Hin. apply update_where_in in Hin. destruct Hin as [r0 [Hr0 ->]].
    specialize (Hrs r0 Hr0). now destruct (_ =? _).
Qed.

Lemma keys_txns (st st' : Store) : keys st -> txns st st' -> keys st'.
Proof.
  intros Hk H. induction H as [|st st1 st2 Ht _ IH]; [assumption|].
  apply IH. now apply (keys_txn st).
Qed.

Lemma txns_one (st st' : Store) : txn st st' -> txns st st'.
Proof. intros H. eapply txns_then; [exact H | apply txns_done]. Qed.

Lemma txns_app (st1 st2 st3 : Store) :
  txns st1 st2 -> txns st2 st3 -> txns st1 st3.
Proof.
  intros H12 H23. induction H12 as [|st st1 st2 Ht _ IH]; [assumption|].
  eapply txns_then; [exact Ht | now apply IH].
Qed.

(** The sweep is one release. *)
Lemma txn_expire (now : datetime) (st : Store) :
  keys st -> txn st (fst (expire_old_reservations now st)).
Proof.
  intros [_ [_ [Hnd _]]]. rewrite expire_store. apply txn_release.
  - now left.
  - intros r Hin Hp. rewrite collected_id_stale in Hp by assumption.
    now apply stale_active in Hp.
  - intros c Hc. rewrite andb_true_iff, collected_copy, existsb_exists. split.
    + intros [[r [Hr Hrc]] Hres]. apply andb_prop in Hrc. destruct Hrc as [Hs Hcopy].
      apply String.eqb_eq in Hres. apply Z.eqb_eq in Hcopy.
      split; [assumption|]. exists r. repeat split; auto.
      now apply stale_id_collected.
    + intros [Hres [r [Hr [Hp Hcopy]]]]. split; [|now apply String.eqb_eq].
      exists r. split; [assumption|].
      rewrite collected_id_stale in Hp by assumption.
      rewrite Hp. now apply Z.eqb_eq.
Qed.

(** * What each service call leaves, case by case *)

Lemma cancel_reservation_run (now : datetime) (reader : User) (rid : Z) (st : Store) :
  let st1 := fst (expire_old_reservations now st) in
  match get_or_none (fun r => reservation_id r =? rid) (reservations st1) with
  | None =>
      cancel_reservation now reader rid st = (st1, Ret (false, MsgReservationNotFound))
  | Some res =>
      if negb (reservation_reader_id res =? user_id reader)
      then cancel_reservation now reader rid st
           = (st1, Ret (false, MsgNotYourReservation))
      else if negb (reservation_status res =? "active")%string
      then cancel_reservation now reader rid st
           = (st1, Ret (false, MsgReservationNoLongerActive))
      else cancel_reservation now reader rid st
           = (with_copies
                (with_reservations st1
                   (update_where (fun r => reservation_id r =? reservation_id res)
                                 (set_reservation_status "cancelled")
                                 (reservations st1)))
                (update_where (fun c => (copy_id c =? reservation_copy_id res)
                                        && (copy_status c =? "reserved")%string)
                              (set_copy_status "available") (copies st1)),
              Ret (true, MsgReservationCancelled))
  end.
Proof.
  intros st1. unfold cancel_reservation. fold st1.
  destruct (get_or_none _ (reservations st1)) as [res|] eqn:Hres.
  - destruct (negb (reservation_reader_id res =? user_id reader)) eqn:Hown;
      [apply atomic_ret; now rewrite Hres, Hown|].
    destruct (negb (reservation_status res =? "active")%string) eqn:Hact;
      apply atomic_ret; now rewrite Hres, Hown, Hact.
  - apply atomic_ret. now rewrite Hres.
Qed.

Lemma return_loan_run (today : date) (lid : Z) (librarian : User) (st : Store) :
  match get_or_none (fun l => loan_id l =? lid) (loans st) with
  | None => return_loan today lid librarian st = (st, Ret (false, MsgLoanNotFound))
  | Some loan =>
      if negb (status_in (loan_status loan) ["open"; "overdue"])
      then return_loan today lid librarian st
           = (st, Ret (false, MsgCannotReturn (loan_status loan)))
      else if negb (is_user (user_id librarian) st)
      then return_loan today lid librarian st = (st, Raise IntegrityError)
      else
        match get_or_none (fun c => copy_id c =? loan_copy_id loan) (copies st) with
        | None => return_loan today lid librarian st = (st, Raise DoesNotExist)
        | Some _ =>
            return_loan today lid librarian st
            = (save_copy_status (loan_copy_id loan) "available"
                 (with_loans st
                    (update_where (fun l => loan_id l =? loan_id loan)
                                  (close_loan today librarian) (loans st))),
               Ret (true, MsgReturned))
        end
  end.
Proof.
  unfold return_loan.
  destruct (get_or_none _ (loans st)) as [loan|] eqn:Hloan; [|reflexivity].
  destruct (negb (status_in (loan_status loan) ["open"; "overdue"])) eqn:Hact;
    [reflexivity|].
  destruct (negb (is_user (user_id librarian) st)) eqn:Hlib.
  { erewrite atomic_raise by (rewrite Hloan, Hact, Hlib; reflexivity).
    now rewrite with_seqs_same. }
  destruct (get_or_none (fun c => copy_id c =? loan_copy_id loan) (copies st))
    as [copy|] eqn:Hcopy.
  - apply atomic_ret. rewrite Hloan, Hact, Hlib. cbn [copies with_loans].
    rewrite Hcopy. apply get_or_none_some in Hcopy. destruct Hcopy as [_ Hid].
    apply Z.eqb_eq in Hid. now rewrite Hid.
  - erewrite atomic_raise.
    2:{ rewrite Hloan, Hact, Hlib. cbn [copies with_loans]. rewrite Hcopy.
        reflexivity. }
    cbn [loans_id_seq reservations_id_seq with_loans].
    now rewrite with_seqs_same.
Qed.

Lemma issue_loan_run (today : date) (code login : string) (librarian : User)
      (st : Store) :
  (exists m, issue_loan today code login librarian st = (st, Ret (false, m)))
  \/ exists copy reader,
       get_or_none (fun c => (copy_inventory_code c =? strip code)%string)
                   (copies st) = Some copy
       /\ copy_status copy = "available"
       /\ get_or_none (fun u => (user_login u =? strip login)%string) (users st)
          = Some reader
       /\ (((existsb (loan_holds (copy_id copy)) (loans st) = true
             \/ is_user (user_id librarian) st = false)
            /\ issue_loan today code login librarian st
               = (with_seqs st (loans_id_seq st + 1) (reservations_id_seq st),
                  Ret (false, MsgDbError)))
           \/ (existsb (loan_holds (copy_id copy)) (loans st) = false
               /\ is_user (user_id librarian) st = true
               /\ issue_loan today code login librarian st
                  = (save_copy_status (copy_id copy) "loaned"
                       (with_loans
                          (with_seqs st (loans_id_seq st + 1)
                                     (reservations_id_seq st))
                          (loans st
                           ++ [mk_Loan (loans_id_seq st) "open" today (today + 14)
                                       None (copy_id copy) (user_id reader)
                                       (user_id librarian)])),
                     Ret (true, MsgLoanIssued (loans_id_seq st) (today + 14))))).
Proof.
  unfold issue_loan.
  destruct (is_empty (strip code) || is_empty (strip login)); [left; eauto|].
  destruct (get_or_none _ (copies st)) as [copy|] eqn:Hcopy; [|left; eauto].
  destruct (negb (copy_status copy =? "available")%string) eqn:Hav; [left; eauto|].
  destruct (get_or_none _ (users st)) as [reader|] eqn:Hreader; [|left; eauto].
  apply negb_false_iff, String.eqb_eq in Hav. cbv zeta.
  assert (Hin : In copy (copies st)) by (now apply get_or_none_some in Hcopy).
  destruct (get_or_none_exists (fun c => copy_id c =? copy_id copy) (copies st)
                               copy Hin (Z.eqb_refl _)) as [copy' Hcopy'].
  assert (Hid : copy_id copy' = copy_id copy).
  { apply get_or_none_some in Hcopy'. now apply Z.eqb_eq. }
  destruct (negb (copy_status copy' =? "available")%string) eqn:Hav'.
  { left. eexists. erewrite atomic_ret; [reflexivity|].
    now rewrite Hcopy', Hav'. }
  right. exists copy, reader. split; [reflexivity|]. split; [assumption|].
  split; [reflexivity|].
  assert (Hknown : is_user (user_id reader) st = true).
  { apply is_user_spec. exists reader. split; [|reflexivity].
    now apply get_or_none_some in Hreader. }
  destruct (existsb (loan_holds (copy_id copy)) (loans st)) eqn:Hheld.
  - left. split; [now left|].
    erewrite atomic_raise;
      [|rewrite Hcopy', Hav'; rewrite insert_loan_open by reflexivity;
        cbn [loan_copy_id]; rewrite Hid, Hheld; reflexivity].
    reflexivity.
  - destruct (is_user (user_id librarian) st) eqn:Hlib.
    + right. split; [reflexivity|]. split; [reflexivity|].
      erewrite atomic_ret; [reflexivity|].
      rewrite Hcopy', Hav'. rewrite insert_loan_open by reflexivity.
      cbn [loan_copy_id loan_reader_id loan_librarian_id].
      rewrite Hid, Hheld, Hknown, Hlib. reflexivity.
    + left. split; [now right|].
      erewrite atomic_raise;
        [|rewrite Hcopy', Hav'; rewrite insert_loan_open by reflexivity;
          cbn [loan_copy_id loan_reader_id loan_librarian_id];
          rewrite Hid, Hheld, Hknown, Hlib; reflexivity].
      reflexivity.
Qed.

Lemma create_reservation_run (today : date) (now : datetime) (reader : User)
      (book_id branch_id : Z) (pickup : date) (st : Store) :
  let st1 := fst (expire_old_reservations now st) in
  ((pickup < today \/ today + 3 < pickup)
   /\ create_reservation today now reader book_id branch_id pickup st
      = (st, Ret (false, MsgPickupDateRange, None)))
  \/ (today <= pickup <= today + 3
      /\ ((available_copies st1 book_id branch_id = []
           /\ create_reservation today now reader book_id branch_id pickup st
              = (st1, Ret (false, MsgNoFreeCopies, None)))
          \/ exists c,
               first (order_by_id_asc (available_copies st1 book_id branch_id))
               = Some c
               /\ (((existsb (reservation_holds (copy_id c)) (reservations st1)
                      = true
                      \/ is_user (user_id reader) st1 = false)
                    /\ create_reservation today now reader book_id branch_id pickup st
                       = (with_seqs st1 (loans_id_seq st1)
                                    (reservations_id_seq st1 + 1),
                          Raise IntegrityError))
                   \/ (existsb (reservation_holds (copy_id c)) (reservations st1)
                       = false
                       /\ is_user (user_id reader) st1 = true
                       /\ create_reservation today now reader book_id branch_id
                                             pickup st
                          = (with_reservations
                               (with_seqs
                                  (save_copy_status (copy_id c) "reserved" st1)
                                  (loans_id_seq st1) (reservations_id_seq st1 + 1))
                               (reservations st1
                                ++ [mk_Reservation (reservations_id_seq st1)
                                      "active" pickup (_end_of_day pickup) false
                                      (user_id reader) (copy_id c) branch_id]),
                             Ret (true, MsgReservationCreated pickup,
                                  Some (reservations_id_seq st1))))))).
Proof.
  intros st1. unfold create_reservation. fold st1.
  destruct ((pickup <? today) || (pickup >? today + 3)) eqn:Hrange.
  { left. split; [|reflexivity]. apply orb_true_iff in Hrange.
    rewrite Z.gtb_ltb in Hrange. destruct Hrange as [H | H];
      apply Z.ltb_lt in H; lia. }
  right. apply orb_false_iff in Hrange. rewrite Z.gtb_ltb in Hrange.
  destruct Hrange as [H1 H2]. apply Z.ltb_ge in H1, H2. split; [lia|].
  destruct (first (order_by_id_asc (available_copies st1 book_id branch_id)))
    as [c|] eqn:Hfirst.
  - right. exists c. split; [reflexivity|].
    assert (Hsame : is_user (user_id reader)
                            (save_copy_status (copy_id c) "reserved" st1)
                    = is_user (user_id reader) st1)
      by apply is_user_save_copy_status.
    destruct (existsb (reservation_holds (copy_id c)) (reservations st1)) eqn:Hheld.
    + left. split; [now left|].
      erewrite atomic_raise;
        [|rewrite Hfirst; rewrite insert_reservation_active by reflexivity;
          cbn [reservation_copy_id reservations save_copy_status with_copies];
          rewrite Hheld; reflexivity].
      reflexivity.
    + destruct (is_user (user_id reader) st1) eqn:Hknown.
      * right. split; [reflexivity|]. split; [reflexivity|].
        erewrite atomic_ret; [reflexivity|].
        rewrite Hfirst. rewrite insert_reservation_active by reflexivity.
        cbn [reservation_copy_id reservation_reader_id].
        rewrite Hsame.
        cbn [reservations save_copy_status with_copies].
        rewrite Hheld. reflexivity.
      * left. split; [now right|].
        erewrite atomic_raise;
          [|rewrite Hfirst; rewrite insert_reservation_active by reflexivity;
            cbn [reservation_copy_id reservation_reader_id];
            rewrite Hsame;
            cbn [reservations save_copy_status with_copies];
            rewrite Hheld; reflexivity].
        reflexivity.
  - left. split.
    + apply order_by_id_asc_nil.
      now destruct (order_by_id_asc (available_copies st1 book_id branch_id)).
    + apply atomic_ret. now rewrite Hfirst.
Qed.

(** * Every call is a sweep followed by at most one more transaction *)

Lemma txns_create (today : date) (now : datetime) (reader : User)
      (book_id branch_id : Z) (pickup : date) (st : Store) :
  keys st ->
  txns st (fst (create_reservation today now reader book_id branch_id pickup st)).
Proof.
  intros Hk.
  assert (Hsweep := txn_expire now st Hk).
  destruct (create_reservation_run today now reader book_id branch_id pickup st)
    as [[_ ->] | [_ [[_ ->] | [c [Hfirst [[_ ->] | [Hfree [_ ->]]]]]]]]; simpl.
  - apply txns_done.
  - now apply txns_one.
  - eapply txns_then; [exact Hsweep|]. apply txns_one. apply txn_seqs; lia.
  - eapply txns_then; [exact Hsweep|]. apply txns_one.
    apply first_order_by_id_asc in Hfirst. destruct Hfirst as [Hin _].
    apply available_copies_in in Hin. destruct Hin as [Hin [Hav _]].
    apply (txn_reserve _ c
             (mk_Reservation 0 "active" pickup (_end_of_day pickup) false
                             (user_id reader) (copy_id c) branch_id)); auto.
Qed.

Lemma txns_fulfill (today : date) (now : datetime) (librarian : User)
      (rid loan_days : Z) (st : Store) :
  keys st ->
  txns st (fst (fulfill_reservation today now librarian rid loan_days st)).
Proof.
  intros Hk.
  assert (Hsweep := txn_expire now st Hk).
  destruct (fulfill_reservation_run today now librarian rid loan_days st)
    as [[m [-> _]] | [res [copy [Hok ->]]]].
  - simpl. now apply txns_one.
  - destruct (add_days today loan_days) as [due|]; [|simpl; now apply txns_one].
    destruct (negb (is_user (reservation_reader_id res) _));
      [simpl; now apply txns_one|].
    destruct (negb (is_user (user_id librarian) _)); simpl.
    { eapply txns_then; [exact Hsweep|]. apply txns_one. apply txn_seqs; lia. }
    eapply txns_then; [exact Hsweep|]. apply txns_one.
    destruct Hok as [Hres [Hact [Hcopy [Hreserved Hopen]]]].
    apply get_or_none_some in Hres. destruct Hres as [Hres _].
    apply filter_In in Hres. destruct Hres as [Hres _].
    apply get_or_none_some in Hcopy. destruct Hcopy as [Hcopy Hid].
    apply Z.eqb_eq in Hid.
    apply (txn_fulfill _ res copy
             (mk_Loan 0 "open" today due None (copy_id copy)
                      (reservation_reader_id res) (user_id librarian))); auto.
Qed.

Lemma txns_cancel (now : datetime) (reader : User) (rid : Z) (st : Store) :
  keys st -> txns st (fst (cancel_reservation now reader rid st)).
Proof.
  intros Hk.
  assert (Hsweep := txn_expire now st Hk).
  assert (Hk1 := keys_txn _ _ Hk Hsweep).
  assert (Hrun := cancel_reservation_run now reader rid st). cbv zeta in Hrun.
  destruct (get_or_none _ (reservations (fst (expire_old_reservations now st))))
    as [res|] eqn:Hres; [|rewrite Hrun; now apply txns_one].
  destruct (negb (reservation_reader_id res =? user_id reader));
    [rewrite Hrun; now apply txns_one|].
  destruct (negb (reservation_status res =? "active")%string) eqn:Hact;
    [rewrite Hrun; now apply txns_one|].
  rewrite Hrun. simpl. eapply txns_then; [exact Hsweep|]. apply txns_one.
  apply negb_false_iff, String.eqb_eq in Hact.
  apply get_or_none_some in Hres. destruct Hres as [Hin _].
  destruct Hk1 as [_ [_ [Hnd _]]].
  apply txn_release.
  - now right.
  - intros r Hr Hp. apply Z.eqb_eq in Hp.
    now rewrite (NoDup_key_inj reservation_id _ r res Hnd Hr Hin Hp).
  - intros c Hc. rewrite andb_true_iff, Z.eqb_eq, String.eqb_eq. split.
    + intros [Hid Hs]. split; [assumption|]. exists res.
      repeat split; [assumption | apply Z.eqb_refl | now symmetry].
    + intros [Hs [r [Hr [Hp Hid]]]]. split; [|assumption].
      apply Z.eqb_eq in Hp.
      now rewrite <- (NoDup_key_inj reservation_id _ r res Hnd Hr Hin Hp).
Qed.

Lemma txns_extend (now : datetime) (reader : User) (rid : Z) (st : Store) :
  keys st -> txns st (fst (extend_reservation now reader rid st)).
Proof.
  intros Hk.
  assert (Hsweep := txn_expire now st Hk).
  assert (Hrun := extend_reservation_run now reader rid st). cbv zeta in Hrun.
  destruct (get_or_none _ (reservations (fst (expire_old_reservations now st))))
    as [res|] eqn:Hres; [|rewrite Hrun; now apply txns_one].
  destruct (negb (reservation_reader_id res =? user_id reader));
    [rewrite Hrun; now apply txns_one|].
  destruct (negb (reservation_status res =? "active")%string) eqn:Hact;
    [rewrite Hrun; now apply txns_one|].
  destruct (reservation_extended_once res) eqn:Hext;
    [rewrite Hrun; now apply txns_one|].
  rewrite Hrun. simpl. eapply txns_then; [exact Hsweep|]. apply txns_one.
  apply negb_false_iff, String.eqb_eq in Hact.
  apply get_or_none_some in Hres. destruct Hres as [Hin _].
  now apply txn_extend.
Qed.

Lemma txns_issue_loan (today : date) (code login : string) (librarian : User)
      (st : Store) :
  txns st (fst (issue_loan today code login librarian st)).
Proof.
  destruct (issue_loan_run today code login librarian st)
    as [[m ->] | [copy [reader [Hcopy [Hav [_ [[_ ->] | [Hfree [_ ->]]]]]]]]];
    simpl.
  - apply txns_done.
  - apply txns_one. apply txn_seqs; lia.
  - apply txns_one. apply get_or_none_some in Hcopy. destruct Hcopy as [Hin _].
    apply (txn_lend _ copy
             (mk_Loan 0 "open" today (today + 14) None (copy_id copy)
                      (user_id reader) (user_id librarian))); auto.
Qed.

Lemma txns_return_loan (today : date) (lid : Z) (librarian : User) (st : Store) :
  txns st (fst (return_loan today lid librarian st)).
Proof.
  assert (Hrun := return_loan_run today lid librarian st).
  destruct (get_or_none _ (loans st)) as [loan|] eqn:Hloan;
    [|rewrite Hrun; apply txns_done].
  destruct (negb (status_in (loan_status loan) ["open"; "overdue"])) eqn:Hact;
    [rewrite Hrun; apply txns_done|].
  destruct (negb (is_user (user_id librarian) st));
    [rewrite Hrun; apply txns_done|].
  destruct (get_or_none _ (copies st)) as [copy|];
    [|rewrite Hrun; apply txns_done].
  rewrite Hrun. simpl. apply txns_one.
  apply negb_false_iff in Hact. apply get_or_none_some in Hloan.
  destruct Hloan as [Hin _]. now apply txn_return.
Qed.

Lemma txns_step (st st' : Store) : keys st -> step st st' -> txns st st'.
Proof.
  intros Hk Hstep. destruct Hstep.
  - now apply txns_create.
  - now apply txns_fulfill.
  - now apply txns_cancel.
  - now apply txns_extend.
  - apply txns_one. now apply txn_expire.
  - apply txns_issue_loan.
  - apply txns_return_loan.
  - apply txns_one. apply txn_overdue.
Qed.

Lemma txns_reachable (st0 st : Store) :
  keys st0 -> reachable st0 st -> txns st0 st.
Proof.
  intros Hk H. induction H as [|st st' _ IH Hstep]; [apply txns_done|].
  apply (txns_app _ st); [assumption|].
  apply txns_step; [|assumption]. now apply (keys_txns st0).
Qed.

(** X1. Unique primary keys, with ids below the sequences, are kept by every
    call of the engine operations. *)
Theorem keys_kept (st0 st : Store) :
  keys st0 -> reachable st0 st ->
  NoDup (map copy_id (copies st))
  /\ NoDup (map loan_id (loans st))
  /\ NoDup (map reservation_id (reservations st))
  /\ (forall l, In l (loans st) -> loan_id l < loans_id_seq st)
  /\ (forall r, In r (reservations st) ->
                reservation_id r < reservations_id_seq st).
Proof.
  intros Hk Hreach. apply (keys_txns st0); [assumption|].
  now apply txns_reachable.
Qed.

(** * Consistency, transaction by transaction *)

Lemma holders_with_seqs (st : Store) (a b c : Z) :
  holders (with_seqs st a b) c = holders st c.
Proof. reflexivity. Qed.

Lemma consistent_txn (st st' : Store) :
  consistent st -> txn st st' -> consistent st'.
Proof.
  intros Hst Htxn. destruct Htxn as
    [ a b _ _
    | p s q Hs Hp Hq
    | copy r Hin Hav Hfree Hact Hcopy _ _
    | copy l Hin Hav Hfree Hopen Hcopy
    | res copy l Hres Hact Hin Hid Hreserved Hfree Hopen Hcopy
    | loan today u Hin Hact
    | today
    | res Hres Hact Hext ].
  - exact Hst.
  - assert (Hne : s <> "active") by (destruct Hs; subst; discriminate).
    apply (consistent_shrink st); [assumption | |].
    + intros c. now apply holders_release.
    + intros row' Hrow' Hav. simpl in Hrow'. apply update_where_in in Hrow'.
      destruct Hrow' as [row [Hrow ->]]. destruct (q row) eqn:Hqr.
      * right. apply (Hq row Hrow) in Hqr. destruct Hqr as [_ [r [Hr [Hpr Hrc]]]].
        simpl. rewrite <- Hrc. apply holders_release_lt; auto.
      * left. exists row. auto.
  - destruct Hst as [Hone Hfr]. assert (H0 := Hfr copy Hin Hav).
    apply (consistent_take st _ (copy_id copy)); [now split | | |].
    + unfold holders in *. simpl. rewrite count_app.
      destruct (reservation_holds _ _); lia.
    + intros c Hc. unfold holders. simpl. rewrite count_app.
      unfold reservation_holds at 2. simpl. rewrite Hcopy.
      replace (copy_id copy =? c) with false
        by (symmetry; apply Z.eqb_neq; congruence).
      simpl. lia.
    + intros row' Hrow' Hav'.
      apply save_copy_status_available in Hrow'; [|discriminate|exact Hav'].
      destruct Hrow' as [Hne Hrow]. split; [exact Hne|]. exists row'. auto.
  - destruct Hst as [Hone Hfr]. assert (H0 := Hfr copy Hin Hav).
    apply (consistent_take st _ (copy_id copy)); [now split | | |].
    + unfold holders in *. simpl. rewrite count_app.
      destruct (loan_holds _ _); lia.
    + intros c Hc. unfold holders. simpl. rewrite count_app.
      unfold loan_holds at 2. simpl. rewrite Hcopy.
      replace (copy_id copy =? c) with false
        by (symmetry; apply Z.eqb_neq; congruence).
      simpl. lia.
    + intros row' Hrow' Hav'.
      apply save_copy_status_available in Hrow'; [|discriminate|exact Hav'].
      destruct Hrow' as [Hne Hrow]. split; [exact Hne|]. exists row'. auto.
  - destruct Hst as [Hone Hfr].
    assert (Hle : forall c,
      (List.length (filter (reservation_holds c)
          (update_where (fun r => (reservation_id r =? reservation_id res)%Z)
                        (set_reservation_status "fulfilled") (reservations st)))
       <= List.length (filter (reservation_holds c) (reservations st)))%nat).
    { intros c. apply count_update_le. intros r _ _ H.
      unfold reservation_holds in H. simpl in H. now rewrite andb_false_r in H. }
    assert (Hlt :
      (List.length (filter (reservation_holds (copy_id copy))
          (update_where (fun r => (reservation_id r =? reservation_id res)%Z)
                        (set_reservation_status "fulfilled") (reservations st)))
       < List.length (filter (reservation_holds (copy_id copy))
                             (reservations st)))%nat).
    { apply (count_update_lt _ _ _ res); auto.
      - intros r _ _ H. unfold reservation_holds in H. simpl in H.
        now rewrite andb_false_r in H.
      - apply Z.eqb_refl.
      - rewrite Hid. now apply reservation_holds_own.
      - unfold reservation_holds. simpl. apply andb_false_r. }
    apply (consistent_take st _ (copy_id copy)); [now split | | |].
    + specialize (Hone (copy_id copy)).
      unfold holders in *. simpl. rewrite count_app.
      destruct (loan_holds _ _); lia.
    + intros c Hc. specialize (Hle c).
      unfold holders. simpl. rewrite count_app.
      unfold loan_holds at 2. simpl. rewrite Hcopy.
      replace (copy_id copy =? c) with false
        by (symmetry; apply Z.eqb_neq; congruence).
      simpl. lia.
    + intros row' Hrow' Hav'.
      apply save_copy_status_available in Hrow'; [|discriminate|exact Hav'].
      destruct Hrow' as [Hne Hrow]. split; [exact Hne|]. exists row'. auto.
  - assert (Hle : forall c,
      (List.length (filter (loan_holds c)
          (update_where (fun l => (loan_id l =? loan_id loan)%Z)
                        (close_loan today u) (loans st)))
       <= List.length (filter (loan_holds c) (loans st)))%nat).
    { intros c. apply count_update_le. intros l _ _ H.
      now rewrite loan_holds_closed in H. }
    apply (consistent_shrink st); [assumption | |].
    + intros c. unfold holders. simpl. apply Nat.add_le_mono_r. apply Hle.
    + intros row' Hrow' Hav. simpl in Hrow'. apply update_where_in in Hrow'.
      destruct Hrow' as [row [Hrow ->]].
      destruct (copy_id row =? loan_copy_id loan) eqn:Hq.
      * right. apply Z.eqb_eq in Hq. simpl. rewrite Hq.
        unfold holders. simpl. apply Nat.add_lt_mono_r.
        apply (count_update_lt _ _ _ loan); auto.
        -- intros l _ _ H. now rewrite loan_holds_closed in H.
        -- apply Z.eqb_refl.
        -- now apply loan_holds_own.
        -- apply loan_holds_closed.
      * left. exists row. auto.
  - now apply consistent_update_overdue.
  - apply (consistent_shrink st); [assumption | |].
    + intros c. unfold holders. simpl. apply Nat.add_le_mono_l.
      apply Nat.eq_le_incl. apply count_update_eq. reflexivity.
    + intros row' Hin' Hav. left. exists row'. auto.
Qed.

(** * The status of a copy mirrors its holder *)

Lemma held_iff_count {A} (h : A -> bool) (rows : list A) :
  existsb h rows = true <-> List.length (filter h rows) <> 0%nat.
Proof.
  split.
  - intros H Hz. apply count_zero_existsb in Hz. congruence.
  - intros H. destruct (existsb h rows) eqn:E; [reflexivity|].
    apply existsb_false_count in E. contradiction.
Qed.

Lemma mirror_row_same (s : string) (nL nR nL' nR' : nat) :
  (s = "loaned" <-> nL <> 0%nat) /\ (s = "reserved" <-> nR <> 0%nat) ->
  nL' = nL -> nR' = nR ->
  (s = "loaned" <-> nL' <> 0%nat) /\ (s = "reserved" <-> nR' <> 0%nat).
Proof. intros H -> ->. exact H. Qed.

Lemma mirror_row_free (s : string) (nL nR : nat) :
  s <> "loaned" -> s <> "reserved" -> nL = 0%nat -> nR = 0%nat ->
  (s = "loaned" <-> nL <> 0%nat) /\ (s = "reserved" <-> nR <> 0%nat).
Proof. intros H1 H2 -> ->. split; split; intros H; congruence. Qed.

Lemma mirror_row_loaned (nL nR : nat) :
  nL <> 0%nat -> nR = 0%nat ->
  ("loaned" = "loaned" <-> nL <> 0%nat) /\ ("loaned" = "reserved" <-> nR <> 0%nat).
Proof. intros H ->. split; split; intros H'; auto; congruence. Qed.

Lemma mirror_row_reserved (nL nR : nat) :
  nL = 0%nat -> nR <> 0%nat ->
  ("reserved" = "loaned" <-> nL <> 0%nat)
  /\ ("reserved" = "reserved" <-> nR <> 0%nat).
Proof. intros -> H. split; split; intros H'; auto; congruence. Qed.

Lemma mirrors_counts (st : Store) :
  status_mirrors st <->
  forall row, In row (copies st) ->
    (copy_status row = "loaned"
     <-> List.length (filter (loan_holds (copy_id row)) (loans st)) <> 0%nat)
    /\ (copy_status row = "reserved"
        <-> List.length (filter (reservation_holds (copy_id row))
                                (reservations st)) <> 0%nat).
Proof.
  unfold status_mirrors. split; intros H row Hin; specialize (H row Hin);
    [rewrite <- !held_iff_count | rewrite !held_iff_count]; exact H.
Qed.

(** Only the row with the key is touched by an update on a unique key. *)
Lemma count_update_by_key {A} (key : A -> Z) (h : A -> bool) (f : A -> A)
      (rows : list A) (r0 : A) :
  NoDup (map key rows) -> In r0 rows ->
  h r0 = false -> h (f r0) = false ->
  List.length (filter h (update_where (fun r => key r =? key r0) f rows))
  = List.length (filter h rows).
Proof.
  intros Hnd Hin H0 Hf0. apply count_update_eq. intros r Hr Hk.
  apply Z.eqb_eq in Hk.
  rewrite (NoDup_key_inj key rows r r0 Hnd Hr Hin Hk). congruence.
Qed.

Lemma mirrors_txn (st st' : Store) :
  keys st -> consistent st -> status_mirrors st -> txn st st' ->
  status_mirrors st'.
Proof.
  intros [_ [Hndl [Hndr _]]] [Hone Hfr] Hm Htxn.
  rewrite mirrors_counts in Hm |- *.
  destruct Htxn as
    [ a b _ _
    | p s q Hs Hp Hq
    | copy r Hin Hav Hfree Hact Hcopy _ _
    | copy l Hin Hav Hfree Hopen Hcopy
    | res copy l Hres Hact Hin Hid Hreserved Hfree Hopen Hcopy
    | loan today u Hin Hact
    | today
    | res Hres Hact Hext ].
  - exact Hm.
  - assert (Hne : s <> "active") by (destruct Hs; subst; discriminate).
    assert (Hdrop : forall c r, reservation_holds c (set_reservation_status s r)
                                = false).
    { intros c r. unfold reservation_holds. simpl. apply andb_false_intro2.
      now apply String.eqb_neq. }
    intros row' Hrow'. simpl in Hrow'. apply update_where_in in Hrow'.
    destruct Hrow' as [c [Hc ->]]. simpl loans. simpl reservations.
    specialize (Hone (copy_id c)). unfold holders in Hone.
    destruct (q c) eqn:Hqc.
    + apply (Hq c Hc) in Hqc. destruct Hqc as [_ [r [Hr [Hpr Hrc]]]].
      assert (Hlt : (List.length (filter (reservation_holds (copy_id c))
                        (update_where p (set_reservation_status s) (reservations st)))
                     < List.length (filter (reservation_holds (copy_id c))
                                           (reservations st)))%nat).
      { apply (count_update_lt _ _ _ r); auto.
        - intros r1 _ _ H. now rewrite Hdrop in H.
        - rewrite <- Hrc. apply reservation_holds_own. now apply Hp. }
      simpl. apply mirror_row_free; try discriminate; lia.
    + refine (mirror_row_same _ _ _ _ _ (Hm c Hc) eq_refl _).
      destruct (String.eqb_spec (copy_status c) "reserved") as [Hres | Hres].
      * apply count_update_eq. intros r Hr Hpr. rewrite Hdrop.
        unfold reservation_holds.
        destruct (reservation_copy_id r =? copy_id c) eqn:E; [|reflexivity].
        apply Z.eqb_eq in E.
        assert (q c = true) by (apply (Hq c Hc); split; [assumption|]; eauto).
        congruence.
      * destruct (Hm c Hc) as [_ HR].
        assert (H0 : List.length (filter (reservation_holds (copy_id c))
                                         (reservations st)) = 0%nat).
        { destruct (Nat.eq_dec
                      (List.length (filter (reservation_holds (copy_id c))
                                           (reservations st))) 0) as [E | E];
            [exact E|].
          exfalso. apply Hres. now apply HR. }
        assert (Hle : (List.length (filter (reservation_holds (copy_id c))
                          (update_where p (set_reservation_status s)
                                        (reservations st)))
                       <= List.length (filter (reservation_holds (copy_id c))
                                              (reservations st)))%nat).
        { apply count_update_le. intros r1 _ _ H. now rewrite Hdrop in H. }
        lia.
  - assert (H0 := Hfr copy Hin Hav). unfold holders in H0.
    intros row' Hrow'. simpl in Hrow'. apply update_where_in in Hrow'.
    destruct Hrow' as [c [Hc ->]]. simpl loans. simpl reservations.
    rewrite count_app. unfold reservation_holds at 2. simpl. rewrite Hcopy, Hact.
    destruct (copy_id c =? copy_id copy) eqn:E.
    + apply Z.eqb_eq in E. simpl. rewrite E, Z.eqb_refl. simpl.
      apply mirror_row_reserved; lia.
    + simpl. rewrite Z.eqb_sym, E. simpl.
      refine (mirror_row_same _ _ _ _ _ (Hm c Hc) eq_refl _). lia.
  - assert (H0 := Hfr copy Hin Hav). unfold holders in H0.
    intros row' Hrow'. simpl in Hrow'. apply update_where_in in Hrow'.
    destruct Hrow' as [c [Hc ->]]. simpl loans. simpl reservations.
    rewrite count_app. unfold loan_holds at 2. simpl. rewrite Hcopy, Hopen.
    destruct (copy_id c =? copy_id copy) eqn:E.
    + apply Z.eqb_eq in E. simpl. rewrite E, Z.eqb_refl. simpl.
      apply mirror_row_loaned; lia.
    + simpl. rewrite Z.eqb_sym, E. simpl.
      refine (mirror_row_same _ _ _ _ _ (Hm c Hc) _ eq_refl). lia.
  - assert (Hdrop : forall c r, reservation_holds c
                                  (set_reservation_status "fulfilled" r) = false).
    { intros c r. unfold reservation_holds. simpl. apply andb_false_r. }
    assert (Hlt :
      (List.length (filter (reservation_holds (copy_id copy))
          (update_where (fun r => (reservation_id r =? reservation_id res)%Z)
                        (set_reservation_status "fulfilled") (reservations st)))
       < List.length (filter (reservation_holds (copy_id copy))
                             (reservations st)))%nat).
    { apply (count_update_lt _ _ _ res); auto.
      - intros r _ _ H. now rewrite Hdrop in H.
      - apply Z.eqb_refl.
      - rewrite Hid. now apply reservation_holds_own. }
    assert (H1 := Hone (copy_id copy)). unfold holders in H1.
    intros row' Hrow'. simpl in Hrow'. apply update_where_in in Hrow'.
    destruct Hrow' as [c [Hc ->]]. simpl loans. simpl reservations.
    rewrite count_app. unfold loan_holds at 2. simpl. rewrite Hcopy, Hopen.
    destruct (copy_id c =? copy_id copy) eqn:E.
    + apply Z.eqb_eq in E. simpl. rewrite E, Z.eqb_refl. simpl.
      apply mirror_row_loaned; lia.
    + simpl. rewrite Z.eqb_sym, E. simpl.
      refine (mirror_row_same _ _ _ _ _ (Hm c Hc) _ _); [lia|].
      apply (count_update_by_key reservation_id); auto.
      unfold reservation_holds. rewrite <- Hid, Z.eqb_sym, E. reflexivity.
  - assert (Hlt :
      (List.length (filter (loan_holds (loan_copy_id loan))
          (update_where (fun l => (loan_id l =? loan_id loan)%Z)
                        (close_loan today u) (loans st)))
       < List.length (filter (loan_holds (loan_copy_id loan)) (loans st)))%nat).
    { apply (count_update_lt _ _ _ loan); auto.
      - intros l _ _ H. now rewrite loan_holds_closed in H.
      - apply Z.eqb_refl.
      - now apply loan_holds_own.
      - apply loan_holds_closed. }
    assert (H1 := Hone (loan_copy_id loan)). unfold holders in H1.
    intros row' Hrow'. simpl in Hrow'. apply update_where_in in Hrow'.
    destruct Hrow' as [c [Hc ->]]. simpl loans. simpl reservations.
    destruct (copy_id c =? loan_copy_id loan) eqn:E.
    + apply Z.eqb_eq in E. simpl. rewrite E.
      apply mirror_row_free; try discriminate; lia.
    + refine (mirror_row_same _ _ _ _ _ (Hm c Hc) _ eq_refl).
      apply (count_update_by_key loan_id); auto.
      * unfold loan_holds. rewrite Z.eqb_sym, E. reflexivity.
      * apply loan_holds_closed.
  - intros row' Hrow'. simpl in Hrow'. simpl loans. simpl reservations.
    refine (mirror_row_same _ _ _ _ _ (Hm row' Hrow') _ eq_refl).
    apply count_update_eq.
    intros l _ Hp. apply andb_prop in Hp. destruct Hp as [Hp _].
    apply String.eqb_eq in Hp. unfold loan_holds. simpl. now rewrite Hp.
  - intros row' Hrow'. simpl in Hrow'. simpl loans. simpl reservations.
    refine (mirror_row_same _ _ _ _ _ (Hm row' Hrow') eq_refl _).
    apply count_update_eq. reflexivity.
Qed.

Lemma sound_txns (st st' : Store) :
  keys st -> consistent st -> status_mirrors st -> txns st st' ->
  keys st' /\ consistent st' /\ status_mirrors st'.
Proof.
  intros Hk Hc Hm H. induction H as [|st st1 st2 Ht _ IH]; [auto|].
  apply IH.
  - now apply (keys_txn st).
  - now apply (consistent_txn st).
  - now apply (mirrors_txn st).
Qed.

(** X2. When copy statuses mirror the holders (a copy is [loaned] exactly
    when it has an open or overdue loan, [reserved] exactly when it has an
    active reservation) in a consistent store with unique keys, they still do
    after any calls of the engine operations. *)
Theorem status_mirrors_kept (st0 st : Store) :
  keys st0 -> consistent st0 -> status_mirrors st0 -> reachable st0 st ->
  forall row, In row (copies st) ->
    (copy_status row = "loaned"
     <-> exists l, In l (loans st) /\ loan_copy_id l = copy_id row
                   /\ (loan_status l = "open" \/ loan_status l = "overdue"))
    /\ (copy_status row = "reserved"
        <-> exists r, In r (reservations st)
                      /\ reservation_copy_id r = copy_id row
                      /\ reservation_status r = "active").
Proof.
  intros Hk Hc Hm Hreach row Hrow.
  destruct (sound_txns st0 st Hk Hc Hm (txns_reachable st0 st Hk Hreach))
    as [_ [_ Hm']].
  destruct (Hm' row Hrow) as [HL HR]. split.
  - rewrite HL, existsb_exists. split.
    + intros [l [Hl Hh]]. exists l. split; [assumption|].
      unfold loan_holds in Hh. apply andb_prop in Hh. destruct Hh as [H1 H2].
      apply Z.eqb_eq in H1. split; [assumption|].
      unfold status_in, ACTIVE_LOAN_STATUSES in H2. simpl in H2.
      apply orb_true_iff in H2. destruct H2 as [H2 | H2].
      * left. now apply String.eqb_eq.
      * rewrite orb_false_r in H2. right. now apply String.eqb_eq.
    + intros [l [Hl [H1 H2]]]. exists l. split; [assumption|].
      unfold loan_holds. rewrite H1, Z.eqb_refl.
      destruct H2 as [-> | ->]; reflexivity.
  - rewrite HR, existsb_exists. split.
    + intros [r [Hr Hh]]. exists r. split; [assumption|].
      unfold reservation_holds in Hh. apply andb_prop in Hh. destruct Hh as [H1 H2].
      apply Z.eqb_eq in H1. apply String.eqb_eq in H2. auto.
    + intros [r [Hr [H1 H2]]]. exists r. split; [assumption|].
      unfold reservation_holds. now rewrite H1, Z.eqb_refl, H2.
Qed.

(** * Life cycles *)

Lemma Forall2_refl_on {A} (R : A -> A -> Prop) (l : list A) :
  (forall x, R x x) -> Forall2 R l l.
Proof. intros H. induction l; constructor; auto. Qed.

Lemma Forall2_update_where {A} (R : A -> A -> Prop) (p : A -> bool) (f : A -> A)
      (l : list A) :
  (forall x, R x x) ->
  (forall x, In x l -> p x = true -> R x (f x)) ->
  Forall2 R l (update_where p f l).
Proof.
  intros Hrefl H. induction l as [|x l IH]; simpl; constructor.
  - destruct (p x) eqn:E; [apply H; [now left | assumption] | apply Hrefl].
  - apply IH. intros y Hy. apply H. now right.
Qed.

Lemma Forall2_trans_on {A} (R : A -> A -> Prop) (l1 l2 l3 : list A) :
  (forall x y z, R x y -> R y z -> R x z) ->
  Forall2 R l1 l2 -> Forall2 R l2 l3 -> Forall2 R l1 l3.
Proof.
  intros Htrans H12. revert l3.
  induction H12 as [|x y l1 l2 Hxy _ IH]; intros l3 H23; inversion H23; subst;
    constructor; eauto.
Qed.

Lemma Forall2_Forall {A} (R : A -> A -> Prop) (P : A -> Prop) (l l' : list A) :
  (forall x y, R x y -> P x -> P y) ->
  Forall2 R l l' -> Forall P l -> Forall P l'.
Proof.
  intros H HR. induction HR as [|x y l l' Hxy _ IH]; intros HP; [constructor|].
  inversion HP; subst. constructor; eauto.
Qed.

Lemma loan_moves_refl (l : Loan) : loan_moves l l.
Proof. now left. Qed.

Lemma loan_moves_id (l l' : Loan) : loan_moves l l' -> loan_id l' = loan_id l.
Proof.
  intros [-> | [[_ ->] | [_ [t [u ->]]]]]; reflexivity.
Qed.

Lemma loan_moves_trans (l1 l2 l3 : Loan) :
  loan_moves l1 l2 -> loan_moves l2 l3 -> loan_moves l1 l3.
Proof.
  intros H12 H23.
  destruct H12 as [-> | [[Hopen ->] | [Hact [t [u ->]]]]]; [exact H23 | |].
  - destruct H23 as [-> | [[H _] | [_ [t [u ->]]]]].
    + right. left. now split.
    + simpl in H. discriminate.
    + right. right. split.
      * now rewrite Hopen.
      * exists t, u. reflexivity.
  - destruct H23 as [-> | [[H _] | [H _]]].
    + right. right. split; [assumption|]. now exists t, u.
    + simpl in H. discriminate.
    + simpl in H. discriminate.
Qed.

Lemma reservation_moves_refl (r : Reservation) : reservation_moves r r.
Proof. exists r. split; now left. Qed.

Lemma reservation_moves_id (r r' : Reservation) :
  reservation_moves r r' -> reservation_id r' = reservation_id r.
Proof.
  intros [base [[-> | [_ [_ ->]]] [-> | [_ [s [_ ->]]]]]]; reflexivity.
Qed.

Lemma terminal_not_active (s : string) : terminal s -> s <> "active".
Proof. intros [-> | [-> | ->]]; discriminate. Qed.

Lemma reservation_moves_trans (r1 r2 r3 : Reservation) :
  reservation_moves r1 r2 -> reservation_moves r2 r3 -> reservation_moves r1 r3.
Proof.
  intros [b1 [Hb1 H12]] [b2 [Hb2 H23]].
  destruct H12 as [-> | [Hact1 [s [Hs ->]]]].
  - (* r2 is the base of the first move *)
    destruct Hb1 as [-> | [Hact1 [Hext1 ->]]].
    + exists b2. now split.
    + destruct Hb2 as [-> | [_ [Hext2 _]]]; [|simpl in Hext2; discriminate].
      exists (extend_row (reservation_pickup_date r1 + 1) r1). split.
      * right. auto.
      * destruct H23 as [-> | [_ Hend]]; [now left | right; now split].
  - (* r2 is terminal: nothing moves it *)
    assert (Hdead : reservation_status (set_reservation_status s b1) <> "active")
      by (simpl; now apply terminal_not_active).
    destruct Hb2 as [-> | [Hact2 _]]; [|contradiction].
    destruct H23 as [-> | [Hact2 _]]; [|contradiction].
    exists b1. split; [assumption|]. right. split; [assumption|]. now exists s.
Qed.

Lemma copy_moves_refl (c : Copy) : copy_moves c c.
Proof. now left. Qed.

Lemma copy_moves_trans (c1 c2 c3 : Copy) :
  copy_moves c1 c2 -> copy_moves c2 c3 -> copy_moves c1 c3.
Proof.
  intros [-> | [s [Hs ->]]] H23; [exact H23|].
  destruct H23 as [-> | [s' [Hs' ->]]]; right; [now exists s | now exists s'].
Qed.

Lemma copy_moves_set (s : string) (c : Copy) :
  In s ["available"; "reserved"; "loaned"] -> copy_moves c (set_copy_status s c).
Proof. intros H. right. now exists s. Qed.

Lemma history_kept_refl (st : Store) : history_kept st st.
Proof.
  repeat split; try lia.
  - apply Forall2_refl_on, copy_moves_refl.
  - exists (loans st), []. rewrite app_nil_r. repeat split.
    + apply Forall2_refl_on, loan_moves_refl.
    + constructor.
  - exists (reservations st), []. rewrite app_nil_r. repeat split.
    + apply Forall2_refl_on, reservation_moves_refl.
    + constructor.
Qed.

Lemma history_kept_trans (st1 st2 st3 : Store) :
  history_kept st1 st2 -> history_kept st2 st3 -> history_kept st1 st3.
Proof.
  intros [Hu [Hlo [Hc [[ol [nl [Hl [Hol Hnl]]]] [[or [nr [Hr [Hor Hnr]]]] [Hsl Hsr]]]]]]
         [Hu' [Hlo' [Hc' [[ol' [nl' [Hl' [Hol' Hnl']]]]
                          [[or' [nr' [Hr' [Hor' Hnr']]]] [Hsl' Hsr']]]]]].
  split; [congruence|]. split; [congruence|].
  split; [exact (Forall2_trans_on _ _ _ _ copy_moves_trans Hc Hc')|].
  split; [|split; [|split; lia]].
  - rewrite Hl in Hol'. apply Forall2_app_inv_l in Hol'.
    destruct Hol' as [a [b [Ha [Hb ->]]]].
    exists a, (b ++ nl'). split; [now rewrite Hl', app_assoc|]. split.
    + exact (Forall2_trans_on _ _ _ _ loan_moves_trans Hol Ha).
    + apply Forall_app. split.
      * apply (Forall2_Forall loan_moves _ nl b); [|assumption|assumption].
        intros x y Hxy Hx. rewrite (loan_moves_id x y Hxy). exact Hx.
      * eapply Forall_impl; [|exact Hnl']. simpl. intros l H. lia.
  - rewrite Hr in Hor'. apply Forall2_app_inv_l in Hor'.
    destruct Hor' as [a [b [Ha [Hb ->]]]].
    exists a, (b ++ nr'). split; [now rewrite Hr', app_assoc|]. split.
    + exact (Forall2_trans_on _ _ _ _ reservation_moves_trans Hor Ha).
    + apply Forall_app. split.
      * apply (Forall2_Forall reservation_moves _ nr b); [|assumption|assumption].
        intros x y Hxy Hx. rewrite (reservation_moves_id x y Hxy). exact Hx.
      * eapply Forall_impl; [|exact Hnr']. simpl. intros r H. lia.
Qed.

Lemma history_kept_intro (st st' : Store) (nl : list Loan) (nr : list Reservation)
      (ol : list Loan) (orr : list Reservation) :
  users st' = users st -> locations st' = locations st ->
  Forall2 copy_moves (copies st) (copies st') ->
  loans st' = ol ++ nl -> Forall2 loan_moves (loans st) ol ->
  Forall (fun l => loans_id_seq st <= loan_id l) nl ->
  reservations st' = orr ++ nr -> Forall2 reservation_moves (reservations st) orr ->
  Forall (fun r => reservations_id_seq st <= reservation_id r) nr ->
  loans_id_seq st <= loans_id_seq st' ->
  reservations_id_seq st <= reservations_id_seq st' ->
  history_kept st st'.
Proof.
  intros. unfold history_kept. repeat split; auto.
  - exists ol, nl. auto.
  - exists orr, nr. auto.
Qed.

Lemma copies_saved (id : Z) (s : string) (cs : list Copy) :
  In s ["available"; "reserved"; "loaned"] ->
  Forall2 copy_moves cs (update_where (fun c => copy_id c =? id)
                                      (set_copy_status s) cs).
Proof.
  intros Hs. apply Forall2_update_where; [apply copy_moves_refl|].
  intros c _ _. now apply copy_moves_set.
Qed.

Lemma history_txn (st st' : Store) : keys st -> txn st st' -> history_kept st st'.
Proof.
  intros [_ [Hndl [Hndr _]]] Htxn.
  destruct Htxn as
    [ a b Ha Hb
    | p s q Hs Hp Hq
    | copy r Hin Hav Hfree Hact Hcopy _ _
    | copy l Hin Hav Hfree Hopen Hcopy
    | res copy l Hres Hact Hin Hid Hreserved Hfree Hopen Hcopy
    | loan today u Hin Hact
    | today
    | res Hres Hact Hext ].
  - apply (history_kept_intro _ _ [] [] (loans st) (reservations st));
      simpl; auto; try (now rewrite app_nil_r).
    + apply Forall2_refl_on, copy_moves_refl.
    + apply Forall2_refl_on, loan_moves_refl.
    + apply Forall2_refl_on, reservation_moves_refl.
  - apply (history_kept_intro _ _ [] [] (loans st)
             (update_where p (set_reservation_status s) (reservations st)));
      simpl; auto; try (now rewrite app_nil_r); try lia.
    + apply Forall2_update_where; [apply copy_moves_refl|].
      intros c _ _. apply copy_moves_set. now left.
    + apply Forall2_refl_on, loan_moves_refl.
    + apply Forall2_update_where; [apply reservation_moves_refl|].
      intros r Hr Hpr. exists r. split; [now left|]. right.
      split; [now apply Hp|]. exists s. split; [|reflexivity].
      destruct Hs as [-> | ->]; unfold terminal; auto.
  - apply (history_kept_intro _ _ []
             [set_reservation_id (reservations_id_seq st) r]
             (loans st) (reservations st));
      simpl; auto; try (now rewrite app_nil_r); try lia.
    + apply copies_saved. simpl. auto.
    + apply Forall2_refl_on, loan_moves_refl.
    + apply Forall2_refl_on, reservation_moves_refl.
    + constructor; [simpl; lia | constructor].
  - apply (history_kept_intro _ _ [set_loan_id (loans_id_seq st) l] []
             (loans st) (reservations st));
      simpl; auto; try (now rewrite app_nil_r); try lia.
    + apply copies_saved. simpl. auto.
    + apply Forall2_refl_on, loan_moves_refl.
    + constructor; [simpl; lia | constructor].
    + apply Forall2_refl_on, reservation_moves_refl.
  - apply (history_kept_intro _ _ [set_loan_id (loans_id_seq st) l] []
             (loans st)
             (update_where (fun r => reservation_id r =? reservation_id res)
                           (set_reservation_status "fulfilled") (reservations st)));
      simpl; auto; try (now rewrite app_nil_r); try lia.
    + apply copies_saved. simpl. auto.
    + apply Forall2_refl_on, loan_moves_refl.
    + constructor; [simpl; lia | constructor].
    + apply Forall2_update_where; [apply reservation_moves_refl|].
      intros r Hr Hpr. apply Z.eqb_eq in Hpr.
      rewrite (NoDup_key_inj reservation_id _ r res Hndr Hr Hres Hpr).
      exists res. split; [now left|]. right. split; [assumption|].
      exists "fulfilled". split; [unfold terminal; auto | reflexivity].
  - apply (history_kept_intro _ _ [] []
             (update_where (fun l => loan_id l =? loan_id loan)
                           (close_loan today u) (loans st))
             (reservations st));
      simpl; auto; try (now rewrite app_nil_r); try lia.
    + apply copies_saved. simpl. auto.
    + apply Forall2_update_where; [apply loan_moves_refl|].
      intros l Hl Hpl. apply Z.eqb_eq in Hpl.
      rewrite (NoDup_key_inj loan_id _ l loan Hndl Hl Hin Hpl).
      right. right. split; [assumption|]. now exists today, u.
    + apply Forall2_refl_on, reservation_moves_refl.
  - apply (history_kept_intro _ _ [] []
             (loans (fst (update_overdue_statuses today st))) (reservations st));
      simpl; auto; try (now rewrite app_nil_r); try lia.
    + apply Forall2_refl_on, copy_moves_refl.
    + apply Forall2_update_where; [apply loan_moves_refl|].
      intros l _ Hpl. apply andb_prop in Hpl. destruct Hpl as [Hpl _].
      apply String.eqb_eq in Hpl. right. left. now split.
    + apply Forall2_refl_on, reservation_moves_refl.
  - apply (history_kept_intro _ _ [] [] (loans st)
             (update_where (fun r => reservation_id r =? reservation_id res)
                           (extend_row (reservation_pickup_date res + 1))
                           (reservations st)));
      simpl; auto; try (now rewrite app_nil_r); try lia.
    + apply Forall2_refl_on, copy_moves_refl.
    + apply Forall2_refl_on, loan_moves_refl.
    + apply Forall2_update_where; [apply reservation_moves_refl|].
      intros r Hr Hpr. apply Z.eqb_eq in Hpr.
      rewrite (NoDup_key_inj reservation_id _ r res Hndr Hr Hres Hpr).
      exists (extend_row (reservation_pickup_date res + 1) res). split.
      * right. auto.
      * now left.
Qed.

Lemma history_txns (st st' : Store) : keys st -> txns st st' -> history_kept st st'.
Proof.
  intros Hk H. induction H as [|st st1 st2 Ht _ IH]; [apply history_kept_refl|].
  apply (history_kept_trans _ st1).
  - now apply history_txn.
  - apply IH. now apply (keys_txn st).
Qed.

Lemma history_reachable (st0 st : Store) :
  keys st0 -> reachable st0 st -> history_kept st0 st.
Proof.
  intros Hk Hreach. apply history_txns; [assumption|]. now apply txns_reachable.
Qed.

(** X3. The loans table is a history: calls of the engine operations, made
    one after another, never delete or reorder a loan, a loan only goes
    from [open] to [overdue] or is closed while [open] or [overdue] (its
    id, dates, copy and reader stay), and new loans are appended with ids
    from the sequence. *)
Theorem loans_history (st0 st : Store) :
  keys st0 -> reachable st0 st ->
  exists old new,
    loans st = old ++ new
    /\ Forall2 (fun l l' =>
                  l' = l
                  \/ (loan_status l = "open" /\ l' = set_loan_status "overdue" l)
                  \/ ((loan_status l = "open" \/ loan_status l = "overdue")
                      /\ exists today u, l' = close_loan today u l))
               (loans st0) old
    /\ Forall (fun l => loans_id_seq st0 <= loan_id l) new.
Proof.
  intros Hk Hreach.
  destruct (history_reachable st0 st Hk Hreach)
    as [_ [_ [_ [[old [new [Hl [Hold Hnew]]]] _]]]].
  exists old, new. split; [assumption|]. split; [|assumption].
  eapply Forall2_impl; [|exact Hold]. simpl.
  intros l l' [H | [H | [Hact H]]]; auto.
  right. right. split; [|assumption].
  unfold status_in in Hact. simpl in Hact.
  apply orb_true_iff in Hact. destruct Hact as [H1 | H1].
  - left. now apply String.eqb_eq.
  - rewrite orb_false_r in H1. right. now apply String.eqb_eq.
Qed.

(** X4. Over calls made one after another, each run to its end, the
    reservations table is a history: no reservation is deleted or
    reordered; an active reservation may be extended once, by one day, and
    may end as [fulfilled], [expired] or [cancelled]; a reservation that is
    not active is not changed by any such call; new ones are appended with
    ids from the sequence. *)
Theorem reservations_history (st0 st : Store) :
  keys st0 -> reachable st0 st ->
  exists old new,
    reservations st = old ++ new
    /\ Forall2 reservation_moves (reservations st0) old
    /\ Forall (fun r => reservations_id_seq st0 <= reservation_id r) new
    /\ forall r, In r (reservations st0) -> reservation_status r <> "active" ->
                 In r (reservations st).
Proof.
  intros Hk Hreach.
  destruct (history_reachable st0 st Hk Hreach)
    as [_ [_ [_ [_ [[old [new [Hr [Hold Hnew]]]] _]]]]].
  exists old, new. repeat split; auto.
  intros r Hin Hdead. rewrite Hr. apply in_or_app. left.
  clear Hr. induction Hold as [|x y l l' Hxy _ IH]; [destruct Hin|].
  destruct Hin as [-> | Hin]; [|right; now apply IH].
  left. destruct Hxy as [base [[-> | [Hact _]] [-> | [Hact' _]]]];
    try reflexivity; contradiction.
Qed.

(** X5. The engine operations never write users or locations and never add,
    drop or reorder copies; a copy keeps its id, inventory code, book and
    location, and the only statuses they write are [available], [reserved]
    and [loaned]. *)
Theorem copies_frame (st0 st : Store) :
  keys st0 -> reachable st0 st ->
  users st = users st0
  /\ locations st = locations st0
  /\ Forall2 (fun c c' =>
                copy_id c' = copy_id c
                /\ copy_inventory_code c' = copy_inventory_code c
                /\ copy_book_id c' = copy_book_id c
                /\ copy_location_id c' = copy_location_id c
                /\ (copy_status c' = copy_status c
                    \/ In (copy_status c') ["available"; "reserved"; "loaned"]))
             (copies st0) (copies st).
Proof.
  intros Hk Hreach.
  destruct (history_reachable st0 st Hk Hreach) as [Hu [Hl [Hc _]]].
  split; [assumption|]. split; [assumption|].
  eapply Forall2_impl; [|exact Hc]. simpl.
  intros c c' [-> | [s [Hs ->]]]; simpl; auto 10.
Qed.

Lemma keys_reachable (st0 st : Store) : keys st0 -> reachable st0 st -> keys st.
Proof.
  intros Hk Hreach. apply (keys_txns st0); [assumption|].
  now apply txns_reachable.
Qed.

Lemma history_keeps_inactive (st st' : Store) (r : Reservation) :
  history_kept st st' -> In r (reservations st) ->
  reservation_status r <> "active" -> In r (reservations st').
Proof.
  intros [_ [_ [_ [_ [[old [new [Hr [Hold _]]]] _]]]]] Hin Hdead.
  rewrite Hr. apply in_or_app. left.
  clear Hr. induction Hold as [|x y l l' Hxy _ IH]; [destruct Hin|].
  destruct Hin as [-> | Hin]; [|right; now apply IH].
  left. destruct Hxy as [base [[-> | [Hact _]] [-> | [Hact' _]]]];
    try reflexivity; contradiction.
Qed.

Lemma loan_moves_closed (l l' : Loan) :
  status_in (loan_status l) ["open"; "overdue"] = false ->
  loan_moves l l' -> l' = l.
Proof.
  intros Hd [-> | [[H _] | [H _]]]; [reflexivity | |];
    rewrite H in Hd; discriminate.
Qed.

Lemma history_keeps_closed (st st' : Store) (l : Loan) :
  history_kept st st' -> In l (loans st) ->
  status_in (loan_status l) ["open"; "overdue"] = false -> In l (loans st').
Proof.
  intros [_ [_ [_ [[old [new [Hl [Hold _]]]] _]]]] Hin Hdead.
  rewrite Hl. apply in_or_app. left. clear Hl.
  induction Hold as [|x y t t' Hxy _ IH]; [destruct Hin|].
  destruct Hin as [-> | Hin]; [|right; now apply IH].
  left. apply loan_moves_closed; assumption.
Qed.

Lemma expiry_txn (st st' : Store) :
  expiry_at_end_of_pickup_day st -> txn st st' -> expiry_at_end_of_pickup_day st'.
Proof.
  intros He Htxn r' Hr'.
  destruct Htxn as
    [ a b Ha Hb
    | p s q Hs Hp Hq
    | copy r Hin Hav Hfree Hact Hcopy Hext Hexp
    | copy l Hin Hav Hfree Hopen Hcopy
    | res copy l Hres Hact Hin Hid Hreserved Hfree Hopen Hcopy
    | loan today u Hin Hact
    | today
    | res Hres Hact Hext ]; simpl in Hr'.
  - now apply He.
  - apply update_where_in in Hr'. destruct Hr' as [r [Hr ->]].
    specialize (He r Hr). now destruct (p r).
  - apply in_app_or in Hr'. destruct Hr' as [Hr' | [<- | []]];
      [now apply He | exact Hexp].
  - now apply He.
  - apply update_where_in in Hr'. destruct Hr' as [r [Hr ->]].
    specialize (He r Hr). now destruct (_ =? _).
  - now apply He.
  - now apply He.
  - apply update_where_in in Hr'. destruct Hr' as [r [Hr ->]].
    specialize (He r Hr). now destruct (_ =? _).
Qed.

(** X6. When every reservation expires at 23:59:59 of its pickup date,
    this is still so after any calls of the engine operations: creation
    and extension keep the two columns in step. *)
Theorem expiry_follows_pickup_date (st0 st : Store) :
  keys st0 ->
  (forall r, In r (reservations st0) ->
             reservation_expires_at r
             = mk_datetime (reservation_pickup_date r) (mk_time 23 59 59 0)) ->
  reachable st0 st ->
  forall r, In r (reservations st) ->
            reservation_expires_at r
            = mk_datetime (reservation_pickup_date r) (mk_time 23 59 59 0).
Proof.
  intros Hk He Hreach.
  assert (H := txns_reachable st0 st Hk Hreach).
  change (expiry_at_end_of_pickup_day st).
  change (expiry_at_end_of_pickup_day st0) in He.
  clear Hk Hreach. induction H as [|st st1 st2 Ht _ IH]; [assumption|].
  apply IH. now apply (expiry_txn st).
Qed.

(** A row that is not active goes through the sweep as it is. *)
Lemma sweep_keeps_inactive (now : datetime) (st : Store) (r : Reservation) :
  keys st -> In r (reservations st) -> reservation_status r <> "active" ->
  get_or_none (fun x => reservation_id x =? reservation_id r)
              (reservations (fst (expire_old_reservations now st))) = Some r.
Proof.
  intros Hk Hin Hdead.
  assert (Ht := txn_expire now st Hk).
  assert (Hk1 := keys_txn _ _ Hk Ht).
  destruct Hk1 as [_ [_ [Hnd _]]].
  apply get_by_key_unique; [assumption|].
  apply (history_keeps_inactive st); [now apply history_txn | assumption..].
Qed.

(** X7. A reservation that is fulfilled, expired or cancelled stays so
    over calls made one after another: in every store reached by engine
    operations, each run to its end, its row is unchanged, a cancel or an
    extend for it is refused (as not the caller's, or as no longer active),
    so is a fulfilment (as not active, or as not found when its copy row is
    gone), and each such call changes nothing beyond the expiry sweep it
    starts with. *)
Theorem finished_reservation_refused (st0 st : Store) (r : Reservation) :
  keys st0 -> In r (reservations st0) -> reservation_status r <> "active" ->
  reachable st0 st ->
  forall today now user days,
    let st1 := fst (expire_old_reservations now st) in
    In r (reservations st) /\ In r (reservations st1)
    /\ (exists m, cancel_reservation now user (reservation_id r) st
                  = (st1, Ret (false, m))
                  /\ (m = MsgNotYourReservation \/ m = MsgReservationNoLongerActive))
    /\ (exists m, extend_reservation now user (reservation_id r) st
                  = (st1, Ret (false, m))
                  /\ (m = MsgNotYourReservation \/ m = MsgReservationNoLongerActive))
    /\ (exists m, fulfill_reservation today now user (reservation_id r) days st
                  = (st1, Ret (false, m))
                  /\ (m = MsgReservationNotFound \/ m = MsgReservationNotActive)).
Proof.
  intros Hk0 Hin0 Hdead Hreach today now user days st1.
  assert (Hk : keys st) by (now apply (keys_reachable st0)).
  assert (Hin : In r (reservations st)).
  { apply (history_keeps_inactive st0); [now apply history_reachable | assumption..]. }
  assert (Hget := sweep_keeps_inactive now st r Hk Hin Hdead).
  fold st1 in Hget.
  assert (Hst : negb (reservation_status r =? "active")%string = true).
  { apply negb_true_iff. now apply String.eqb_neq. }
  split; [assumption|].
  split; [apply get_or_none_some in Hget; tauto|].
  split; [|split].
  - assert (Hrun := cancel_reservation_run now user (reservation_id r) st).
    cbv zeta in Hrun. fold st1 in Hrun. rewrite Hget in Hrun.
    destruct (negb (reservation_reader_id r =? user_id user));
      [eexists; split; [exact Hrun | now left]|].
    rewrite Hst in Hrun. eexists; split; [exact Hrun | now right].
  - assert (Hrun := extend_reservation_run now user (reservation_id r) st).
    cbv zeta in Hrun. fold st1 in Hrun. rewrite Hget in Hrun.
    destruct (negb (reservation_reader_id r =? user_id user));
      [eexists; split; [exact Hrun | now left]|].
    rewrite Hst in Hrun. eexists; split; [exact Hrun | now right].
  - unfold fulfill_reservation. fold st1.
    assert (Hk1 : keys st1) by (apply (keys_txn st); [assumption | now apply txn_expire]).
    destruct Hk1 as [_ [_ [Hnd _]]].
    destruct (get_or_none (fun r0 => reservation_id r0 =? reservation_id r)
                (filter (fun r0 => existsb (fun c => copy_id c =? reservation_copy_id r0)
                                           (copies st1))
                        (reservations st1))) as [res|] eqn:Hres.
    + exists MsgReservationNotActive. split; [|now right].
      apply atomic_ret. rewrite Hres.
      apply get_or_none_some in Hres. destruct Hres as [Hres Hid].
      apply filter_In in Hres. destruct Hres as [Hres _].
      apply Z.eqb_eq in Hid. apply get_or_none_some in Hget.
      destruct Hget as [Hr1 _].
      rewrite (NoDup_key_inj reservation_id _ res r Hnd Hres Hr1 Hid).
      now rewrite Hst.
    + exists MsgReservationNotFound. split; [|now left].
      apply atomic_ret. now rewrite Hres.
Qed.

(** X8. A loan that is neither open nor overdue stays as it is: in every
    store reached by engine operations, run one after another, its row is
    unchanged, and a return of it is refused with the message that names
    its status, leaving the store as it was. *)
Theorem closed_loan_refused (st0 st : Store) (l : Loan) :
  keys st0 -> In l (loans st0) ->
  status_in (loan_status l) ["open"; "overdue"] = false ->
  reachable st0 st ->
  In l (loans st)
  /\ forall today librarian,
       return_loan today (loan_id l) librarian st
       = (st, Ret (false, MsgCannotReturn (loan_status l))).
Proof.
  intros Hk0 Hin0 Hdead Hreach.
  assert (Hk : keys st) by (now apply (keys_reachable st0)).
  assert (Hin : In l (loans st)).
  { apply (history_keeps_closed st0); [now apply history_reachable | assumption..]. }
  split; [assumption|].
  intros today librarian.
  assert (Hrun := return_loan_run today (loan_id l) librarian st).
  destruct Hk as [_ [Hnd _]].
  rewrite (get_by_key_unique loan_id _ l Hnd Hin) in Hrun.
  now rewrite Hdead in Hrun.
Qed.

(** * Round trips *)

Lemma update_where_undo {A} (p q : A -> bool) (f g : A -> A) (rows : list A) :
  (forall x, In x rows -> p x = true -> q (f x) = true /\ g (f x) = x) ->
  (forall x, In x rows -> p x = false -> q x = false) ->
  update_where q g (update_where p f rows) = rows.
Proof.
  intros Hp Hq. unfold update_where. rewrite map_map.
  rewrite <- (map_id rows) at 2. apply map_ext_in. intros x Hx.
  destruct (p x) eqn:E.
  - destruct (Hp x Hx E) as [H1 H2]. now rewrite H1.
  - now rewrite (Hq x Hx E).
Qed.

Lemma update_where_snoc_fresh {A} (key : A -> Z) (f : A -> A) (rows : list A)
      (r : A) :
  (forall x, In x rows -> key x <> key r) ->
  update_where (fun x => key x =? key r) f (rows ++ [r]) = rows ++ [f r].
Proof.
  intros Hfresh. unfold update_where. rewrite map_app. simpl.
  rewrite Z.eqb_refl. f_equal.
  rewrite <- (map_id rows) at 2. apply map_ext_in. intros x Hx.
  destruct (Z.eqb_spec (key x) (key r)) as [E|]; [|reflexivity].
  now apply Hfresh in Hx.
Qed.

Lemma get_snoc_fresh {A} (key : A -> Z) (rows : list A) (r : A) :
  (forall x, In x rows -> key x <> key r) ->
  get_or_none (fun x => key x =? key r) (rows ++ [r]) = Some r.
Proof.
  intros Hfresh. unfold get_or_none.
  induction rows as [|x rows IH]; simpl.
  - now rewrite Z.eqb_refl.
  - destruct (Z.eqb_spec (key x) (key r)) as [E|].
    + exfalso. apply (Hfresh x); [now left | assumption].
    + apply IH. intros y Hy. apply Hfresh. now right.
Qed.

Lemma set_copy_status_back (s : string) (c : Copy) :
  set_copy_status (copy_status c) (set_copy_status s c) = c.
Proof. now destruct c. Qed.

(** Writing a status to the one row of a copy and then its old status
    again gives the table back. *)
Lemma copies_undo (q : Copy -> bool) (s : string) (cs : list Copy) (c : Copy) :
  NoDup (map copy_id cs) -> In c cs ->
  q (set_copy_status s c) = true ->
  (forall x, q x = true -> copy_id x = copy_id c) ->
  update_where q (set_copy_status (copy_status c))
    (update_where (fun x => copy_id x =? copy_id c) (set_copy_status s) cs) = cs.
Proof.
  intros Hnd Hin Hq Hid. apply update_where_undo.
  - intros x Hx E. apply Z.eqb_eq in E.
    rewrite (NoDup_key_inj copy_id _ x c Hnd Hx Hin E).
    split; [assumption | apply set_copy_status_back].
  - intros x Hx E. destruct (q x) eqn:Hqx; [|reflexivity].
    apply Hid in Hqx. apply Z.eqb_neq in E. contradiction.
Qed.

(** X9. Lending a copy and taking it back restores the copies table: on a
    store with unique keys, the loan just issued can be returned at once by
    a librarian who is a user; the store is then the one before the loan
    with one more loan row, now [returned], and a second return of that
    loan is refused. *)
Theorem issue_then_return (today : date) (code login : string) (librarian : User)
        (st st' : Store) (lid : Z) (due : date)
        (today2 : date) (librarian2 : User) :
  keys st ->
  (exists u, In u (users st) /\ user_id u = user_id librarian2) ->
  issue_loan today code login librarian st
  = (st', Ret (true, MsgLoanIssued lid due)) ->
  exists st'' row,
    return_loan today2 lid librarian2 st' = (st'', Ret (true, MsgReturned))
    /\ copies st'' = copies st
    /\ loans st'' = loans st ++ [row]
    /\ reservations st'' = reservations st
    /\ loan_id row = lid
    /\ loan_status row = "returned"
    /\ loan_start_date row = today
    /\ loan_due_date row = due
    /\ loan_return_date row = Some today2
    /\ loan_librarian_id row = user_id librarian2
    /\ forall today3 librarian3,
         return_loan today3 lid librarian3 st''
         = (st'', Ret (false, MsgCannotReturn "returned")).
Proof.
  intros [Hndc [_ [_ [Hlt _]]]] Hknown H.
  apply issue_loan_success in H.
  destruct H as [copy [reader [_ [Hcopy [Hav [_ [Hm ->]]]]]]].
  injection Hm as -> ->.
  apply get_or_none_some in Hcopy. destruct Hcopy as [Hcopy _].
  set (new := mk_Loan (loans_id_seq st) "open" today (today + 14) None
                      (copy_id copy) (user_id reader) (user_id librarian)).
  assert (Hfresh : forall x, In x (loans st) -> loan_id x <> loan_id new).
  { intros x Hx. apply Hlt in Hx. simpl. lia. }
  set (st' := save_copy_status _ _ _).
  assert (Hlib : is_user (user_id librarian2) st' = true)
    by (apply is_user_spec; exact Hknown).
  assert (Hloans : loans st' = loans st ++ [new]) by reflexivity.
  assert (Hget : get_or_none (fun l => loan_id l =? loans_id_seq st) (loans st')
                 = Some new).
  { rewrite Hloans. exact (get_snoc_fresh loan_id (loans st) new Hfresh). }
  assert (Hrow : exists c, get_or_none (fun c => copy_id c =? loan_copy_id new)
                                       (copies st') = Some c).
  { apply (get_or_none_exists _ _ (set_copy_status "loaned" copy)).
    - assert (Hup := in_update_where (fun c => copy_id c =? copy_id copy)
                                     (set_copy_status "loaned") copy (copies st)
                                     Hcopy).
      cbv beta in Hup. rewrite Z.eqb_refl in Hup. exact Hup.
    - simpl. apply Z.eqb_refl. }
  destruct Hrow as [c Hc].
  assert (Hrun := return_loan_run today2 (loans_id_seq st) librarian2 st').
  rewrite Hget in Hrun.
  change (negb (status_in (loan_status new) ["open"; "overdue"])) with false in Hrun.
  cbv iota in Hrun. rewrite Hlib in Hrun. cbn [negb] in Hrun. rewrite Hc in Hrun.
  set (st'' := save_copy_status (loan_copy_id new) "available"
                 (with_loans st'
                    (update_where (fun l => loan_id l =? loan_id new)
                                  (close_loan today2 librarian2) (loans st'))))
    in *.
  assert (Hl : loans st'' = loans st ++ [close_loan today2 librarian2 new]).
  { unfold st'', save_copy_status. cbn [loans with_copies with_loans].
    rewrite Hloans.
    exact (update_where_snoc_fresh loan_id _ (loans st) new Hfresh). }
  exists st'', (close_loan today2 librarian2 new).
  split; [exact Hrun|].
  split.
  { unfold st'', save_copy_status. cbn [copies with_copies with_loans].
    unfold st', save_copy_status. cbn [copies with_copies with_loans].
    change (loan_copy_id new) with (copy_id copy).
    rewrite <- Hav.
    apply copies_undo; try assumption.
    - simpl. apply Z.eqb_refl.
    - intros x Hx. now apply Z.eqb_eq. }
  split; [exact Hl|].
  repeat (split; [reflexivity|]).
  intros today3 librarian3.
  assert (Hrun3 := return_loan_run today3 (loans_id_seq st) librarian3 st'').
  rewrite Hl in Hrun3.
  change (loans_id_seq st) with (loan_id (close_loan today2 librarian2 new))
    in Hrun3 at 1.
  rewrite (get_snoc_fresh loan_id) in Hrun3; [exact Hrun3|].
  intros x Hx. apply Hlt in Hx. simpl. lia.
Qed.

(** What a successful [create_reservation] has done. *)
Lemma create_reservation_success (today : date) (now : datetime) (reader : User)
      (book_id branch_id : Z) (pickup : date) (st st' : Store) (m : Msg)
      (o : option Z) :
  create_reservation today now reader book_id branch_id pickup st
  = (st', Ret (true, m, o)) ->
  let st1 := fst (expire_old_reservations now st) in
  exists c,
    today <= pickup <= today + 3
    /\ first (order_by_id_asc (available_copies st1 book_id branch_id)) = Some c
    /\ m = MsgReservationCreated pickup
    /\ o = Some (reservations_id_seq st1)
    /\ st' = with_reservations
               (with_seqs (save_copy_status (copy_id c) "reserved" st1)
                          (loans_id_seq st1) (reservations_id_seq st1 + 1))
               (reservations st1
                ++ [mk_Reservation (reservations_id_seq st1) "active" pickup
                                   (_end_of_day pickup) false
                                   (user_id reader) (copy_id c) branch_id]).
Proof.
  intros H st1.
  destruct (create_reservation_run today now reader book_id branch_id pickup st)
    as [[_ E] | [Hrange [[_ E] | [c [Hfirst [[_ E] | [_ [_ E]]]]]]]];
    fold st1 in E; rewrite E in H; try discriminate.
  exists c. injection H as <- <- <-. auto.
Qed.

(** X10. Reserving and cancelling restores the copies table: on a store with
    unique keys, when the reader cancels the reservation just made before
    any reservation has run out, the cancel succeeds and the store is the
    one the create's sweep left, with one more reservation row, now
    [cancelled], and the sequence one further. *)
Theorem create_then_cancel (today : date) (now : datetime) (reader : User)
        (book_id branch_id : Z) (pickup : date) (st st' : Store) (m : Msg)
        (rid : Z) (now2 : datetime) :
  keys st ->
  create_reservation today now reader book_id branch_id pickup st
  = (st', Ret (true, m, Some rid)) ->
  (forall r, In r (reservations st') -> stale now2 r = false) ->
  let st1 := fst (expire_old_reservations now st) in
  exists st'' row,
    cancel_reservation now2 reader rid st' = (st'', Ret (true, MsgReservationCancelled))
    /\ copies st'' = copies st1
    /\ reservations st'' = reservations st1 ++ [row]
    /\ loans st'' = loans st1
    /\ reservation_id row = rid
    /\ reservation_status row = "cancelled"
    /\ reservation_pickup_date row = pickup
    /\ reservation_reader_id row = user_id reader.
Proof.
  intros Hk H Hfresh st1.
  assert (Hk1 : keys st1) by (apply (keys_txn st); [assumption | now apply txn_expire]).
  destruct Hk1 as [Hndc [_ [_ [_ Hlt]]]].
  apply create_reservation_success in H. fold st1 in H.
  destruct H as [c [_ [Hfirst [_ [Hrid ->]]]]]. injection Hrid as ->.
  apply first_order_by_id_asc in Hfirst. destruct Hfirst as [Hin _].
  apply available_copies_in in Hin. destruct Hin as [Hc [Hav _]].
  set (new := mk_Reservation (reservations_id_seq st1) "active" pickup
                             (_end_of_day pickup) false (user_id reader)
                             (copy_id c) branch_id) in *.
  set (st' := with_reservations _ _) in *.
  assert (Hnew : forall x, In x (reservations st1) ->
                           reservation_id x <> reservation_id new).
  { intros x Hx. apply Hlt in Hx. simpl. lia. }
  assert (Hrun := cancel_reservation_run now2 reader (reservations_id_seq st1) st').
  cbv zeta in Hrun. rewrite (expire_nothing_stale now2 st' Hfresh) in Hrun.
  cbn [fst] in Hrun.
  assert (Hget : get_or_none (fun r => reservation_id r =? reservations_id_seq st1)
                              (reservations st') = Some new)
    by exact (get_snoc_fresh reservation_id (reservations st1) new Hnew).
  rewrite Hget in Hrun.
  change (reservation_reader_id new) with (user_id reader) in Hrun.
  rewrite Z.eqb_refl in Hrun.
  change (negb (reservation_status new =? "active")%string) with false in Hrun.
  cbv iota in Hrun. cbn [negb] in Hrun.
  eexists. exists (set_reservation_status "cancelled" new).
  split; [exact Hrun|].
  split.
  { cbn [copies with_copies]. unfold st', save_copy_status.
    cbn [copies with_copies with_reservations with_seqs].
    change (reservation_copy_id new) with (copy_id c).
    rewrite <- Hav.
    apply copies_undo; try assumption.
    - simpl. now rewrite Z.eqb_refl.
    - intros x Hx. apply andb_true_iff in Hx. destruct Hx as [Hx _].
      now apply Z.eqb_eq. }
  split.
  { cbn [reservations with_copies with_reservations].
    exact (update_where_snoc_fresh reservation_id _ (reservations st1) new Hnew). }
  repeat split.
Qed.

(** X11. The last copy goes to one reader: when exactly one copy of the book
    is available at the branch and a reservation takes it, a further
    request for that book and branch finds no free copy and leaves the
    store unchanged, as long as no reservation has run out in between. *)
Theorem last_copy_reserved_once (today : date) (now : datetime) (reader : User)
        (book_id branch_id : Z) (pickup : date) (st st' : Store) (m : Msg)
        (rid : Z) (c : Copy) :
  available_copies (fst (expire_old_reservations now st)) book_id branch_id = [c] ->
  create_reservation today now reader book_id branch_id pickup st
  = (st', Ret (true, m, Some rid)) ->
  forall today2 now2 reader2 pickup2,
    today2 <= pickup2 <= today2 + 3 ->
    (forall r, In r (reservations st') -> stale now2 r = false) ->
    create_reservation today2 now2 reader2 book_id branch_id pickup2 st'
    = (st', Ret (false, MsgNoFreeCopies, None)).
Proof.
  intros Hone H today2 now2 reader2 pickup2 Hrange Hfresh.
  apply create_reservation_success in H.
  set (st1 := fst (expire_old_reservations now st)) in *. cbv zeta in H.
  destruct H as [c' [_ [Hfirst [_ [_ ->]]]]].
  rewrite Hone in Hfirst. injection Hfirst as <-.
  set (st' := with_reservations _ _) in *.
  assert (Hnone : available_copies st' book_id branch_id = []).
  2:{ destruct (create_reservation_run today2 now2 reader2 book_id branch_id
                                       pickup2 st')
        as [[Hout _] | [_ [[_ E] | [c' [Hfirst _]]]]]; [lia | |];
        rewrite (expire_nothing_stale now2 st' Hfresh) in *; cbn [fst] in *.
      - exact E.
      - rewrite Hnone in Hfirst. discriminate. }
  unfold available_copies. apply filter_nil. intros x Hx.
  change (copies st') with (update_where (fun x => copy_id x =? copy_id c)
                                         (set_copy_status "reserved") (copies st1))
    in Hx.
  apply update_where_in in Hx. destruct Hx as [y [Hy ->]].
  destruct (copy_id y =? copy_id c) eqn:E.
  - simpl. now rewrite andb_false_r.
  - destruct ((copy_book_id y =? book_id) && (copy_status y =? "available")%string
              && at_branch st' branch_id y) eqn:Hf; [|reflexivity].
    exfalso.
    assert (Hyc : In y (available_copies st1 book_id branch_id)).
    { unfold available_copies. apply filter_In. split; [assumption|].
      exact Hf. }
    rewrite Hone in Hyc. destruct Hyc as [<- | []].
    now rewrite Z.eqb_refl in E.
Qed.

(** * The life of one reservation *)

Lemma created_copy_was_free (today : date) (now : datetime) (reader : User)
      (book_id branch_id : Z) (pickup : date) (st st' : Store) (m : Msg)
      (o : option Z) (c : Copy) :
  create_reservation today now reader book_id branch_id pickup st
  = (st', Ret (true, m, o)) ->
  let st1 := fst (expire_old_reservations now st) in
  first (order_by_id_asc (available_copies st1 book_id branch_id)) = Some c ->
  existsb (reservation_holds (copy_id c)) (reservations st1) = false.
Proof.
  intros H. cbv zeta. intros Hc.
  destruct (create_reservation_run today now reader book_id branch_id pickup st)
    as [[_ E] | [Hrange [[_ E] | [c' [Hfirst [[_ E] | [Hfree _]]]]]]];
    try (rewrite E in H; discriminate).
  rewrite Hc in Hfirst. now injection Hfirst as <-.
Qed.

(** 23:59:59 is passed only by the last second's later microseconds. *)
Lemma end_of_day_passed (d : date) (now : datetime) :
  hour (dt_time now) <= 23 -> minute (dt_time now) <= 59 ->
  second (dt_time now) <= 59 ->
  dt_ltb (_end_of_day d) now = true
  <-> d < dt_date now
      \/ (d = dt_date now /\ hour (dt_time now) = 23 /\ minute (dt_time now) = 59
          /\ second (dt_time now) = 59 /\ 0 < microsecond (dt_time now)).
Proof.
  intros Hh Hm Hs. unfold dt_ltb, time_ltb, _end_of_day, combine.
  cbn [dt_date dt_time hour minute second microsecond].
  repeat match goal with
         | |- context [?a <? ?b] => destruct (Z.ltb_spec a b)
         | |- context [?a =? ?b] => destruct (Z.eqb_spec a b)
         end;
    cbn [orb andb];
    (split; [intros; try discriminate; lia | intros; try reflexivity; lia]).
Qed.

Lemma expire_row_id (now : datetime) (r : Reservation) :
  reservation_id (expire_row now r) = reservation_id r.
Proof. unfold expire_row. now destruct (stale now r). Qed.

(** X12. How long a new reservation lasts.  After a successful
    [create_reservation] for pickup date [pickup], a sweep at a valid clock
    reading [now2] leaves the reservation active and its copy reserved up to
    23:59:59.000000 of the pickup date; from the next microsecond on it
    expires the reservation and makes the copy available again. *)
Theorem new_reservation_lifetime (today : date) (now : datetime) (reader : User)
        (book_id branch_id : Z) (pickup : date) (st st' : Store) (m : Msg)
        (rid : Z) (now2 : datetime) :
  keys st ->
  create_reservation today now reader book_id branch_id pickup st
  = (st', Ret (true, m, Some rid)) ->
  hour (dt_time now2) <= 23 -> minute (dt_time now2) <= 59 ->
  second (dt_time now2) <= 59 ->
  let late :=
    pickup < dt_date now2
    \/ (pickup = dt_date now2 /\ hour (dt_time now2) = 23
        /\ minute (dt_time now2) = 59 /\ second (dt_time now2) = 59
        /\ 0 < microsecond (dt_time now2)) in
  let st'' := fst (expire_old_reservations now2 st') in
  exists row,
    get_or_none (fun r => reservation_id r =? rid) (reservations st'') = Some row
    /\ reservation_pickup_date row = pickup
    /\ reservation_reader_id row = user_id reader
    /\ (late ->
        reservation_status row = "expired"
        /\ forall c, In c (copies st'') -> copy_id c = reservation_copy_id row ->
                     copy_status c = "available")
    /\ (~ late ->
        reservation_status row = "active"
        /\ forall c, In c (copies st'') -> copy_id c = reservation_copy_id row ->
                     copy_status c = "reserved").
Proof.
  intros Hk H Hh Hm Hs late st''.
  assert (Hk' : keys st').
  { replace st' with (fst (create_reservation today now reader book_id branch_id
                                              pickup st)) by now rewrite H.
    apply (keys_txns st); [assumption | now apply txns_create]. }
  set (st1 := fst (expire_old_reservations now st)).
  assert (Hk1 : keys st1) by (apply (keys_txn st); [assumption | now apply txn_expire]).
  destruct Hk1 as [_ [_ [_ [_ Hlt]]]].
  assert (Hs' := create_reservation_success _ _ _ _ _ _ _ _ _ _ H).
  cbv zeta in Hs'. fold st1 in Hs'.
  destruct Hs' as [c [_ [Hfirst [_ [Hrid E]]]]]. injection Hrid as ->.
  assert (Hfree := created_copy_was_free _ _ _ _ _ _ _ _ _ _ c H Hfirst).
  fold st1 in Hfree.
  set (new := mk_Reservation (reservations_id_seq st1) "active" pickup
                             (_end_of_day pickup) false (user_id reader)
                             (copy_id c) branch_id) in *.
  assert (Hrs : reservations st' = reservations st1 ++ [new]) by now rewrite E.
  assert (Hcs : copies st' = update_where (fun x => copy_id x =? copy_id c)
                                          (set_copy_status "reserved") (copies st1))
    by now rewrite E.
  destruct Hk' as [_ [_ [Hndr _]]].
  destruct (expire_old_reservations_rows now2 st' Hndr) as [Hr Hc].
  fold st'' in Hr, Hc.
  assert (Hstale : stale now2 new = true <-> late).
  { unfold stale. simpl. now apply end_of_day_passed. }
  exists (expire_row now2 new).
  split.
  { rewrite Hr, Hrs, map_app. simpl.
    assert (Hnew : forall x, In x (map (expire_row now2) (reservations st1)) ->
                             reservation_id x <> reservation_id (expire_row now2 new)).
    { intros x Hx. apply in_map_iff in Hx. destruct Hx as [y [<- Hy]].
      rewrite !expire_row_id. apply Hlt in Hy. simpl. lia. }
    assert (Hget := get_snoc_fresh reservation_id _ _ Hnew).
    rewrite expire_row_id in Hget. exact Hget. }
  assert (Hcopy : forall x, In x (copies st'') -> copy_id x = copy_id c ->
                  x = if stale now2 new then set_copy_status "available"
                                               (set_copy_status "reserved" x)
                      else set_copy_status "reserved" x).
  { intros x Hx Hid. rewrite Hc in Hx. apply in_map_iff in Hx.
    destruct Hx as [y [<- Hy]]. rewrite Hcs in Hy.
    apply update_where_in in Hy. destruct Hy as [z [Hz ->]].
    assert (Hzid : (copy_id z =? copy_id c) = true).
    { apply Z.eqb_eq. unfold release_row in Hid.
      destruct (copy_id z =? copy_id c) eqn:Ez; [now apply Z.eqb_eq in Ez|].
      destruct (_ && _) in Hid; simpl in Hid; rewrite Hid in Ez;
        now rewrite Z.eqb_refl in Ez. }
    rewrite Hzid. unfold release_row. cbn [copy_status set_copy_status copy_id].
    apply Z.eqb_eq in Hzid. rewrite Hrs, existsb_app. cbn [existsb].
    change (reservation_copy_id new) with (copy_id c).
    rewrite Hzid, Z.eqb_refl, andb_true_r, orb_false_r.
    destruct (existsb (fun r => stale now2 r
                                && (reservation_copy_id r =? copy_id c))
                      (reservations st1)) eqn:Eex.
    - exfalso. apply existsb_exists in Eex. destruct Eex as [r [Hrin Er]].
      apply andb_true_iff in Er. destruct Er as [Er1 Er2].
      unfold stale in Er1. apply andb_true_iff in Er1. destruct Er1 as [Er1 _].
      assert (Hh' : existsb (reservation_holds (copy_id c)) (reservations st1) = true).
      { apply existsb_exists. exists r. split; [assumption|].
        unfold reservation_holds. now rewrite Er2, Er1. }
      rewrite Hfree in Hh'. discriminate.
    - cbn [orb]. change ("reserved" =? "reserved")%string with true. cbn [andb].
      now destruct (stale now2 new). }
  split; [unfold expire_row; now destruct (stale now2 new)|].
  split; [unfold expire_row; now destruct (stale now2 new)|].
  split.
  - intros Hlate. apply Hstale in Hlate. unfold expire_row. rewrite Hlate.
    split; [reflexivity|]. intros x Hx Hid. simpl in Hid.
    rewrite (Hcopy x Hx Hid), Hlate. reflexivity.
  - intros Hearly.
    assert (Hnot : stale now2 new = false).
    { destruct (stale now2 new) eqn:Es; [|reflexivity].
      exfalso. apply Hearly. now apply Hstale. }
    unfold expire_row. rewrite Hnot.
    split; [reflexivity|]. intros x Hx Hid. simpl in Hid.
    rewrite (Hcopy x Hx Hid), Hnot. reflexivity.
Qed.

Lemma update_where_twice {A} (p : A -> bool) (f g : A -> A) (rows : list A) :
  (forall x, p (f x) = p x) -> (forall x, g (f x) = g x) ->
  update_where p g (update_where p f rows) = update_where p g rows.
Proof.
  intros Hp Hg. unfold update_where. rewrite map_map. apply map_ext.
  intros x. destruct (p x) eqn:E.
  - now rewrite Hp, E, Hg.
  - now rewrite E.
Qed.

(** X13. From pickup to return.  On a store with unique keys, the loan that a
    successful [fulfill_reservation] opens takes the next loan id and can be
    returned by a librarian who is a user; afterwards the reservation is
    [fulfilled], the loan is [returned] with the reservation's reader and
    copy, and the copy is [available] again. *)
Theorem fulfill_then_return (today : date) (now : datetime) (librarian : User)
        (rid loan_days : Z) (st st' : Store) (due : date)
        (today2 : date) (librarian2 : User) :
  keys st ->
  (exists u, In u (users st) /\ user_id u = user_id librarian2) ->
  fulfill_reservation today now librarian rid loan_days st
  = (st', Ret (true, MsgFulfilled due)) ->
  let st1 := fst (expire_old_reservations now st) in
  exists st'' res,
    get_or_none (fun r => reservation_id r =? rid) (reservations st1) = Some res
    /\ return_loan today2 (loans_id_seq st) librarian2 st'
       = (st'', Ret (true, MsgReturned))
    /\ loans st''
       = loans st ++ [mk_Loan (loans_id_seq st) "returned" today due (Some today2)
                              (reservation_copy_id res)
                              (reservation_reader_id res) (user_id librarian2)]
    /\ reservations st''
       = map (fun r => if reservation_id r =? rid
                       then set_reservation_status "fulfilled" r else r)
             (reservations st1)
    /\ copies st''
       = map (fun c => if copy_id c =? reservation_copy_id res
                       then set_copy_status "available" c else c) (copies st1).
Proof.
  intros Hk Hknown H st1.
  assert (Hk1 : keys st1) by (apply (keys_txn st); [assumption | now apply txn_expire]).
  destruct Hk1 as [_ [_ [Hndr [Hlt _]]]].
  destruct (sequences_after_sweep now st) as [Hls [Hseq _]]. fold st1 in Hls, Hseq.
  destruct (fulfill_reservation_run today now librarian rid loan_days st)
    as [[m [E _]] | [res [copy [Hf E]]]]; rewrite E in H; [discriminate|].
  fold st1 in Hf, H.
  destruct (add_days today loan_days) as [d|]; [|discriminate].
  destruct (negb (is_user (reservation_reader_id res) st1)); [discriminate|].
  destruct (negb (is_user (user_id librarian) st1)); [discriminate|].
  injection H as <- <-.
  destruct Hf as [Hres [_ [Hcopy _]]].
  apply get_or_none_some in Hres. destruct Hres as [Hres Hrid].
  apply filter_In in Hres. destruct Hres as [Hres _]. apply Z.eqb_eq in Hrid.
  apply get_or_none_some in Hcopy. destruct Hcopy as [Hcopy Hcid].
  apply Z.eqb_eq in Hcid.
  set (new := mk_Loan (loans_id_seq st1) "open" today d None
                      (copy_id copy) (reservation_reader_id res)
                      (user_id librarian)) in *.
  set (st' := save_copy_status _ _ _) in *.
  assert (Hlib : is_user (user_id librarian2) st' = true).
  { change (is_user (user_id librarian2) st1 = true). unfold st1.
    rewrite is_user_after_sweep. now apply is_user_spec. }
  assert (Hfresh : forall x, In x (loans st1) -> loan_id x <> loan_id new).
  { intros x Hx. apply Hlt in Hx. simpl. lia. }
  assert (Hget : get_or_none (fun l => loan_id l =? loans_id_seq st) (loans st')
                 = Some new).
  { rewrite <- Hseq. exact (get_snoc_fresh loan_id (loans st1) new Hfresh). }
  assert (Hrow : exists c, get_or_none (fun c => copy_id c =? loan_copy_id new)
                                       (copies st') = Some c).
  { apply (get_or_none_exists _ _ (set_copy_status "loaned" copy)).
    - assert (Hup := in_update_where (fun c => copy_id c =? copy_id copy)
                                     (set_copy_status "loaned") copy (copies st1)
                                     Hcopy).
      cbv beta in Hup. rewrite Z.eqb_refl in Hup. exact Hup.
    - simpl. apply Z.eqb_refl. }
  destruct Hrow as [c Hc].
  assert (Hrun := return_loan_run today2 (loans_id_seq st) librarian2 st').
  rewrite Hget in Hrun.
  change (negb (status_in (loan_status new) ["open"; "overdue"])) with false in Hrun.
  cbv iota in Hrun. rewrite Hlib in Hrun. cbn [negb] in Hrun. rewrite Hc in Hrun.
  eexists. exists res.
  split; [rewrite <- Hrid; now apply get_by_key_unique|].
  split; [exact Hrun|].
  split.
  { unfold save_copy_status. cbn [loans with_copies with_loans].
    change (loans st') with (loans st1 ++ [new]).
    rewrite (update_where_snoc_fresh loan_id _ (loans st1) new Hfresh).
    rewrite Hls. unfold close_loan, new. cbn. now rewrite Hseq, Hcid. }
  split.
  { unfold save_copy_status. cbn [reservations with_copies with_loans].
    unfold st', save_copy_status. cbn [reservations with_copies with_reservations].
    now rewrite Hrid. }
  unfold save_copy_status. cbn [copies with_copies with_loans].
  unfold st', save_copy_status.
  cbn [copies with_copies with_reservations with_loans with_seqs].
  change (loan_copy_id new) with (copy_id copy). rewrite <- Hcid.
  now apply update_where_twice.
Qed.

(** The three calls on a reservation that the sweep leaves not active. *)
Lemma inactive_refused (today : date) (now : datetime) (user : User) (days : Z)
      (st : Store) (r : Reservation) :
  keys st ->
  let st1 := fst (expire_old_reservations now st) in
  get_or_none (fun x => reservation_id x =? reservation_id r) (reservations st1)
  = Some r ->
  reservation_status r <> "active" ->
  (exists m, cancel_reservation now user (reservation_id r) st
             = (st1, Ret (false, m))
             /\ (m = MsgNotYourReservation \/ m = MsgReservationNoLongerActive))
  /\ (exists m, extend_reservation now user (reservation_id r) st
                = (st1, Ret (false, m))
                /\ (m = MsgNotYourReservation \/ m = MsgReservationNoLongerActive))
  /\ (exists m, fulfill_reservation today now user (reservation_id r) days st
                = (st1, Ret (false, m))
                /\ (m = MsgReservationNotFound \/ m = MsgReservationNotActive)).
Proof.
  intros Hk st1 Hget Hdead.
  assert (Hst : negb (reservation_status r =? "active")%string = true).
  { apply negb_true_iff. now apply String.eqb_neq. }
  split; [|split].
  - assert (Hrun := cancel_reservation_run now user (reservation_id r) st).
    cbv zeta in Hrun. fold st1 in Hrun. rewrite Hget in Hrun.
    destruct (negb (reservation_reader_id r =? user_id user));
      [eexists; split; [exact Hrun | now left]|].
    rewrite Hst in Hrun. eexists; split; [exact Hrun | now right].
  - assert (Hrun := extend_reservation_run now user (reservation_id r) st).
    cbv zeta in Hrun. fold st1 in Hrun. rewrite Hget in Hrun.
    destruct (negb (reservation_reader_id r =? user_id user));
      [eexists; split; [exact Hrun | now left]|].
    rewrite Hst in Hrun. eexists; split; [exact Hrun | now right].
  - unfold fulfill_reservation. fold st1.
    assert (Hk1 : keys st1) by (apply (keys_txn st); [assumption | now apply txn_expire]).
    destruct Hk1 as [_ [_ [Hnd _]]].
    destruct (get_or_none (fun r0 => reservation_id r0 =? reservation_id r)
                (filter (fun r0 => existsb (fun c => copy_id c =? reservation_copy_id r0)
                                           (copies st1))
                        (reservations st1))) as [res|] eqn:Hres.
    + exists MsgReservationNotActive. split; [|now right].
      apply atomic_ret. rewrite Hres.
      apply get_or_none_some in Hres. destruct Hres as [Hres Hid].
      apply filter_In in Hres. destruct Hres as [Hres _].
      apply Z.eqb_eq in Hid. apply get_or_none_some in Hget.
      destruct Hget as [Hr1 _].
      rewrite (NoDup_key_inj reservation_id _ res r Hnd Hres Hr1 Hid).
      now rewrite Hst.
    + exists MsgReservationNotFound. split; [|now left].
      apply atomic_ret. now rewrite Hres.
Qed.

(** X14. Too late is too late: a reservation whose expiry lies before the
    clock reading of a call is expired by the sweep that call starts with,
    so a cancel or an extend for it is refused (as not the caller's, or as no
    longer active) and so is a fulfilment; the store left is the one the
    sweep gives, in which the reservation is [expired]. *)
Theorem run_out_reservation_refused (today : date) (now : datetime) (user : User)
        (days : Z) (st : Store) (r : Reservation) :
  keys st -> In r (reservations st) ->
  reservation_status r = "active" ->
  dt_ltb (reservation_expires_at r) now = true ->
  let st1 := fst (expire_old_reservations now st) in
  In (set_reservation_status "expired" r) (reservations st1)
  /\ (exists m, cancel_reservation now user (reservation_id r) st
                = (st1, Ret (false, m))
                /\ (m = MsgNotYourReservation \/ m = MsgReservationNoLongerActive))
  /\ (exists m, extend_reservation now user (reservation_id r) st
                = (st1, Ret (false, m))
                /\ (m = MsgNotYourReservation \/ m = MsgReservationNoLongerActive))
  /\ (exists m, fulfill_reservation today now user (reservation_id r) days st
                = (st1, Ret (false, m))
                /\ (m = MsgReservationNotFound \/ m = MsgReservationNotActive)).
Proof.
  intros Hk Hin Hact Hlate st1.
  assert (Hstale : stale now r = true).
  { unfold stale. rewrite Hact, Hlate. reflexivity. }
  assert (Hk1 : keys st1) by (apply (keys_txn st); [assumption | now apply txn_expire]).
  assert (Hndr : NoDup (map reservation_id (reservations st))) by apply Hk.
  destruct (expire_old_reservations_rows now st Hndr) as [Hr _]. fold st1 in Hr.
  assert (Hin1 : In (set_reservation_status "expired" r) (reservations st1)).
  { rewrite Hr. apply in_map_iff. exists r. split; [|assumption].
    unfold expire_row. now rewrite Hstale. }
  split; [assumption|].
  apply (inactive_refused today now user days st (set_reservation_status "expired" r)).
  - assumption.
  - destruct Hk1 as [_ [_ [Hnd1 _]]].
    apply (get_by_key_unique reservation_id _ _ Hnd1 Hin1).
  - simpl. discriminate.
Qed.

(** X15. [cancel_reservation], after its sweep: an unknown id, a reservation
    of another reader and a reservation that is not active are refused, in
    this order, with nothing written; the reader's own active reservation is
    set to [cancelled] (all rows with its id), rows of its copy that are
    [reserved] become [available], other copies, all loans and all other
    reservations are untouched, and the same cancel again is refused. *)
Theorem cancel_reservation_spec (now : datetime) (reader : User) (rid : Z)
        (st : Store) :
  let st1 := fst (expire_old_reservations now st) in
  let found := get_or_none (fun r => reservation_id r =? rid) (reservations st1) in
  (found = None ->
   cancel_reservation now reader rid st = (st1, Ret (false, MsgReservationNotFound)))
  /\ (forall res, found = Some res ->
        reservation_reader_id res <> user_id reader ->
        cancel_reservation now reader rid st
        = (st1, Ret (false, MsgNotYourReservation)))
  /\ (forall res, found = Some res ->
        reservation_reader_id res = user_id reader ->
        reservation_status res <> "active" ->
        cancel_reservation now reader rid st
        = (st1, Ret (false, MsgReservationNoLongerActive)))
  /\ (forall res, found = Some res ->
        reservation_reader_id res = user_id reader ->
        reservation_status res = "active" ->
        exists st',
          cancel_reservation now reader rid st
          = (st', Ret (true, MsgReservationCancelled))
          /\ reservations st'
             = map (fun r => if reservation_id r =? rid
                             then set_reservation_status "cancelled" r else r)
                   (reservations st1)
          /\ copies st'
             = map (fun c => if (copy_id c =? reservation_copy_id res)
                                && (copy_status c =? "reserved")%string
                             then set_copy_status "available" c else c)
                   (copies st1)
          /\ loans st' = loans st
          /\ cancel_reservation now reader rid st'
             = (st', Ret (false, MsgReservationNoLongerActive))).
Proof.
  cbv zeta.
  set (st1 := fst (expire_old_reservations now st)).
  assert (Hrun := cancel_reservation_run now reader rid st).
  cbv zeta in Hrun. fold st1 in Hrun.
  split; [|split; [|split]].
  - intros Hnone. now rewrite Hnone in Hrun.
  - intros res Hsome Hother. rewrite Hsome in Hrun.
    apply Z.eqb_neq in Hother. now rewrite Hother in Hrun.
  - intros res Hsome Hown Hdead. rewrite Hsome in Hrun.
    apply Z.eqb_eq in Hown. rewrite Hown in Hrun. cbn [negb] in Hrun.
    apply String.eqb_neq in Hdead. now rewrite Hdead in Hrun.
  - intros res Hsome Hown Hact. rewrite Hsome in Hrun.
    assert (Hown' := Hown). apply Z.eqb_eq in Hown'. rewrite Hown' in Hrun.
    cbn [negb] in Hrun.
    assert (Hact' := Hact). apply String.eqb_eq in Hact'. rewrite Hact' in Hrun.
    cbn [negb] in Hrun.
    assert (Hid : reservation_id res = rid).
    { apply get_or_none_some in Hsome. now apply Z.eqb_eq. }
    rewrite Hid in Hrun.
    eexists. split; [exact Hrun|].
    split; [reflexivity|]. split; [reflexivity|].
    split; [apply sequences_after_sweep|].
    set (st' := with_copies _ _).
    assert (Hfresh : forall r, In r (reservations st') -> stale now r = false).
    { intros r Hr. unfold st' in Hr. cbn [reservations with_copies with_reservations] in Hr.
      apply update_where_in in Hr. destruct Hr as [r0 [Hr0 ->]].
      destruct (reservation_id r0 =? rid); [reflexivity|].
      now apply (sweep_leaves_none_stale now st). }
    assert (Hrun2 := cancel_reservation_run now reader rid st').
    cbv zeta in Hrun2. rewrite (expire_nothing_stale now st' Hfresh) in Hrun2.
    cbn [fst] in Hrun2.
    unfold st' in Hrun2 at 1.
    cbn [reservations with_copies with_reservations] in Hrun2.
    rewrite get_update_where in Hrun2 by reflexivity.
    rewrite Hsome in Hrun2. cbn [option_map] in Hrun2.
    assert (Hrid : (reservation_id res =? rid) = true) by now apply Z.eqb_eq.
    rewrite Hrid in Hrun2.
    cbn [reservation_reader_id set_reservation_status] in Hrun2.
    rewrite Hown' in Hrun2. exact Hrun2.
Qed.

(** * Rights: nothing is granted that no role grants *)

Lemma dict_get_set_inv (k k' : string) (v v' : pyval) (d : dict) :
  dict_get k (dict_set k' v' d) = Some v ->
  (k' = k /\ v = v') \/ dict_get k d = Some v.
Proof.
  destruct (String.eqb_spec k' k) as [-> | Hne].
  - rewrite dict_get_set_same. intros [= <-]. now left.
  - rewrite dict_get_set_other by assumption. now right.
Qed.

Lemma merge_item_source (k : string) (v : pyval) (merged : dict)
      (item : string * pyval) :
  dict_get k (merge_item merged item) = Some v ->
  dict_get k merged = Some v \/ (item = (k, v) /\ k <> "all").
Proof.
  destruct item as [k' val]. unfold merge_item.
  destruct (String.eqb_spec k' "all") as [-> | Hall]; [now left|].
  assert (Hset : forall w, dict_get k (dict_set k' w merged) = Some v ->
                           dict_get k merged = Some v
                           \/ ((k', w) = (k, v) /\ k <> "all")).
  { intros w H. apply dict_get_set_inv in H.
    destruct H as [[-> ->] | H]; [right | left]; auto. }
  destruct val as [| [|] | | | |]; try apply Hset.
  unfold dict_setdefault. destruct (dict_get k' merged); [now left | apply Hset].
Qed.

Lemma merge_items_source (k : string) (v : pyval) (d merged : dict) :
  dict_get k (fold_left merge_item d merged) = Some v ->
  dict_get k merged = Some v \/ (In (k, v) d /\ k <> "all").
Proof.
  revert merged. induction d as [|item d IH]; intros merged H; simpl in H;
    [now left|].
  apply IH in H. destruct H as [H | [H Hk]].
  - apply merge_item_source in H. destruct H as [H | [-> Hk]];
      [now left | right; split; [now left | assumption]].
  - right. split; [now right | assumption].
Qed.

Section MergeSources.

Variable json_loads : string -> option pyval.

Lemma merge_roles_source (k : string) (v : pyval) (q : list pyval) (merged : dict) :
  dict_get k (merge_roles json_loads q merged) = Some v ->
  (exists r, In r q
             /\ dict_get "all" (_normalize_rights json_loads r) = Some (PBool true))
  \/ dict_get k merged = Some v
  \/ (exists r, In r q /\ In (k, v) (_normalize_rights json_loads r) /\ k <> "all").
Proof.
  revert merged. induction q as [|r q IH]; intros merged H; simpl in H;
    [right; now left|].
  destruct (is_True (dict_get "all" (_normalize_rights json_loads r))) eqn:Hall.
  - left. exists r. split; [now left|].
    destruct (dict_get "all" (_normalize_rights json_loads r)) as [[| [|] | | | |]|];
      try discriminate. reflexivity.
  - apply IH in H. destruct H as [[r' [Hr' H]] | [H | [r' [Hr' H]]]].
    + left. exists r'. split; [now right | assumption].
    + apply merge_items_source in H. destruct H as [H | [H Hk]].
      * right. now left.
      * right. right. exists r. split; [now left | now split].
    + right. right. exists r'. split; [now right | assumption].
Qed.

End MergeSources.

(** X16. No right without a grant.  When [can] answers yes for the rights
    merged from a user's roles, one of the roles has [all] set to [True], or
    one of them lists the key (which is not [all]) with a value that counts
    as true; a user without roles is refused everything. *)
Theorem can_only_by_grant (json_loads : string -> option pyval)
        (roles : list Role) (user_roles : list UserRole)
        (user : User) (names : list string) (perm : string) :
  let q := user_role_rights roles user_roles user in
  let s := mk_Session user names
                      (get_user_rights json_loads roles user_roles user) in
  (can s perm = true ->
   (exists r, In r q
              /\ dict_get "all" (_normalize_rights json_loads r) = Some (PBool true))
   \/ (exists r v, In r q /\ In (perm, v) (_normalize_rights json_loads r)
                   /\ truthy v = true /\ perm <> "all"))
  /\ (q = [] -> can s perm = false).
Proof.
  cbv zeta.
  assert (Hmain :
    can (mk_Session user names (get_user_rights json_loads roles user_roles user))
        perm = true ->
    (exists r, In r (user_role_rights roles user_roles user)
               /\ dict_get "all" (_normalize_rights json_loads r) = Some (PBool true))
    \/ (exists r v, In r (user_role_rights roles user_roles user)
                    /\ In (perm, v) (_normalize_rights json_loads r)
                    /\ truthy v = true /\ perm <> "all")).
  { unfold can, get_user_rights. cbn [session_rights].
    set (q := user_role_rights roles user_roles user).
    destruct (dict_get "all" (merge_roles json_loads q [])) as [a|] eqn:Hall.
    - apply merge_roles_source in Hall.
      destruct Hall as [H | [H | [r [_ [_ H]]]]];
        [intros _; now left | discriminate | now contradiction H].
    - cbn [is_True].
      destruct (dict_get perm (merge_roles json_loads q [])) as [v|] eqn:Hperm;
        [|discriminate].
      intros Hv. apply merge_roles_source in Hperm.
      destruct Hperm as [H | [H | [r [Hr [Hin Hk]]]]];
        [now left | discriminate | right].
      exists r, v. auto. }
  split; [exact Hmain|].
  intros Hq. destruct (can _ perm) eqn:Hcan; [|reflexivity].
  exfalso. destruct (Hmain eq_refl) as [[r [Hr _]] | [r [v [Hr _]]]];
    rewrite Hq in Hr; destruct Hr.
Qed.

(** * Branches offered for a book *)

Lemma in_joined (st : Store) (book_id : Z) (b : Branch) (l : Location) (c : Copy) :
  In (l, c) (joined st book_id b)
  <-> In l (locations st) /\ location_branch_id l = branch_id b
      /\ In c (copies st) /\ copy_location_id c = Some (location_id l)
      /\ copy_book_id c = book_id /\ copy_status c = "available".
Proof.
  unfold joined. rewrite in_flat_map. split.
  - intros [l' [Hl' H]]. apply in_map_iff in H. destruct H as [c' [[= -> ->] Hc]].
    apply filter_In in Hl'. destruct Hl' as [Hl Hb]. apply Z.eqb_eq in Hb.
    apply filter_In in Hc. destruct Hc as [Hc H].
    apply andb_true_iff in H. destruct H as [H Hs].
    apply andb_true_iff in H. destruct H as [Hloc Hbook].
    apply Z.eqb_eq in Hbook. apply String.eqb_eq in Hs.
    destruct (copy_location_id c) as [loc|]; [|discriminate].
    apply Z.eqb_eq in Hloc. subst loc. auto 10.
  - intros [Hl [Hb [Hc [Hloc [Hbook Hs]]]]]. exists l. split.
    + apply filter_In. split; [assumption | now apply Z.eqb_eq].
    + apply in_map. apply filter_In. split; [assumption|].
      rewrite Hloc, Hbook, Hs, !Z.eqb_refl. reflexivity.
Qed.

Lemma joined_available (st : Store) (book_id : Z) (b : Branch) (c : Copy) :
  In c (available_copies st book_id (branch_id b))
  <-> exists l, In (l, c) (joined st book_id b).
Proof.
  unfold available_copies. rewrite filter_In. split.
  - intros [Hc H]. apply andb_true_iff in H. destruct H as [H Hat].
    apply andb_true_iff in H. destruct H as [Hbook Hs].
    apply Z.eqb_eq in Hbook. apply String.eqb_eq in Hs.
    apply at_branch_exists in Hat. destruct Hat as [l [Hl [Hb Hloc]]].
    exists l. apply in_joined. auto 10.
  - intros [l H]. apply in_joined in H.
    destruct H as [Hl [Hb [Hc [Hloc [Hbook Hs]]]]]. split; [assumption|].
    rewrite Hbook, Hs, Z.eqb_refl. cbn [andb String.eqb].
    change (("available" =? "available")%string) with true. cbn [andb].
    apply at_branch_exists. exists l. auto.
Qed.

Lemma length_filter_or {A} (p q : A -> bool) (rows : list A) :
  (forall x, In x rows -> p x = true -> q x = false) ->
  List.length (filter (fun x => p x || q x) rows)
  = (List.length (filter p rows) + List.length (filter q rows))%nat.
Proof.
  induction rows as [|x rows IH]; intros H; simpl; [reflexivity|].
  assert (IH' := IH (fun y Hy => H y (or_intror Hy))).
  destruct (p x) eqn:Hp.
  - rewrite (H x (or_introl eq_refl) Hp). simpl. now rewrite IH'.
  - destruct (q x); simpl; rewrite IH'; lia.
Qed.

(** With unique location ids a copy is joined with one location at most:
    the count of the query is the number of available copies. *)
Lemma joined_count (st : Store) (book_id : Z) (b : Branch) :
  NoDup (map location_id (locations st)) ->
  List.length (joined st book_id b)
  = List.length (available_copies st book_id (branch_id b)).
Proof.
  unfold joined, available_copies, at_branch.
  generalize (copies st) as cs. intros cs.
  induction (locations st) as [|l ls IH]; intros Hnd.
  - simpl. symmetry. rewrite filter_nil; [reflexivity|].
    intros c _. destruct (copy_location_id c); now rewrite andb_false_r.
  - inversion Hnd as [|x xs Hnot Hnd']; subst.
    specialize (IH Hnd'). cbn [filter].
    set (P := fun c : Copy => (copy_book_id c =? book_id)
                              && (copy_status c =? "available")%string).
    set (at_l := fun (l0 : Location) (c : Copy) =>
                   match copy_location_id c with
                   | Some loc => loc =? location_id l0
                   | None => false
                   end).
    assert (Hsplit :
      List.length
        (filter (fun c => P c && match copy_location_id c with
                                 | Some loc =>
                                     existsb (fun l0 => (location_id l0 =? loc)
                                                && (location_branch_id l0 =? branch_id b))
                                             (l :: ls)
                                 | None => false
                                 end) cs)
      = Nat.add
          (if location_branch_id l =? branch_id b
           then List.length (filter (fun c => at_l l c && P c) cs) else 0%nat)
          (List.length
             (filter (fun c => P c && match copy_location_id c with
                                      | Some loc =>
                                          existsb (fun l0 => (location_id l0 =? loc)
                                                     && (location_branch_id l0
                                                         =? branch_id b)) ls
                                      | None => false
                                      end) cs))).
    { destruct (location_branch_id l =? branch_id b) eqn:Hb.
      - rewrite <- length_filter_or.
        + f_equal. apply filter_ext. intros c. unfold at_l.
          destruct (copy_location_id c) as [loc|]; cbn [existsb].
          * rewrite Hb, andb_true_r, (Z.eqb_sym (location_id l) loc).
            destruct (loc =? location_id l), (P c); reflexivity.
          * now rewrite andb_false_r.
        + intros c _ Hc. unfold at_l in Hc.
          destruct (copy_location_id c) as [loc|]; [|discriminate].
          apply andb_true_iff in Hc. destruct Hc as [Hloc _].
          apply Z.eqb_eq in Hloc. subst loc.
          destruct (existsb _ ls) eqn:Eex; [|apply andb_false_r].
          exfalso. apply existsb_exists in Eex. destruct Eex as [l0 [Hl0 H0]].
          apply andb_true_iff in H0. destruct H0 as [H0 _].
          apply Z.eqb_eq in H0. apply Hnot. rewrite <- H0. now apply in_map.
      - cbn [Nat.add]. f_equal. apply filter_ext. intros c.
        destruct (copy_location_id c) as [loc|]; [|reflexivity].
        cbn [existsb]. now rewrite Hb, andb_false_r. }
    change (fun c : Copy =>
              (copy_book_id c =? book_id) && (copy_status c =? "available")%string
              && match copy_location_id c with
                 | Some loc =>
                     existsb (fun l0 => (location_id l0 =? loc)
                                && (location_branch_id l0 =? branch_id b)) (l :: ls)
                 | None => false
                 end)
      with (fun c => P c && match copy_location_id c with
                            | Some loc =>
                                existsb (fun l0 => (location_id l0 =? loc)
                                           && (location_branch_id l0 =? branch_id b))
                                        (l :: ls)
                            | None => false
                            end).
    rewrite Hsplit. unfold P in *.
    destruct (location_branch_id l =? branch_id b).
    + cbn [flat_map]. rewrite length_app, length_map, IH. f_equal.
      f_equal. apply filter_ext. intros c. unfold at_l.
      now rewrite andb_assoc.
    + cbn [Nat.add]. exact IH.
Qed.

(** X17. The branches the reservation dialog offers.  A branch is listed for
    a book exactly when it has an available copy of it; the count shown is
    positive and, location ids being unique, it is the number of those
    copies; and on a consistent store a reservation at a listed branch for a
    date within three days, made by a reader who is a user, succeeds. *)
Theorem offered_branch_can_be_reserved (branches : list Branch) (book_id : Z)
        (st : Store) (b : Branch) :
  (forall n,
     In (b, n) (list_available_branches_for_book branches book_id st) ->
     In b branches /\ 0 < n
     /\ available_copies st book_id (branch_id b) <> []
     /\ (NoDup (map location_id (locations st)) ->
         n = Z.of_nat (List.length (available_copies st book_id (branch_id b))))
     /\ (forall today now reader pickup,
           consistent st -> today <= pickup <= today + 3 ->
           (exists u, In u (users st) /\ user_id u = user_id reader) ->
           exists st' rid,
             create_reservation today now reader book_id (branch_id b) pickup st
             = (st', Ret (true, MsgReservationCreated pickup, Some rid))))
  /\ (In b branches -> available_copies st book_id (branch_id b) <> [] ->
      exists n, In (b, n) (list_available_branches_for_book branches book_id st)).
Proof.
  split.
  - intros n Hin. unfold list_available_branches_for_book in Hin.
    apply in_flat_map in Hin. destruct Hin as [b' [Hb' Hin]].
    destruct (joined st book_id b') as [|[l c] rows] eqn:Hj; [destruct Hin|].
    destruct Hin as [[= -> <-] | []].
    assert (Hc : In c (available_copies st book_id (branch_id b))).
    { apply joined_available. exists l. rewrite Hj. now left. }
    split; [assumption|]. split; [simpl List.length; lia|].
    split; [intros E; now rewrite E in Hc|].
    split.
    + intros Hnd. rewrite <- joined_count by assumption. now rewrite Hj.
    + intros today now reader pickup Hst Hrange Hknown.
      apply is_user_spec in Hknown.
      destruct (create_reservation_succeeds today now reader book_id (branch_id b)
                                            pickup st Hrange Hst Hknown)
        as [c' [_ [_ E]]].
      * intros E. apply (sweep_keeps_available now) in Hc. now rewrite E in Hc.
      * eexists. eexists. exact E.
  - intros Hb Hne.
    destruct (available_copies st book_id (branch_id b)) as [|c cs] eqn:Hav;
      [contradiction|].
    assert (Hc : In c (available_copies st book_id (branch_id b)))
      by (rewrite Hav; now left).
    apply joined_available in Hc. destruct Hc as [l Hl].
    destruct (joined st book_id b) as [|row rows] eqn:Hj; [destruct Hl|].
    exists (Z.of_nat (List.length (row :: rows))).
    unfold list_available_branches_for_book. apply in_flat_map.
    exists b. split; [assumption|]. rewrite Hj. now left.
Qed.

(** * Copies in the catalogue *)

Lemma update_copy_run (cid : Z) (code status : string) (loc : option Z)
      (st : Store) :
  let code' := strip code in
  let status' := strip (if is_empty status then "available" else status) in
  match get_or_none (fun c => copy_id c =? cid) (copies st) with
  | None => update_copy cid code status loc st = (st, Ret (false, MsgNoSuchCopy))
  | Some copy =>
      if is_empty code'
      then update_copy cid code status loc st
           = (st, Ret (false, MsgInventoryCodeEmpty))
      else if negb (status_in status' _ALLOWED_COPY_STATUSES)
      then update_copy cid code status loc st = (st, Ret (false, MsgBadCopyStatus))
      else if code_taken cid code' (copies st)
      then update_copy cid code status loc st
           = (st, Ret (false, MsgInventoryCodeTaken))
      else exists loc',
             update_copy cid code status loc st
             = (save_copy cid code' status' loc' st, Ret (true, MsgCopyUpdated))
             /\ (loc' = None
                 \/ exists l, In l (locations st) /\ loc' = Some (location_id l))
  end.
Proof.
  cbv zeta. unfold update_copy.
  destruct (get_or_none _ (copies st)) as [copy|] eqn:Hcopy; [|reflexivity].
  assert (Hid : copy_id copy = cid).
  { apply get_or_none_some in Hcopy. now apply Z.eqb_eq. }
  rewrite Hid.
  destruct (is_empty (strip code)); [reflexivity|].
  destruct (negb (status_in _ _ALLOWED_COPY_STATUSES)); [reflexivity|].
  destruct (code_taken cid (strip code) (copies st)) eqn:Htaken; [reflexivity|].
  eexists. split.
  - apply atomic_ret. rewrite Htaken. reflexivity.
  - destruct loc as [id|]; [|now left].
    destruct (id =? 0); [now left|].
    destruct (get_or_none (fun l => location_id l =? id) (locations st))
      as [l|] eqn:Hl; [|now left].
    right. exists l. split; [|reflexivity]. now apply get_or_none_some in Hl.
Qed.

Lemma codes_after_save (cid : Z) (code status : string) (loc : option Z)
      (cs : list Copy) :
  NoDup (map copy_id cs) -> NoDup (map copy_inventory_code cs) ->
  code_taken cid code cs = false ->
  NoDup (map copy_inventory_code
             (update_where (fun c => copy_id c =? cid)
                           (fun c => mk_Copy (copy_id c) code status
                                             (copy_book_id c) loc) cs)).
Proof.
  intros Hid Hcode Hfree.
  assert (Hother : forall c, In c cs -> copy_id c <> cid ->
                             copy_inventory_code c <> code).
  { intros c Hc Hne E. unfold code_taken in Hfree.
    assert (Hex : existsb (fun c => (copy_inventory_code c =? code)%string
                                    && negb (copy_id c =? cid)) cs = true).
    { apply existsb_exists. exists c. split; [assumption|].
      apply String.eqb_eq in E. rewrite E. apply Z.eqb_neq in Hne.
      now rewrite Hne. }
    rewrite Hfree in Hex. discriminate. }
  clear Hfree. induction cs as [|x xs IH]; simpl; [constructor|].
  inversion Hid as [|? ? Hnotid Hid']; subst.
  inversion Hcode as [|? ? Hnotcode Hcode']; subst.
  assert (Hother' : forall c, In c xs -> copy_id c <> cid ->
                              copy_inventory_code c <> code)
    by (intros c Hc; apply Hother; now right).
  destruct (Z.eqb_spec (copy_id x) cid) as [E | E].
  - rewrite update_where_none.
    + constructor; [|assumption]. simpl. intros Hin.
      apply in_map_iff in Hin. destruct Hin as [y [Hy Hyin]].
      apply (Hother' y Hyin); [|assumption].
      intros Ey. apply Hnotid. rewrite E, <- Ey. now apply in_map.
    + intros y Hy. apply Z.eqb_neq. intros Ey. apply Hnotid.
      rewrite E, <- Ey. now apply in_map.
  - constructor; [|now apply IH].
    intros Hin. apply in_map_iff in Hin. destruct Hin as [y' [Hy' Hyin]].
    apply update_where_in in Hyin. destruct Hyin as [y [Hy ->]].
    destruct (copy_id y =? cid).
    + simpl in Hy'. apply (Hother x); [now left | assumption | now symmetry].
    + apply Hnotcode. rewrite <- Hy'. now apply in_map.
Qed.

(** X18. [update_copy] keeps the catalogue well formed and stays out of the
    lending: whatever its arguments and its answer, copy ids and inventory
    codes stay unique, no copy is added or dropped and none changes its
    book, a status it writes is one of the five allowed ones, and users,
    locations, loans, reservations and sequences are as before. *)
Theorem update_copy_keeps_catalogue (cid : Z) (code status : string)
        (loc : option Z) (st : Store) :
  NoDup (map copy_id (copies st)) ->
  NoDup (map copy_inventory_code (copies st)) ->
  let st' := fst (update_copy cid code status loc st) in
  NoDup (map copy_id (copies st'))
  /\ NoDup (map copy_inventory_code (copies st'))
  /\ Forall2 (fun c c' =>
                copy_id c' = copy_id c /\ copy_book_id c' = copy_book_id c
                /\ (c' = c \/ (copy_id c = cid
                               /\ In (copy_status c') _ALLOWED_COPY_STATUSES)))
             (copies st) (copies st')
  /\ with_copies st' (copies st) = st.
Proof.
  intros Hid Hcode. cbv zeta.
  assert (Hsame :
    NoDup (map copy_id (copies st))
    /\ NoDup (map copy_inventory_code (copies st))
    /\ Forall2 (fun c c' =>
                  copy_id c' = copy_id c /\ copy_book_id c' = copy_book_id c
                  /\ (c' = c \/ (copy_id c = cid
                                 /\ In (copy_status c') _ALLOWED_COPY_STATUSES)))
               (copies st) (copies st)
    /\ with_copies st (copies st) = st).
  { repeat split; try assumption.
    - apply Forall2_refl_on. intros c. auto.
    - now destruct st. }
  assert (Hrun := update_copy_run cid code status loc st). cbv zeta in Hrun.
  destruct (get_or_none _ (copies st)) as [copy|];
    [|rewrite Hrun; exact Hsame].
  destruct (is_empty (strip code)); [rewrite Hrun; exact Hsame|].
  destruct (negb (status_in _ _ALLOWED_COPY_STATUSES)) eqn:Hst;
    [rewrite Hrun; exact Hsame|].
  destruct (code_taken cid (strip code) (copies st)) eqn:Htaken;
    [rewrite Hrun; exact Hsame|].
  destruct Hrun as [loc' [-> _]]. cbn [fst]. unfold save_copy.
  cbn [copies with_copies].
  split; [rewrite map_key_update_where by reflexivity; assumption|].
  split; [now apply codes_after_save|].
  split.
  - apply Forall2_update_where; [intros c; auto|]. intros c _ E.
    apply Z.eqb_eq in E.
    split; [reflexivity|]. split; [reflexivity|]. right. split; [assumption|].
    cbn [copy_status]. apply negb_false_iff in Hst.
    unfold status_in in Hst. apply existsb_exists in Hst.
    destruct Hst as [s [Hs E']]. apply String.eqb_eq in E'. now rewrite E'.
  - now destruct st.
Qed.

Lemma issue_loan_stopped_by_index (today : date) (code login : string)
      (librarian : User) (st : Store) (copy : Copy) (reader : User) :
  NoDup (map copy_id (copies st)) ->
  is_empty (strip code) = false -> is_empty (strip login) = false ->
  get_or_none (fun c => (copy_inventory_code c =? strip code)%string) (copies st)
  = Some copy ->
  copy_status copy = "available" ->
  get_or_none (fun u => (user_login u =? strip login)%string) (users st)
  = Some reader ->
  existsb (loan_holds (copy_id copy)) (loans st) = true ->
  issue_loan today code login librarian st
  = (with_seqs st (loans_id_seq st + 1) (reservations_id_seq st),
     Ret (false, MsgDbError)).
Proof.
  intros Hnd Hcode Hlogin Hcopy Hav Hreader Hheld.
  assert (Hin : In copy (copies st)) by (now apply get_or_none_some in Hcopy).
  unfold issue_loan.
  rewrite Hcode, Hlogin, Hcopy, Hav, Hreader.
  change (negb ("available" =? "available")%string) with false. cbn [orb].
  erewrite atomic_raise.
  2:{ rewrite (get_by_key_unique copy_id (copies st) copy Hnd Hin).
      rewrite Hav.
      change (negb ("available" =? "available")%string) with false. cbv iota.
      rewrite insert_loan_open by reflexivity. cbn [loan_copy_id].
      rewrite Hheld. reflexivity. }
  reflexivity.
Qed.

(** X19. The catalogue can contradict the lending, and the index then holds
    the line.  [update_copy] does not look at loans: it marks a copy that is
    on loan [available] when asked to.  [issue_loan] then passes all its
    checks for that copy and is stopped only by the unique index on open
    loans; it answers with the database error, and nothing but the loan
    sequence has moved. *)
Theorem held_copy_marked_available (st : Store) (c : Copy) (l : Loan)
        (code : string) (loc : option Z) (today : date) (login : string)
        (librarian reader : User) :
  NoDup (map copy_id (copies st)) ->
  In c (copies st) -> In l (loans st) -> loan_holds (copy_id c) l = true ->
  is_empty (strip code) = false ->
  code_taken (copy_id c) (strip code) (copies st) = false ->
  is_empty (strip login) = false ->
  get_or_none (fun u => (user_login u =? strip login)%string) (users st)
  = Some reader ->
  exists st',
    update_copy (copy_id c) code "available" loc st
    = (st', Ret (true, MsgCopyUpdated))
    /\ (forall row, In row (copies st') -> copy_id row = copy_id c ->
                    copy_status row = "available")
    /\ loans st' = loans st
    /\ issue_loan today code login librarian st'
       = (with_seqs st' (loans_id_seq st + 1) (reservations_id_seq st),
          Ret (false, MsgDbError)).
Proof.
  intros Hnd Hc Hl Hheld Hcode Hfree Hlogin Hreader.
  assert (Hrun := update_copy_run (copy_id c) code "available" loc st).
  cbv zeta in Hrun.
  rewrite (get_by_key_unique copy_id (copies st) c Hnd Hc) in Hrun.
  rewrite Hcode, Hfree in Hrun.
  change (is_empty "available") with false in Hrun. cbv iota in Hrun.
  replace (strip "available") with "available" in Hrun by reflexivity.
  change (negb (status_in "available" _ALLOWED_COPY_STATUSES)) with false in Hrun.
  cbv iota in Hrun. destruct Hrun as [loc' [Hrun _]].
  set (st' := save_copy (copy_id c) (strip code) "available" loc' st) in *.
  exists st'. split; [exact Hrun|].
  assert (Hrows : forall row, In row (copies st') ->
            (copy_id row = copy_id c /\ copy_inventory_code row = strip code
             /\ copy_status row = "available")
            \/ (copy_id row <> copy_id c /\ copy_inventory_code row <> strip code)).
  { intros row Hrow. unfold st', save_copy in Hrow. cbn [copies with_copies] in Hrow.
    apply update_where_in in Hrow. destruct Hrow as [x [Hx ->]].
    destruct (Z.eqb_spec (copy_id x) (copy_id c)) as [E | E].
    - left. simpl. auto.
    - right. split; [assumption|]. intros Ecode.
      unfold code_taken in Hfree.
      assert (Hex : existsb (fun c0 => (copy_inventory_code c0 =? strip code)%string
                                       && negb (copy_id c0 =? copy_id c))
                            (copies st) = true).
      { apply existsb_exists. exists x. split; [assumption|].
        apply String.eqb_eq in Ecode. rewrite Ecode.
        apply Z.eqb_neq in E. now rewrite E. }
      rewrite Hfree in Hex. discriminate. }
  split.
  { intros row Hrow Hid. destruct (Hrows row Hrow) as [[_ [_ H]] | [H _]];
      [assumption | contradiction]. }
  split; [reflexivity|].
  assert (Hin' : In (mk_Copy (copy_id c) (strip code) "available" (copy_book_id c) loc')
                    (copies st')).
  { assert (Hup := in_update_where (fun x => copy_id x =? copy_id c)
                     (fun x => mk_Copy (copy_id x) (strip code) "available"
                                       (copy_book_id x) loc')
                     c (copies st) Hc).
    cbv beta in Hup. rewrite Z.eqb_refl in Hup. exact Hup. }
  destruct (get_or_none_exists
              (fun x => (copy_inventory_code x =? strip code)%string)
              (copies st') _ Hin') as [found Hfound];
    [simpl; apply String.eqb_refl|].
  assert (Hf := Hfound). apply get_or_none_some in Hf. destruct Hf as [Hfin Hfcode].
  apply String.eqb_eq in Hfcode.
  destruct (Hrows found Hfin) as [[Hfid [_ Hfav]] | [_ H]]; [|contradiction].
  apply (issue_loan_stopped_by_index today code login librarian st' found reader);
    try assumption.
  - unfold st', save_copy. cbn [copies with_copies].
    rewrite map_key_update_where by reflexivity. assumption.
  - rewrite Hfid. apply existsb_exists. exists l. split; assumption.
Qed.

(** X20. [delete_copy] never breaks a reference: a copy with a loan, of any
    status, is refused with the number of its loans; a copy without loans
    that a reservation of any status refers to makes the [DELETE] raise, and
    the exception leaves [delete_copy] uncaught; only a copy nothing refers
    to is deleted, and then it alone.  In every case the other tables are
    untouched. *)
Theorem delete_copy_keeps_references (cid : Z) (st : Store) :
  let lent := fun id => existsb (fun l => loan_copy_id l =? id) (loans st) in
  let reserved := fun id => existsb (fun r => reservation_copy_id r =? id)
                                    (reservations st) in
  with_copies (fst (delete_copy cid st)) (copies st) = st
  /\ (forall c, In c (copies st) -> lent (copy_id c) || reserved (copy_id c) = true ->
                In c (copies (fst (delete_copy cid st))))
  /\ (get_or_none (fun c => copy_id c =? cid) (copies st) = None ->
      delete_copy cid st = (st, Ret (false, MsgNoSuchCopy)))
  /\ (forall copy, get_or_none (fun c => copy_id c =? cid) (copies st) = Some copy ->
        (lent cid = true ->
         exists n, 0 < n /\ delete_copy cid st = (st, Ret (false, MsgCopyHasLoans n)))
        /\ (lent cid = false -> reserved cid = true ->
            delete_copy cid st = (st, Raise IntegrityError))
        /\ (lent cid = false -> reserved cid = false ->
            delete_copy cid st
            = (with_copies st (filter (fun c => negb (copy_id c =? cid)) (copies st)),
               Ret (true, MsgCopyDeleted)))).
Proof.
  cbv zeta.
  assert (Hcnt : forall id,
            (count_where (fun l => loan_copy_id l =? id) (loans st) >? 0)
            = existsb (fun l => loan_copy_id l =? id) (loans st)).
  { intros id. unfold count_where. induction (loans st) as [|l ls IH];
      [reflexivity|]. simpl. destruct (loan_copy_id l =? id); [|exact IH].
    simpl List.length. cbn [orb]. apply Z.gtb_lt. lia. }
  assert (Hcases : forall copy,
            get_or_none (fun c => copy_id c =? cid) (copies st) = Some copy ->
            (existsb (fun l => loan_copy_id l =? cid) (loans st) = true ->
             exists n, 0 < n
                       /\ delete_copy cid st = (st, Ret (false, MsgCopyHasLoans n)))
            /\ (existsb (fun l => loan_copy_id l =? cid) (loans st) = false ->
                existsb (fun r => reservation_copy_id r =? cid) (reservations st)
                = true ->
                delete_copy cid st = (st, Raise IntegrityError))
            /\ (existsb (fun l => loan_copy_id l =? cid) (loans st) = false ->
                existsb (fun r => reservation_copy_id r =? cid) (reservations st)
                = false ->
                delete_copy cid st
                = (with_copies st (filter (fun c => negb (copy_id c =? cid))
                                          (copies st)),
                   Ret (true, MsgCopyDeleted)))).
  { intros copy Hcopy.
    assert (Hid : copy_id copy = cid).
    { apply get_or_none_some in Hcopy. now apply Z.eqb_eq. }
    unfold delete_copy. rewrite Hcopy, Hid, Hcnt.
    split; [|split].
    - intros Hl. rewrite Hl. eexists. split; [|reflexivity].
      apply Z.gtb_lt. now rewrite Hcnt.
    - intros Hl Hr. rewrite Hl. erewrite atomic_raise;
        [|rewrite Hl, Hr; reflexivity]. now destruct st.
    - intros Hl Hr. rewrite Hl. apply atomic_ret. now rewrite Hl, Hr. }
  assert (Hnone : get_or_none (fun c => copy_id c =? cid) (copies st) = None ->
                  delete_copy cid st = (st, Ret (false, MsgNoSuchCopy))).
  { intros H. unfold delete_copy. now rewrite H. }
  assert (Hst : with_copies st (copies st) = st) by now destruct st.
  split; [|split; [|split; [exact Hnone | exact Hcases]]].
  - destruct (get_or_none (fun c => copy_id c =? cid) (copies st)) as [copy|] eqn:Hc;
      [|now rewrite Hnone].
    destruct (Hcases copy eq_refl) as [H1 [H2 H3]].
    destruct (existsb (fun l => loan_copy_id l =? cid) (loans st));
      [destruct (H1 eq_refl) as [n [_ ->]]; exact Hst|].
    destruct (existsb (fun r => reservation_copy_id r =? cid) (reservations st));
      [rewrite H2 by reflexivity; exact Hst|].
    rewrite H3 by reflexivity. now destruct st.
  - intros c Hin Href.
    destruct (get_or_none (fun c => copy_id c =? cid) (copies st)) as [copy|] eqn:Hc;
      [|now rewrite Hnone].
    destruct (Hcases copy eq_refl) as [H1 [H2 H3]].
    destruct (existsb (fun l => loan_copy_id l =? cid) (loans st)) eqn:Hl;
      [destruct (H1 eq_refl) as [n [_ ->]]; exact Hin|].
    destruct (existsb (fun r => reservation_copy_id r =? cid) (reservations st))
      eqn:Hr; [rewrite H2 by reflexivity; exact Hin|].
    rewrite H3 by reflexivity. cbn [fst copies with_copies].
    apply filter_In. split; [assumption|].
    apply negb_true_iff. apply Z.eqb_neq. intros E.
    rewrite E, Hl, Hr in Href. discriminate.
Qed.

(** * Users and sessions *)

Lemma existsb_eqb_in (r : string) (l : list string) :
  existsb (String.eqb r) l = true <-> In r l.
Proof.
  rewrite existsb_exists. split.
  - intros [x [Hx E]]. apply String.eqb_eq in E. now subst.
  - intros H. exists r. split; [assumption | apply String.eqb_refl].
Qed.

(** X21. The role a session is shown under: [Admin] when the user has it,
    else [Librarian] when the user has it, else [Reader] when the user has
    it; only when none of the three is held is it the first role listed, and
    [Reader] for a user without roles.  So it is always a role the user
    holds, or [Reader]. *)
Theorem primary_role_priority (s : Session) :
  (In "Admin" (session_roles s) -> primary_role s = "Admin")
  /\ (~ In "Admin" (session_roles s) -> In "Librarian" (session_roles s) ->
      primary_role s = "Librarian")
  /\ (~ In "Admin" (session_roles s) -> ~ In "Librarian" (session_roles s) ->
      In "Reader" (session_roles s) -> primary_role s = "Reader")
  /\ (~ In "Admin" (session_roles s) -> ~ In "Librarian" (session_roles s) ->
      ~ In "Reader" (session_roles s) ->
      primary_role s = hd "Reader" (session_roles s))
  /\ (In (primary_role s) (session_roles s) \/ primary_role s = "Reader").
Proof.
  unfold primary_role, ROLE_PRIORITY. cbn [find].
  destruct (existsb (String.eqb "Admin") (session_roles s)) eqn:Ha;
    [apply existsb_eqb_in in Ha
    | assert (Ha' : ~ In "Admin" (session_roles s))
        by (intros H; apply existsb_eqb_in in H; congruence)].
  { repeat split; try tauto. }
  destruct (existsb (String.eqb "Librarian") (session_roles s)) eqn:Hl;
    [apply existsb_eqb_in in Hl
    | assert (Hl' : ~ In "Librarian" (session_roles s))
        by (intros H; apply existsb_eqb_in in H; congruence)].
  { repeat split; try tauto. }
  destruct (existsb (String.eqb "Reader") (session_roles s)) eqn:Hr;
    [apply existsb_eqb_in in Hr
    | assert (Hr' : ~ In "Reader" (session_roles s))
        by (intros H; apply existsb_eqb_in in H; congruence)].
  { repeat split; try tauto. }
  split; [tauto|]. split; [tauto|]. split; [tauto|]. split.
  - intros _ _ _. destruct (session_roles s); reflexivity.
  - destruct (session_roles s); [now right | left; now left].
Qed.

Lemma get_user_roles_nil (roles : list Role) (user_roles : list UserRole)
      (user : User) :
  get_user_roles roles user_roles user = [] ->
  user_role_rights roles user_roles user = [].
Proof.
  unfold get_user_roles, user_role_rights.
  induction roles as [|r roles IH]; [reflexivity|]. cbn [flat_map].
  intros H. apply app_eq_nil in H. destruct H as [H1 H2].
  rewrite (IH H2), app_nil_r.
  destruct (filter _ user_roles); [reflexivity | discriminate].
Qed.

(** X22. Logging in.  [authenticate] opens a session only for a user of the
    table whose login is the trimmed one typed in, who is active and whose
    stored hash the password (taken as typed, not trimmed) verifies against;
    the session carries that user, at least one role name, and the rights
    merged from the user's roles.  A user without any role is named a
    [Reader] but holds no right at all. *)
Theorem authenticate_sound (json_loads : string -> option pyval)
        (verify_password : string -> string -> bool)
        (is_active : User -> bool) (password_hash : User -> string)
        (login password : string) (roles : list Role)
        (user_roles : list UserRole) (st : Store) (m : LoginMsg) (s : Session) :
  authenticate json_loads verify_password is_active password_hash
               login password roles user_roles st = (true, m, Some s) ->
  In (session_user s) (users st)
  /\ user_login (session_user s) = strip login
  /\ is_active (session_user s) = true
  /\ verify_password password (password_hash (session_user s)) = true
  /\ session_roles s <> []
  /\ session_rights s
     = get_user_rights json_loads roles user_roles (session_user s)
  /\ (get_user_roles roles user_roles (session_user s) = [] ->
      session_roles s = ["Reader"] /\ forall perm, can s perm = false).
Proof.
  unfold authenticate.
  destruct (is_empty (strip login) || is_empty password); [discriminate|].
  destruct (get_or_none _ (users st)) as [user|] eqn:Huser; [|discriminate].
  destruct (negb (is_active user)) eqn:Hact; [discriminate|].
  destruct (negb (verify_password password (password_hash user))) eqn:Hpw;
    [discriminate|].
  intros [= <- <-]. cbn [session_user session_roles session_rights].
  apply get_or_none_some in Huser. destruct Huser as [Hin Hlogin].
  apply String.eqb_eq in Hlogin.
  apply negb_false_iff in Hact, Hpw.
  repeat (split; [assumption|]).
  split; [destruct (get_user_roles roles user_roles user); discriminate|].
  split; [reflexivity|].
  intros Hnone. rewrite Hnone. split; [reflexivity|].
  intros perm. unfold can, get_user_rights. cbn [session_rights].
  rewrite (get_user_roles_nil _ _ _ Hnone). reflexivity.
Qed.

(** X23. Who is turned away at the door, in the order of the checks: empty
    input; an unknown login; a disabled user, before the password is even
    looked at; a wrong password.  An unknown login and a wrong password get
    the same answer. *)
Theorem authenticate_refusals (json_loads : string -> option pyval)
        (verify_password : string -> string -> bool)
        (is_active : User -> bool) (password_hash : User -> string)
        (login password : string) (roles : list Role)
        (user_roles : list UserRole) (st : Store) :
  let run := authenticate json_loads verify_password is_active password_hash
                          login password roles user_roles st in
  let found := get_or_none (fun u => (user_login u =? strip login)%string)
                           (users st) in
  (is_empty (strip login) = true \/ is_empty password = true ->
   run = (false, MsgEmptyCredentials, None))
  /\ (is_empty (strip login) = false -> is_empty password = false ->
      (found = None -> run = (false, MsgBadCredentials, None))
      /\ (forall user, found = Some user ->
            (is_active user = false -> run = (false, MsgUserDisabled, None))
            /\ (is_active user = true ->
                verify_password password (password_hash user) = false ->
                run = (false, MsgBadCredentials, None))
            /\ (is_active user = true ->
                verify_password password (password_hash user) = true ->
                exists s, run = (true, MsgOK, Some s) /\ session_user s = user))).
Proof.
  cbv zeta. unfold authenticate. split.
  - intros [H | H]; rewrite H; [reflexivity | now rewrite orb_true_r].
  - intros Hl Hp. rewrite Hl, Hp. cbn [orb]. split.
    + intros H. now rewrite H.
    + intros user H. rewrite H. split; [|split].
      * intros Ha. now rewrite Ha.
      * intros Ha Hv. now rewrite Ha, Hv.
      * intros Ha Hv. rewrite Ha, Hv. cbn [negb]. eexists. split; reflexivity.
Qed.

(** A successful [delete_user] is the delete of that user's row. *)
Lemma delete_user_deleted (session : Session) (uid : Z) (roles : list Role)
      (user_roles user_roles' : list UserRole) (st st' : Store) (m : UserMsg) :
  delete_user session uid roles user_roles st = ((user_roles', st'), (true, m)) ->
  st' = snd (delete_instance uid user_roles st).
Proof.
  unfold delete_user.
  destruct (negb (can session "manage_users")); [discriminate|].
  destruct (get_or_none _ (users st)) as [user|] eqn:Huser; [|discriminate].
  apply get_or_none_some in Huser. destruct Huser as [_ Hid].
  apply Z.eqb_eq in Hid. rewrite Hid.
  destruct (uid =? user_id (session_user session)); [discriminate|].
  destruct (match get_or_none (fun r => (role_name r =? "Admin")%string) roles with
            | Some admin_role => _
            | None => false
            end); [discriminate|].
  destruct (existsb _ (loans st)); [discriminate|].
  intros [= _ <- _]. reflexivity.
Qed.

(** X24. [delete_user] either deletes or changes nothing.  It deletes only
    for a session with the right [manage_users], a user of the table other
    than the session's own, who is not an [Admin] and whom no loan names as
    reader or librarian.  The delete takes the user, the user's roles and,
    by the cascade, the user's reservations of every status; copies and
    loans are not written. *)
Theorem delete_user_guarded (session : Session) (uid : Z) (roles : list Role)
        (user_roles : list UserRole) (st : Store) :
  let run := delete_user session uid roles user_roles st in
  (fst (snd run) = false -> fst run = (user_roles, st))
  /\ (fst (snd run) = true ->
      snd run = (true, MsgUserDeleted)
      /\ can session "manage_users" = true
      /\ uid <> user_id (session_user session)
      /\ (exists u, In u (users st) /\ user_id u = uid)
      /\ (forall admin ur,
            get_or_none (fun r => (role_name r =? "Admin")%string) roles
            = Some admin ->
            In ur user_roles -> user_role_user_id ur = uid ->
            user_role_role_id ur <> role_id admin)
      /\ (forall l, In l (loans st) ->
                    loan_reader_id l <> uid /\ loan_librarian_id l <> uid)
      /\ fst (fst run) = filter (fun ur => negb (user_role_user_id ur =? uid))
                                user_roles
      /\ users (snd (fst run)) = filter (fun u => negb (user_id u =? uid)) (users st)
      /\ reservations (snd (fst run))
         = filter (fun r => negb (reservation_reader_id r =? uid)) (reservations st)
      /\ copies (snd (fst run)) = copies st
      /\ loans (snd (fst run)) = loans st
      /\ locations (snd (fst run)) = locations st).
Proof.
  cbv zeta. unfold delete_user.
  destruct (negb (can session "manage_users")) eqn:Hcan;
    [split; [reflexivity | discriminate]|].
  destruct (get_or_none _ (users st)) as [user|] eqn:Huser;
    [|split; [reflexivity | discriminate]].
  apply get_or_none_some in Huser. destruct Huser as [Hin Hid].
  apply Z.eqb_eq in Hid. rewrite Hid.
  destruct (uid =? user_id (session_user session)) eqn:Hself;
    [split; [reflexivity | discriminate]|].
  destruct (match get_or_none (fun r => (role_name r =? "Admin")%string) roles with
            | Some admin_role => _
            | None => false
            end) eqn:Hadmin; [split; [reflexivity | discriminate]|].
  destruct (existsb _ (loans st)) eqn:Hloans; [split; [reflexivity | discriminate]|].
  split; [discriminate|]. intros _. cbn [fst snd delete_instance].
  split; [reflexivity|].
  split; [now apply negb_false_iff in Hcan|].
  split; [now apply Z.eqb_neq|].
  split; [now exists user|].
  split.
  { intros admin ur Hrole Hur Hu E. rewrite Hrole in Hadmin.
    assert (Hex : existsb (fun ur0 => (user_role_user_id ur0 =? uid)
                                      && (user_role_role_id ur0 =? role_id admin))
                          user_roles = true).
    { apply existsb_exists. exists ur. split; [assumption|].
      now rewrite Hu, E, !Z.eqb_refl. }
    rewrite Hadmin in Hex. discriminate. }
  split.
  { intros l Hl.
    assert (Hno : (loan_reader_id l =? uid) || (loan_librarian_id l =? uid) = false).
    { destruct ((loan_reader_id l =? uid) || (loan_librarian_id l =? uid)) eqn:E;
        [|reflexivity].
      assert (Hex : existsb (fun l0 => (loan_reader_id l0 =? uid)
                                       || (loan_librarian_id l0 =? uid))
                            (loans st) = true)
        by (apply existsb_exists; exists l; now split).
      rewrite Hloans in Hex. discriminate. }
    apply orb_false_iff in Hno. destruct Hno as [H1 H2].
    split; now apply Z.eqb_neq. }
  repeat split.
Qed.

Lemma existsb_update_false {A} (h p : A -> bool) (f : A -> A) (rows : list A) :
  (forall x, In x rows -> h (f x) = true -> h x = true) ->
  existsb h rows = false -> existsb h (update_where p f rows) = false.
Proof.
  intros Hf Hno. destruct (existsb h (update_where p f rows)) eqn:E; [|reflexivity].
  apply existsb_exists in E. destruct E as [y [Hy Hh]].
  apply update_where_in in Hy. destruct Hy as [x [Hx ->]].
  assert (Hx' : h x = true) by (destruct (p x); [now apply Hf | assumption]).
  assert (Hex : existsb h rows = true) by (apply existsb_exists; now exists x).
  congruence.
Qed.

Lemma existsb_false_in {A} (h : A -> bool) (rows : list A) (x : A) :
  existsb h rows = false -> In x rows -> h x = false.
Proof.
  intros Hno Hx. destruct (h x) eqn:E; [|reflexivity].
  assert (Hex : existsb h rows = true) by (apply existsb_exists; now exists x).
  congruence.
Qed.

(** A copy marked reserved that nothing holds stays so through every
    transaction of the engine. *)
Lemma stranded_txn (st st' : Store) (cid : Z) :
  (forall c, In c (copies st) -> copy_id c = cid -> copy_status c = "reserved") ->
  existsb (reservation_holds cid) (reservations st) = false ->
  existsb (loan_holds cid) (loans st) = false ->
  txn st st' ->
  (forall c, In c (copies st') -> copy_id c = cid -> copy_status c = "reserved")
  /\ existsb (reservation_holds cid) (reservations st') = false
  /\ existsb (loan_holds cid) (loans st') = false.
Proof.
  intros Hc Hr Hl Htxn.
  assert (Hsave : forall id s cs,
            id <> cid ->
            (forall c, In c cs -> copy_id c = cid -> copy_status c = "reserved") ->
            forall c, In c (update_where (fun x => copy_id x =? id)
                                         (set_copy_status s) cs) ->
                      copy_id c = cid -> copy_status c = "reserved").
  { intros id s cs Hne Hcs c Hin Hid. apply update_where_in in Hin.
    destruct Hin as [x [Hx ->]].
    destruct (Z.eqb_spec (copy_id x) id) as [E|]; [|now apply Hcs].
    simpl in Hid. congruence. }
  assert (Havail : forall copy, In copy (copies st) -> copy_status copy = "available" ->
                                copy_id copy <> cid).
  { intros copy Hin Hav E. rewrite (Hc copy Hin E) in Hav. discriminate. }
  destruct Htxn as
    [ a b Ha Hb
    | p s q Hs Hp Hq
    | copy r Hin Hav Hfree Hact Hcopy Hext Hexp
    | copy l Hin Hav Hfree Hopen Hcopy
    | res copy l Hres Hact Hin Hid Hreserved Hfree Hopen Hcopy
    | loan today u Hin Hact
    | today
    | res Hres Hact Hext ].
  - auto.
  - cbn [copies reservations loans with_copies with_reservations].
    split; [|split; [|assumption]].
    + intros c Hin Hid. apply update_where_in in Hin. destruct Hin as [x [Hx ->]].
      destruct (q x) eqn:Hqx; [|now apply Hc].
      exfalso. apply (Hq x Hx) in Hqx. destruct Hqx as [_ [r [Hrin [Hpr Hrc]]]].
      simpl in Hid.
      assert (Hh := existsb_false_in _ _ r Hr Hrin). unfold reservation_holds in Hh.
      rewrite Hrc, Hid, Z.eqb_refl, (Hp r Hrin Hpr) in Hh. discriminate.
    + apply existsb_update_false; [|assumption].
      intros x _ Hx. unfold reservation_holds in Hx.
      apply andb_true_iff in Hx. destruct Hx as [_ Hx]. simpl in Hx.
      destruct Hs as [-> | ->]; discriminate.
  - assert (Hne := Havail copy Hin Hav).
    cbn [copies reservations loans with_reservations with_seqs save_copy_status
         with_copies].
    split; [now apply Hsave|]. split; [|assumption].
    rewrite existsb_app, Hr. cbn [existsb orb].
    unfold reservation_holds. cbn [reservation_copy_id set_reservation_id].
    rewrite Hcopy. apply Z.eqb_neq in Hne. now rewrite Hne.
  - assert (Hne := Havail copy Hin Hav).
    cbn [copies reservations loans with_loans with_seqs save_copy_status with_copies].
    split; [now apply Hsave|]. split; [assumption|].
    rewrite existsb_app, Hl. cbn [existsb orb].
    unfold loan_holds. cbn [loan_copy_id set_loan_id].
    rewrite Hcopy. apply Z.eqb_neq in Hne. now rewrite Hne.
  - assert (Hne : copy_id copy <> cid).
    { intros E. assert (Hh := existsb_false_in _ _ res Hr Hres).
      unfold reservation_holds in Hh.
      rewrite <- Hid, E, Z.eqb_refl, Hact in Hh. discriminate. }
    cbn [copies reservations loans with_loans with_seqs save_copy_status with_copies
         with_reservations].
    split; [now apply Hsave|]. split.
    + apply existsb_update_false; [|assumption].
      intros x _ Hx. unfold reservation_holds in Hx.
      apply andb_true_iff in Hx. destruct Hx as [_ Hx]. discriminate.
    + rewrite existsb_app, Hl. cbn [existsb orb].
      unfold loan_holds. cbn [loan_copy_id set_loan_id].
      rewrite Hcopy. apply Z.eqb_neq in Hne. now rewrite Hne.
  - assert (Hne : loan_copy_id loan <> cid).
    { intros E. assert (Hh := existsb_false_in _ _ loan Hl Hin).
      unfold loan_holds in Hh. rewrite E, Z.eqb_refl in Hh.
      unfold ACTIVE_LOAN_STATUSES in Hh. rewrite Hact in Hh. discriminate. }
    cbn [copies reservations loans with_loans save_copy_status with_copies].
    split; [now apply Hsave|]. split; [assumption|].
    apply existsb_update_false; [|assumption].
    intros x _ Hx. unfold loan_holds in Hx.
    apply andb_true_iff in Hx. destruct Hx as [_ Hx]. discriminate.
  - unfold update_overdue_statuses. cbn [fst copies reservations loans with_loans].
    split; [assumption|]. split; [assumption|].
    destruct (existsb (loan_holds cid) (update_where _ _ (loans st))) eqn:E;
      [|reflexivity].
    apply existsb_exists in E. destruct E as [y [Hy Hh]].
    apply update_where_in in Hy. destruct Hy as [x [Hx ->]].
    assert (Hx' : loan_holds cid x = true).
    { destruct ((loan_status x =? "open")%string && (loan_due_date x <? today))
        eqn:Hp; [|assumption].
      apply andb_true_iff in Hp. destruct Hp as [Hp _]. apply String.eqb_eq in Hp.
      unfold loan_holds in *. apply andb_true_iff in Hh. destruct Hh as [Hh _].
      simpl in Hh. now rewrite Hh, Hp. }
    rewrite (existsb_false_in _ _ x Hl Hx) in Hx'. discriminate.
  - cbn [copies reservations loans with_reservations].
    split; [assumption|]. split; [|assumption].
    apply existsb_update_false; [|assumption].
    intros x _ Hx. exact Hx.
Qed.

Lemma stranded_txns (st st' : Store) (cid : Z) :
  (forall c, In c (copies st) -> copy_id c = cid -> copy_status c = "reserved") ->
  existsb (reservation_holds cid) (reservations st) = false ->
  existsb (loan_holds cid) (loans st) = false ->
  txns st st' ->
  (forall c, In c (copies st') -> copy_id c = cid -> copy_status c = "reserved")
  /\ existsb (reservation_holds cid) (reservations st') = false
  /\ existsb (loan_holds cid) (loans st') = false.
Proof.
  intros Hc Hr Hl H. induction H as [|st st1 st2 Ht _ IH]; [auto|].
  destruct (stranded_txn st st1 cid Hc Hr Hl Ht) as [Hc1 [Hr1 Hl1]].
  now apply IH.
Qed.

Lemma NoDup_map_filter {A} (key : A -> Z) (p : A -> bool) (rows : list A) :
  NoDup (map key rows) -> NoDup (map key (filter p rows)).
Proof.
  induction rows as [|x rows IH]; intros H; simpl; [constructor|].
  inversion H as [|? ? Hnot Hnd]; subst. destruct (p x); [|now apply IH].
  simpl. constructor; [|now apply IH].
  intros Hin. apply Hnot. apply in_map_iff in Hin. destruct Hin as [y [Hy Hyin]].
  apply filter_In in Hyin. rewrite <- Hy. apply in_map. tauto.
Qed.

Lemma keys_delete_instance (id : Z) (user_roles : list UserRole) (st : Store) :
  keys st -> keys (snd (delete_instance id user_roles st)).
Proof.
  intros [Hc [Hl [Hr [Hlt Hrt]]]]. unfold keys, delete_instance.
  cbn [snd copies loans reservations loans_id_seq reservations_id_seq].
  repeat split; try assumption.
  - now apply NoDup_map_filter.
  - intros r Hin. apply filter_In in Hin. now apply Hrt.
Qed.

Lemma count_one {A} (h : A -> bool) (rows : list A) (x : A) :
  In x rows -> h x = true -> (1 <= List.length (filter h rows))%nat.
Proof.
  intros Hx Hh.
  assert (Hin : In x (filter h rows)) by (apply filter_In; now split).
  destruct (filter h rows); [destruct Hin | simpl; lia].
Qed.

Lemma Forall2_in_left {A} (R : A -> A -> Prop) (l l' : list A) (x : A) :
  Forall2 R l l' -> In x l -> exists y, In y l' /\ R x y.
Proof.
  intros H. induction H as [|a b l l' Hab _ IH]; intros Hin; [destruct Hin|].
  destruct Hin as [-> | Hin].
  - exists b. split; [now left | assumption].
  - destruct (IH Hin) as [y [Hy HR]]. exists y. split; [now right | assumption].
Qed.

(** X25. A deleted reader leaves a stranded copy.  When the deleted user
    had an active reservation, the cascade removes the reservation but
    nobody resets its copy: the copy is then [reserved] with no reservation
    and no loan, and no sequence of engine calls ever changes that -- it is
    never again offered, reserved, lent or released. *)
Theorem delete_user_strands_copy (session : Session) (uid : Z) (roles : list Role)
        (user_roles user_roles' : list UserRole) (st st' : Store) (m : UserMsg)
        (r : Reservation) (c : Copy) :
  keys st -> consistent st ->
  In r (reservations st) -> reservation_status r = "active" ->
  reservation_reader_id r = uid ->
  In c (copies st) -> copy_id c = reservation_copy_id r ->
  copy_status c = "reserved" ->
  delete_user session uid roles user_roles st = ((user_roles', st'), (true, m)) ->
  forall st'', reachable st' st'' ->
    (exists c', In c' (copies st'') /\ copy_id c' = copy_id c)
    /\ (forall c', In c' (copies st'') -> copy_id c' = copy_id c ->
                   copy_status c' = "reserved")
    /\ holders st'' (copy_id c) = 0%nat
    /\ (forall book_id branch_id c',
          In c' (available_copies st'' book_id branch_id) ->
          copy_id c' <> copy_id c).
Proof.
  intros Hk [Hone _] Hr Hact Hreader Hc Hcid Hres Hdel st'' Hreach.
  assert (Hst' := delete_user_deleted _ _ _ _ _ _ _ _ Hdel).
  assert (Hrs : reservations st'
                = filter (fun x => negb (reservation_reader_id x =? uid))
                         (reservations st)) by (now subst st').
  assert (Hcs : copies st' = copies st) by (now subst st').
  assert (Hls : loans st' = loans st) by (now subst st').
  assert (Hk' : keys st') by (subst st'; now apply keys_delete_instance).
  assert (Hholds_r : reservation_holds (copy_id c) r = true).
  { unfold reservation_holds. now rewrite Hcid, Z.eqb_refl, Hact. }
  assert (Hrows : forall c0, In c0 (copies st') -> copy_id c0 = copy_id c ->
                             copy_status c0 = "reserved").
  { intros c0 Hc0 Hid. rewrite Hcs in Hc0.
    destruct Hk as [Hndc _].
    now rewrite (NoDup_key_inj copy_id _ c0 c Hndc Hc0 Hc Hid). }
  assert (Hnor : existsb (reservation_holds (copy_id c)) (reservations st') = false).
  { destruct (existsb _ (reservations st')) eqn:E; [|reflexivity].
    exfalso. apply existsb_exists in E. destruct E as [x [Hx Hhx]].
    rewrite Hrs in Hx. apply filter_In in Hx. destruct Hx as [Hx Hother].
    assert (Hne : x <> r).
    { intros ->. rewrite Hreader, Z.eqb_refl in Hother. discriminate. }
    assert (H2 := count_two _ _ x r Hx Hr Hne Hhx Hholds_r).
    specialize (Hone (copy_id c)). unfold holders in Hone. lia. }
  assert (Hnol : existsb (loan_holds (copy_id c)) (loans st') = false).
  { destruct (existsb _ (loans st')) eqn:E; [|reflexivity].
    exfalso. rewrite Hls in E. apply held_iff_count in E.
    assert (H1 : (1 <= List.length (filter (reservation_holds (copy_id c))
                                           (reservations st)))%nat).
    { apply (count_one _ _ r); assumption. }
    specialize (Hone (copy_id c)). unfold holders in Hone. lia. }
  assert (Htx := txns_reachable st' st'' Hk' Hreach).
  destruct (stranded_txns st' st'' (copy_id c) Hrows Hnor Hnol Htx)
    as [Hrows'' [Hnor'' Hnol'']].
  split.
  { destruct (history_reachable st' st'' Hk' Hreach) as [_ [_ [Hmoves _]]].
    assert (Hc' : In c (copies st')) by now rewrite Hcs.
    destruct (Forall2_in_left _ _ _ c Hmoves Hc') as [y [Hy Hm]].
    exists y. split; [assumption|].
    destruct Hm as [-> | [s [_ ->]]]; reflexivity. }
  split; [exact Hrows''|].
  split.
  { unfold holders.
    rewrite (existsb_false_count _ _ Hnol''), (existsb_false_count _ _ Hnor'').
    reflexivity. }
  intros book_id branch_id c' Hav Hid.
  apply available_copies_in in Hav. destruct Hav as [Hin [Hs _]].
  rewrite (Hrows'' c' Hin Hid) in Hs. discriminate.
Qed.

(** * The theorems at work on the sample data *)

Ltac evaluate_store st :=
  let v := eval vm_compute in st in change st with v.

Ltac concrete_keys :=
  unfold keys; cbn;
  repeat split;
  try (repeat constructor; cbn; intuition discriminate);
  intros ? H; cbn in H;
  repeat (destruct H as [<- | H]; [cbn; lia|]); destruct H.

Lemma shelf_all_keys : keys sample.shelf.
Proof. concrete_keys. Defined.

Lemma stale_shelf_keys : keys sample.stale_shelf.
Proof. concrete_keys. Defined.

Lemma two_loans_keys : keys sample.two_loans.
Proof. concrete_keys. Defined.

Lemma reserved_shelf_keys : keys sample.reserved_shelf.
Proof. evaluate_store sample.reserved_shelf. concrete_keys. Defined.

Lemma returned_shelf_keys : keys scenes.returned_shelf.
Proof. evaluate_store scenes.returned_shelf. concrete_keys. Defined.

Lemma staffed_shelf_keys : keys scenes.staffed_shelf.
Proof. evaluate_store scenes.staffed_shelf. concrete_keys. Defined.

Lemma busy_shelf_reachable : reachable sample.shelf sample.busy_shelf.
Proof.
  unfold sample.busy_shelf, sample.reserved_shelf.
  eapply reachable_step; [eapply reachable_step; [apply reachable_start|]|].
  - apply step_create_reservation.
  - apply step_issue_loan.
Defined.

Lemma shelf_mirrors : status_mirrors sample.shelf.
Proof.
  intros row Hrow. cbn in Hrow.
  destruct Hrow as [<- | [<- | [<- | []]]]; cbn; split; split; discriminate.
Defined.

Lemma keys_kept_witness :
  keys sample.shelf /\ reachable sample.shelf sample.busy_shelf
  /\ NoDup (map loan_id (loans sample.busy_shelf))
  /\ NoDup (map reservation_id (reservations sample.busy_shelf))
  /\ forall l, In l (loans sample.busy_shelf) ->
               loan_id l < loans_id_seq sample.busy_shelf.
Proof.
  split; [exact shelf_all_keys|]. split; [exact busy_shelf_reachable|].
  destruct (keys_kept sample.shelf sample.busy_shelf shelf_all_keys
                      busy_shelf_reachable) as [_ [Hl [Hr [Hlt _]]]].
  split; [exact Hl|]. split; [exact Hr | exact Hlt].
Defined.

Lemma status_mirrors_kept_witness :
  keys sample.shelf /\ consistent sample.shelf /\ status_mirrors sample.shelf
  /\ reachable sample.shelf sample.busy_shelf
  /\ forall row, In row (copies sample.busy_shelf) ->
       (copy_status row = "loaned"
        <-> exists l, In l (loans sample.busy_shelf)
                      /\ loan_copy_id l = copy_id row
                      /\ (loan_status l = "open" \/ loan_status l = "overdue"))
       /\ (copy_status row = "reserved"
           <-> exists r, In r (reservations sample.busy_shelf)
                         /\ reservation_copy_id r = copy_id row
                         /\ reservation_status r = "active").
Proof.
  split; [exact shelf_all_keys|]. split; [exact shelf_consistent|].
  split; [exact shelf_mirrors|]. split; [exact busy_shelf_reachable|].
  exact (status_mirrors_kept sample.shelf sample.busy_shelf shelf_all_keys
                             shelf_consistent shelf_mirrors busy_shelf_reachable).
Defined.

Lemma loans_history_witness :
  let st1 := fst (update_overdue_statuses 100 sample.two_loans) in
  let st2 := fst (return_loan 120 1 sample.librarian st1) in
  let st3 := fst (issue_loan 121 "INV-0001" "kap213" sample.librarian st2) in
  keys sample.two_loans /\ reachable sample.two_loans st3
  /\ map loan_status (loans sample.two_loans) = ["open"; "open"]
  /\ map loan_status (loans st1) = ["overdue"; "open"]
  /\ map loan_status (loans st2) = ["returned"; "open"]
  /\ map loan_status (loans st3) = ["returned"; "open"; "open"]
  /\ map loan_id (loans st3) = [1; 2; 3]
  /\ exists old new,
       loans st3 = old ++ new
       /\ Forall2 (fun l l' =>
                     l' = l
                     \/ (loan_status l = "open" /\ l' = set_loan_status "overdue" l)
                     \/ ((loan_status l = "open" \/ loan_status l = "overdue")
                         /\ exists today u, l' = close_loan today u l))
                  (loans sample.two_loans) old
       /\ Forall (fun l => loans_id_seq sample.two_loans <= loan_id l) new.
Proof.
  cbv zeta.
  assert (Hreach : reachable sample.two_loans
                     (fst (issue_loan 121 "INV-0001" "kap213" sample.librarian
                             (fst (return_loan 120 1 sample.librarian
                                     (fst (update_overdue_statuses
                                             100 sample.two_loans))))))).
  { eapply reachable_step;
      [eapply reachable_step;
       [eapply reachable_step; [apply reachable_start|]|]|].
    - apply step_update_overdue_statuses.
    - apply step_return_loan.
    - apply step_issue_loan. }
  split; [exact two_loans_keys|]. split; [exact Hreach|].
  repeat (split; [reflexivity|]).
  exact (loans_history sample.two_loans _ two_loans_keys Hreach).
Defined.

Lemma reservations_history_witness :
  keys sample.stale_shelf
  /\ reachable sample.stale_shelf
               (fst (expire_old_reservations (sample.at_noon 105) sample.stale_shelf))
  /\ exists old new,
       reservations (fst (expire_old_reservations (sample.at_noon 105)
                                                  sample.stale_shelf))
       = old ++ new
       /\ Forall2 reservation_moves (reservations sample.stale_shelf) old
       /\ Forall (fun r => reservations_id_seq sample.stale_shelf
                           <= reservation_id r) new
       /\ forall r, In r (reservations sample.stale_shelf) ->
                    reservation_status r <> "active" ->
                    In r (reservations
                            (fst (expire_old_reservations (sample.at_noon 105)
                                                          sample.stale_shelf))).
Proof.
  assert (Hreach : reachable sample.stale_shelf
                     (fst (expire_old_reservations (sample.at_noon 105)
                                                   sample.stale_shelf))).
  { eapply reachable_step; [apply reachable_start|].
    apply step_expire_old_reservations. }
  split; [exact stale_shelf_keys|]. split; [exact Hreach|].
  exact (reservations_history sample.stale_shelf _ stale_shelf_keys Hreach).
Defined.

Lemma copies_frame_witness :
  keys sample.shelf /\ reachable sample.shelf sample.busy_shelf
  /\ users sample.busy_shelf = users sample.shelf
  /\ locations sample.busy_shelf = locations sample.shelf
  /\ map copy_inventory_code (copies sample.busy_shelf)
     = ["INV-0001"; "INV-0002"; "INV-0003"].
Proof.
  split; [exact shelf_all_keys|]. split; [exact busy_shelf_reachable|].
  destruct (copies_frame sample.shelf sample.busy_shelf shelf_all_keys
                         busy_shelf_reachable) as [Hu [Hl _]].
  split; [exact Hu|]. split; [exact Hl | reflexivity].
Defined.

Lemma expiry_follows_pickup_date_witness :
  keys sample.stale_shelf
  /\ (forall r, In r (reservations sample.stale_shelf) ->
                reservation_expires_at r
                = mk_datetime (reservation_pickup_date r) (mk_time 23 59 59 0))
  /\ forall r,
       In r (reservations
               (fst (extend_reservation (sample.at_noon 100) sample.reader 2
                                        sample.stale_shelf))) ->
       reservation_expires_at r
       = mk_datetime (reservation_pickup_date r) (mk_time 23 59 59 0).
Proof.
  assert (Hexp : forall r, In r (reservations sample.stale_shelf) ->
                           reservation_expires_at r
                           = mk_datetime (reservation_pickup_date r)
                                         (mk_time 23 59 59 0)).
  { intros r Hr. cbn in Hr. destruct Hr as [<- | [<- | []]]; reflexivity. }
  split; [exact stale_shelf_keys|]. split; [exact Hexp|].
  apply (expiry_follows_pickup_date sample.stale_shelf _ stale_shelf_keys Hexp).
  eapply reachable_step; [apply reachable_start|].
  apply step_extend_reservation.
Defined.

Lemma finished_reservation_refused_witness :
  let r := mk_Reservation 1 "cancelled" 99 (mk_datetime 99 (mk_time 23 59 59 0))
                          false 3 1 1 in
  let st1 := fst (expire_old_reservations (sample.at_noon 105) sample.stale_shelf) in
  let st2 := fst (create_reservation 105 (sample.at_noon 105) sample.reader 1 1 106
                                     st1) in
  let st3 := fst (fulfill_reservation 106 (sample.at_noon 106) sample.librarian
                                      3 14 st2) in
  keys sample.stale_shelf /\ In r (reservations sample.stale_shelf)
  /\ reservation_status r <> "active"
  /\ reachable sample.stale_shelf st3
  /\ map reservation_status (reservations sample.stale_shelf)
     = ["cancelled"; "active"]
  /\ map reservation_status (reservations st3)
     = ["cancelled"; "expired"; "fulfilled"]
  /\ In r (reservations st3)
  /\ exists m, cancel_reservation (sample.at_noon 107) sample.reader 1 st3
               = (fst (expire_old_reservations (sample.at_noon 107) st3),
                  Ret (false, m))
               /\ (m = MsgNotYourReservation \/ m = MsgReservationNoLongerActive).
Proof.
  cbv zeta.
  assert (Hin : In (mk_Reservation 1 "cancelled" 99
                                   (mk_datetime 99 (mk_time 23 59 59 0))
                                   false 3 1 1)
                   (reservations sample.stale_shelf)) by (now left).
  assert (Hdead : reservation_status
                    (mk_Reservation 1 "cancelled" 99
                                    (mk_datetime 99 (mk_time 23 59 59 0))
                                    false 3 1 1) <> "active") by discriminate.
  assert (Hreach : reachable sample.stale_shelf
            (fst (fulfill_reservation 106 (sample.at_noon 106) sample.librarian 3 14
               (fst (create_reservation 105 (sample.at_noon 105) sample.reader
                                        1 1 106
                  (fst (expire_old_reservations (sample.at_noon 105)
                                                sample.stale_shelf))))))).
  { eapply reachable_step;
      [eapply reachable_step;
       [eapply reachable_step; [apply reachable_start|]|]|].
    - apply step_expire_old_reservations.
    - apply step_create_reservation.
    - apply step_fulfill_reservation. }
  split; [exact stale_shelf_keys|]. split; [exact Hin|]. split; [exact Hdead|].
  split; [exact Hreach|]. split; [reflexivity|]. split; [reflexivity|].
  destruct (finished_reservation_refused sample.stale_shelf _ _
              stale_shelf_keys Hin Hdead Hreach
              107 (sample.at_noon 107) sample.reader 14)
    as [Hkept [_ [Hcancel _]]].
  split; [exact Hkept | exact Hcancel].
Defined.

Lemma closed_loan_refused_witness :
  let l := mk_Loan 1 "returned" 76 90 (Some 120) 1 3 2 in
  let st1 := fst (update_overdue_statuses 125 scenes.returned_shelf) in
  let st2 := fst (issue_loan 125 "INV-0001" "kap213" sample.librarian st1) in
  let st3 := fst (return_loan 126 2 sample.librarian st2) in
  keys scenes.returned_shelf /\ In l (loans scenes.returned_shelf)
  /\ status_in (loan_status l) ["open"; "overdue"] = false
  /\ reachable scenes.returned_shelf st3
  /\ map loan_status (loans scenes.returned_shelf) = ["returned"; "open"]
  /\ map loan_status (loans st1) = ["returned"; "overdue"]
  /\ map loan_status (loans st3) = ["returned"; "returned"; "open"]
  /\ In l (loans st3)
  /\ return_loan 127 1 sample.librarian st3
     = (st3, Ret (false, MsgCannotReturn "returned")).
Proof.
  cbv zeta.
  assert (Hin : In (mk_Loan 1 "returned" 76 90 (Some 120) 1 3 2)
                   (loans scenes.returned_shelf)) by (now left).
  assert (Hreach : reachable scenes.returned_shelf
            (fst (return_loan 126 2 sample.librarian
               (fst (issue_loan 125 "INV-0001" "kap213" sample.librarian
                  (fst (update_overdue_statuses 125 scenes.returned_shelf))))))).
  { eapply reachable_step;
      [eapply reachable_step;
       [eapply reachable_step; [apply reachable_start|]|]|].
    - apply step_update_overdue_statuses.
    - apply step_issue_loan.
    - apply step_return_loan. }
  split; [exact returned_shelf_keys|]. split; [exact Hin|].
  split; [reflexivity|]. split; [exact Hreach|].
  repeat (split; [reflexivity|]).
  destruct (closed_loan_refused scenes.returned_shelf _ _
              returned_shelf_keys Hin eq_refl Hreach) as [Hkept H].
  split; [exact Hkept | exact (H 127 sample.librarian)].
Defined.

Lemma issue_then_return_witness :
  keys sample.reserved_shelf
  /\ (exists u, In u (users sample.reserved_shelf)
                /\ user_id u = user_id sample.librarian)
  /\ issue_loan 100 "INV-0002" "kap213" sample.librarian sample.reserved_shelf
     = (sample.busy_shelf, Ret (true, MsgLoanIssued 1 114))
  /\ exists st'' row,
       return_loan 103 1 sample.librarian sample.busy_shelf
       = (st'', Ret (true, MsgReturned))
       /\ copies st'' = copies sample.reserved_shelf
       /\ loans st'' = loans sample.reserved_shelf ++ [row]
       /\ loan_status row = "returned"
       /\ loan_return_date row = Some 103.
Proof.
  assert (Hissue : issue_loan 100 "INV-0002" "kap213" sample.librarian
                              sample.reserved_shelf
                   = (sample.busy_shelf, Ret (true, MsgLoanIssued 1 114)))
    by reflexivity.
  assert (Hknown : exists u, In u (users sample.reserved_shelf)
                             /\ user_id u = user_id sample.librarian).
  { exists sample.librarian. split; [left|]; reflexivity. }
  split; [exact reserved_shelf_keys|]. split; [exact Hknown|].
  split; [exact Hissue|].
  destruct (issue_then_return 100 "INV-0002" "kap213" sample.librarian
              sample.reserved_shelf sample.busy_shelf 1 114 103 sample.librarian
              reserved_shelf_keys Hknown Hissue)
    as [st'' [row [H1 [H2 [H3 [_ [_ [H4 [_ [_ [H5 _]]]]]]]]]]].
  exists st'', row. auto.
Defined.

Lemma create_then_cancel_witness :
  keys sample.shelf
  /\ create_reservation 100 (sample.at_noon 100) sample.reader 1 1 101 sample.shelf
     = (sample.reserved_shelf, Ret (true, MsgReservationCreated 101, Some 1))
  /\ exists st'' row,
       cancel_reservation (sample.at_noon 101) sample.reader 1 sample.reserved_shelf
       = (st'', Ret (true, MsgReservationCancelled))
       /\ copies st'' = copies sample.shelf
       /\ reservations st'' = [row]
       /\ reservation_status row = "cancelled".
Proof.
  assert (Hcreate : create_reservation 100 (sample.at_noon 100) sample.reader 1 1 101
                                       sample.shelf
                    = (sample.reserved_shelf,
                       Ret (true, MsgReservationCreated 101, Some 1)))
    by reflexivity.
  assert (Hfresh : forall r, In r (reservations sample.reserved_shelf) ->
                             stale (sample.at_noon 101) r = false).
  { intros r Hr. cbn in Hr. destruct Hr as [<- | []]. reflexivity. }
  split; [exact shelf_all_keys|]. split; [exact Hcreate|].
  destruct (create_then_cancel 100 (sample.at_noon 100) sample.reader 1 1 101
              sample.shelf sample.reserved_shelf _ 1 (sample.at_noon 101)
              shelf_all_keys Hcreate Hfresh)
    as [st'' [row [H1 [H2 [H3 [_ [_ [H4 _]]]]]]]].
  exists st'', row. auto.
Defined.

Lemma last_copy_reserved_once_witness :
  let c := mk_Copy 2 "INV-0002" "available" 1 (Some 1) in
  let run := create_reservation 100 (sample.at_noon 100) sample.librarian 1 1 100
                                sample.reserved_shelf in
  available_copies (fst (expire_old_reservations (sample.at_noon 100)
                                                 sample.reserved_shelf)) 1 1 = [c]
  /\ snd run = Ret (true, MsgReservationCreated 100, Some 2)
  /\ create_reservation 100 (sample.at_noon 100) sample.reader 1 1 102 (fst run)
     = (fst run, Ret (false, MsgNoFreeCopies, None)).
Proof.
  cbv zeta.
  assert (Hone : available_copies
                   (fst (expire_old_reservations (sample.at_noon 100)
                                                 sample.reserved_shelf)) 1 1
                 = [mk_Copy 2 "INV-0002" "available" 1 (Some 1)]) by reflexivity.
  assert (Hcreate : create_reservation 100 (sample.at_noon 100) sample.librarian
                                       1 1 100 sample.reserved_shelf
                    = (fst (create_reservation 100 (sample.at_noon 100)
                                               sample.librarian 1 1 100
                                               sample.reserved_shelf),
                       Ret (true, MsgReservationCreated 100, Some 2)))
    by reflexivity.
  split; [exact Hone|]. split; [reflexivity|].
  apply (last_copy_reserved_once 100 (sample.at_noon 100) sample.librarian 1 1 100
           sample.reserved_shelf _ _ 2 _ Hone Hcreate
           100 (sample.at_noon 100) sample.reader 102).
  - lia.
  - intros r Hr. vm_compute in Hr.
    destruct Hr as [<- | [<- | []]]; reflexivity.
Defined.

Lemma new_reservation_lifetime_witness :
  keys sample.shelf
  /\ create_reservation 100 (sample.at_noon 100) sample.reader 1 1 101 sample.shelf
     = (sample.reserved_shelf, Ret (true, MsgReservationCreated 101, Some 1))
  /\ exists row,
       get_or_none (fun r => reservation_id r =? 1)
                   (reservations
                      (fst (expire_old_reservations
                              (mk_datetime 101 (mk_time 23 59 59 1))
                              sample.reserved_shelf))) = Some row
       /\ reservation_status row = "expired".
Proof.
  assert (Hcreate : create_reservation 100 (sample.at_noon 100) sample.reader 1 1 101
                                       sample.shelf
                    = (sample.reserved_shelf,
                       Ret (true, MsgReservationCreated 101, Some 1)))
    by reflexivity.
  split; [exact shelf_all_keys|]. split; [exact Hcreate|].
  destruct (new_reservation_lifetime 100 (sample.at_noon 100) sample.reader 1 1 101
              sample.shelf sample.reserved_shelf _ 1
              (mk_datetime 101 (mk_time 23 59 59 1))
              shelf_all_keys Hcreate)
    as [row [Hget [_ [_ [Hlate _]]]]]; try (cbn; lia).
  exists row. split; [exact Hget|].
  apply Hlate. right. cbn. lia.
Defined.

Lemma fulfill_then_return_witness :
  keys sample.reserved_shelf
  /\ (exists u, In u (users sample.reserved_shelf)
                /\ user_id u = user_id sample.librarian)
  /\ snd (fulfill_reservation 101 (sample.at_noon 101) sample.librarian 1 14
                              sample.reserved_shelf)
     = Ret (true, MsgFulfilled 115)
  /\ exists st'' res,
       return_loan 110 1 sample.librarian
                   (fst (fulfill_reservation 101 (sample.at_noon 101)
                                             sample.librarian 1 14
                                             sample.reserved_shelf))
       = (st'', Ret (true, MsgReturned))
       /\ loans st''
          = loans sample.reserved_shelf
            ++ [mk_Loan 1 "returned" 101 115 (Some 110)
                        (reservation_copy_id res) (reservation_reader_id res) 2].
Proof.
  assert (Hknown : exists u, In u (users sample.reserved_shelf)
                             /\ user_id u = user_id sample.librarian).
  { exists sample.librarian. split; [left|]; reflexivity. }
  split; [exact reserved_shelf_keys|]. split; [exact Hknown|].
  split; [reflexivity|].
  destruct (fulfill_then_return 101 (sample.at_noon 101) sample.librarian 1 14
              sample.reserved_shelf
              (fst (fulfill_reservation 101 (sample.at_noon 101) sample.librarian
                                        1 14 sample.reserved_shelf))
              115 110 sample.librarian reserved_shelf_keys Hknown eq_refl)
    as [st'' [res [_ [H1 [H2 _]]]]].
  exists st'', res. split; [exact H1 | exact H2].
Defined.

Lemma run_out_reservation_refused_witness :
  let r := mk_Reservation 2 "active" 100 (mk_datetime 100 (mk_time 23 59 59 0))
                          false 3 2 1 in
  keys sample.stale_shelf /\ In r (reservations sample.stale_shelf)
  /\ dt_ltb (reservation_expires_at r) (sample.at_noon 105) = true
  /\ exists m, fulfill_reservation 105 (sample.at_noon 105) sample.librarian 2 14
                                   sample.stale_shelf
               = (fst (expire_old_reservations (sample.at_noon 105)
                                               sample.stale_shelf),
                  Ret (false, m))
               /\ (m = MsgReservationNotFound \/ m = MsgReservationNotActive).
Proof.
  cbv zeta.
  assert (Hin : In (mk_Reservation 2 "active" 100
                                   (mk_datetime 100 (mk_time 23 59 59 0))
                                   false 3 2 1)
                   (reservations sample.stale_shelf)) by (right; now left).
  split; [exact stale_shelf_keys|]. split; [exact Hin|]. split; [reflexivity|].
  destruct (run_out_reservation_refused 105 (sample.at_noon 105) sample.librarian 14
              sample.stale_shelf _ stale_shelf_keys Hin eq_refl eq_refl)
    as [_ [_ [_ H]]].
  exact H.
Defined.

Lemma cancel_reservation_spec_witness :
  exists st',
    cancel_reservation (sample.at_noon 100) sample.reader 1 sample.reserved_shelf
    = (st', Ret (true, MsgReservationCancelled))
    /\ map reservation_status (reservations st') = ["cancelled"]
    /\ map copy_status (copies st') = ["available"; "available"; "lost"]
    /\ cancel_reservation (sample.at_noon 100) sample.reader 1 st'
       = (st', Ret (false, MsgReservationNoLongerActive)).
Proof.
  destruct (cancel_reservation_spec (sample.at_noon 100) sample.reader 1
                                    sample.reserved_shelf) as [_ [_ [_ H]]].
  destruct (H (mk_Reservation 1 "active" 101 (mk_datetime 101 (mk_time 23 59 59 0))
                              false 3 1 1) eq_refl eq_refl eq_refl)
    as [st' [H1 [H2 [H3 [_ H4]]]]].
  exists st'. split; [exact H1|].
  split; [rewrite H2; reflexivity|].
  split; [rewrite H3; reflexivity | exact H4].
Defined.

Lemma can_only_by_grant_witness :
  can sample.reader_session "create_reservation" = true
  /\ exists r v,
       In r (user_role_rights sample.seed_roles sample.seed_user_roles sample.reader)
       /\ In ("create_reservation", v) (_normalize_rights sample.no_json r)
       /\ truthy v = true.
Proof.
  split; [reflexivity|].
  destruct (can_only_by_grant sample.no_json sample.seed_roles
              sample.seed_user_roles sample.reader ["Reader"] "create_reservation")
    as [H _].
  destruct (H eq_refl) as [[r [Hr Hall]] | [r [v [Hr [Hin [Hv _]]]]]].
  - exfalso. cbn in Hr. destruct Hr as [<- | []]. discriminate.
  - exists r, v. auto.
Defined.

Lemma offered_branch_can_be_reserved_witness :
  In (scenes.central, 2)
     (list_available_branches_for_book [scenes.central] 1 sample.shelf)
  /\ available_copies sample.shelf 1 1 <> []
  /\ (exists u, In u (users sample.shelf) /\ user_id u = user_id sample.reader)
  /\ exists st' rid,
       create_reservation 100 (sample.at_noon 100) sample.reader 1 1 102 sample.shelf
       = (st', Ret (true, MsgReservationCreated 102, Some rid)).
Proof.
  assert (Hin : In (scenes.central, 2)
                   (list_available_branches_for_book [scenes.central] 1
                                                     sample.shelf))
    by (now left).
  assert (Hknown : exists u, In u (users sample.shelf)
                             /\ user_id u = user_id sample.reader).
  { exists sample.reader. split; [right; left|]; reflexivity. }
  split; [exact Hin|].
  destruct (offered_branch_can_be_reserved [scenes.central] 1 sample.shelf
                                           scenes.central) as [H _].
  destruct (H 2 Hin) as [_ [_ [Hne [_ Hcreate]]]].
  split; [exact Hne|]. split; [exact Hknown|].
  apply (Hcreate 100 (sample.at_noon 100) sample.reader 102 shelf_consistent);
    [lia | exact Hknown].
Defined.

Lemma shelf_codes : NoDup (map copy_inventory_code (copies sample.shelf)).
Proof.
  cbn. repeat constructor; cbn; intuition discriminate.
Defined.

Lemma update_copy_keeps_catalogue_witness :
  NoDup (map copy_id (copies sample.shelf))
  /\ NoDup (map copy_inventory_code (copies sample.shelf))
  /\ snd (update_copy 3 "INV-0009" "damaged" None sample.shelf)
     = Ret (true, MsgCopyUpdated)
  /\ NoDup (map copy_inventory_code
                (copies (fst (update_copy 3 "INV-0009" "damaged" None
                                          sample.shelf)))).
Proof.
  split; [exact shelf_keys|]. split; [exact shelf_codes|]. split; [reflexivity|].
  destruct (update_copy_keeps_catalogue 3 "INV-0009" "damaged" None sample.shelf
                                        shelf_keys shelf_codes) as [_ [H _]].
  exact H.
Defined.

Lemma held_copy_marked_available_witness :
  loan_holds 1 (mk_Loan 1 "open" 76 90 None 1 3 2) = true
  /\ exists st',
       update_copy 1 "INV-0001" "available" (Some 1) sample.two_loans
       = (st', Ret (true, MsgCopyUpdated))
       /\ issue_loan 100 "INV-0001" "kap213" sample.librarian st'
          = (with_seqs st' 4 1, Ret (false, MsgDbError)).
Proof.
  split; [reflexivity|].
  destruct (held_copy_marked_available sample.two_loans
              (mk_Copy 1 "INV-0001" "loaned" 1 (Some 1))
              (mk_Loan 1 "open" 76 90 None 1 3 2)
              "INV-0001" (Some 1) 100 "kap213" sample.librarian sample.reader)
    as [st' [H1 [_ [_ H2]]]];
    try reflexivity; try (now left).
  - destruct two_loans_keys as [H _]. exact H.
  - exists st'. split; [exact H1 | exact H2].
Defined.

Lemma delete_copy_keeps_references_witness :
  delete_copy 1 sample.reserved_shelf = (sample.reserved_shelf, Raise IntegrityError)
  /\ (exists n, delete_copy 2 sample.busy_shelf
                = (sample.busy_shelf, Ret (false, MsgCopyHasLoans n)))
  /\ snd (delete_copy 3 sample.busy_shelf) = Ret (true, MsgCopyDeleted).
Proof.
  split; [|split].
  - destruct (delete_copy_keeps_references 1 sample.reserved_shelf)
      as [_ [_ [_ H]]].
    destruct (H (mk_Copy 1 "INV-0001" "reserved" 1 (Some 1)) eq_refl)
      as [_ [H2 _]].
    apply H2; reflexivity.
  - exists 1. reflexivity.
  - reflexivity.
Defined.

Lemma primary_role_priority_witness :
  primary_role (mk_Session sample.librarian ["Reader"; "Librarian"] [])
  = "Librarian".
Proof.
  destruct (primary_role_priority
              (mk_Session sample.librarian ["Reader"; "Librarian"] []))
    as [_ [H _]].
  apply H.
  - cbn. intuition discriminate.
  - cbn. auto.
Defined.

Lemma authenticate_sound_witness :
  exists s,
    authenticate sample.no_json scenes.verify_plain scenes.all_active scenes.hash_of
                 " kap213 " "secret" scenes.roles_table scenes.user_roles_table
                 sample.shelf
    = (true, MsgOK, Some s)
    /\ user_login (session_user s) = "kap213"
    /\ session_roles s <> [].
Proof.
  eexists. split; [reflexivity|].
  destruct (authenticate_sound sample.no_json scenes.verify_plain scenes.all_active
              scenes.hash_of " kap213 " "secret" scenes.roles_table
              scenes.user_roles_table sample.shelf MsgOK _ eq_refl)
    as [_ [H1 [_ [_ [H2 _]]]]].
  split; [exact H1 | exact H2].
Defined.

Lemma authenticate_refusals_witness :
  authenticate sample.no_json scenes.verify_plain (fun _ => false) scenes.hash_of
               "kap213" "guess" scenes.roles_table scenes.user_roles_table
               sample.shelf
  = (false, MsgUserDisabled, None)
  /\ authenticate sample.no_json scenes.verify_plain scenes.all_active scenes.hash_of
                  "kap213" "guess" scenes.roles_table scenes.user_roles_table
                  sample.shelf
     = authenticate sample.no_json scenes.verify_plain scenes.all_active
                    scenes.hash_of "nobody" "guess" scenes.roles_table
                    scenes.user_roles_table sample.shelf.
Proof.
  split.
  - destruct (authenticate_refusals sample.no_json scenes.verify_plain
                (fun _ => false) scenes.hash_of "kap213" "guess" scenes.roles_table
                scenes.user_roles_table sample.shelf) as [_ H].
    destruct (H eq_refl eq_refl) as [_ H'].
    destruct (H' sample.reader eq_refl) as [Hd _].
    apply Hd. reflexivity.
  - reflexivity.
Defined.

Lemma delete_user_guarded_witness :
  delete_user sample.reader_session 2 scenes.roles_table scenes.user_roles_table
              scenes.staffed_shelf
  = ((scenes.user_roles_table, scenes.staffed_shelf), (false, MsgNoManageUsers))
  /\ fst (fst (delete_user scenes.admin_session 1 scenes.roles_table
                           scenes.user_roles_table scenes.staffed_shelf))
     = scenes.user_roles_table
  /\ reservations (snd (fst (delete_user scenes.admin_session 3 scenes.roles_table
                                         scenes.user_roles_table
                                         scenes.staffed_shelf))) = [].
Proof.
  split; [reflexivity|]. split.
  - destruct (delete_user_guarded scenes.admin_session 1 scenes.roles_table
                                  scenes.user_roles_table scenes.staffed_shelf)
      as [H _].
    cbv zeta in H. rewrite (H eq_refl). reflexivity.
  - destruct (delete_user_guarded scenes.admin_session 3 scenes.roles_table
                                  scenes.user_roles_table scenes.staffed_shelf)
      as [_ H].
    destruct (H eq_refl) as [_ [_ [_ [_ [_ [_ [_ [_ [Hr _]]]]]]]]].
    rewrite Hr. reflexivity.
Defined.

Lemma staffed_shelf_consistent : consistent scenes.staffed_shelf.
Proof.
  evaluate_store scenes.staffed_shelf. split.
  - intros c. unfold holders, reservation_holds. cbn -[Z.eqb].
    destruct (1 =? c); cbn; lia.
  - intros row Hrow Hav. cbn in Hrow.
    destruct Hrow as [<- | [<- | [<- | []]]]; try discriminate. reflexivity.
Defined.

Lemma delete_user_strands_copy_witness :
  let r := mk_Reservation 1 "active" 101 (mk_datetime 101 (mk_time 23 59 59 0))
                          false 3 1 1 in
  let st' := snd (fst (delete_user scenes.admin_session 3 scenes.roles_table
                                   scenes.user_roles_table scenes.staffed_shelf)) in
  let st'' := fst (expire_old_reservations (sample.at_noon 200) st') in
  keys scenes.staffed_shelf /\ consistent scenes.staffed_shelf
  /\ In r (reservations scenes.staffed_shelf)
  /\ reservations st' = []
  /\ (forall c', In c' (copies st'') -> copy_id c' = 1 -> copy_status c' = "reserved")
  /\ holders st'' 1 = 0%nat.
Proof.
  cbv zeta.
  assert (Hin : In (mk_Reservation 1 "active" 101
                                   (mk_datetime 101 (mk_time 23 59 59 0))
                                   false 3 1 1)
                   (reservations scenes.staffed_shelf)) by (now left).
  split; [exact staffed_shelf_keys|]. split; [exact staffed_shelf_consistent|].
  split; [exact Hin|]. split; [reflexivity|].
  destruct (delete_user_strands_copy scenes.admin_session 3 scenes.roles_table
              scenes.user_roles_table
              (fst (fst (delete_user scenes.admin_session 3 scenes.roles_table
                                     scenes.user_roles_table scenes.staffed_shelf)))
              scenes.staffed_shelf
              (snd (fst (delete_user scenes.admin_session 3 scenes.roles_table
                                     scenes.user_roles_table scenes.staffed_shelf)))
              MsgUserDeleted
              (mk_Reservation 1 "active" 101 (mk_datetime 101 (mk_time 23 59 59 0))
                              false 3 1 1)
              (mk_Copy 1 "INV-0001" "reserved" 1 (Some 1))
              staffed_shelf_keys staffed_shelf_consistent Hin eq_refl eq_refl
              (or_introl eq_refl) eq_refl eq_refl eq_refl
              (fst (expire_old_reservations
                      (sample.at_noon 200)
                      (snd (fst (delete_user scenes.admin_session 3
                                             scenes.roles_table
                                             scenes.user_roles_table
                                             scenes.staffed_shelf))))))
    as [_ [H1 [H2 _]]].
  - eapply reachable_step; [apply reachable_start|].
    apply step_expire_old_reservations.
  - split; [exact H1 | exact H2].
Defined.

(** * Two sessions at once *)

Lemma one_holding_reservation (st : Store) (r r' : Reservation) :
  (holders st (reservation_copy_id r) <= 1)%nat ->
  In r (reservations st) -> In r' (reservations st) ->
  reservation_status r = "active" ->
  reservation_holds (reservation_copy_id r) r' = true ->
  r' = r.
Proof.
  unfold holders. intros Hone Hr Hr' Hact Hholds.
  assert (Hself : reservation_holds (reservation_copy_id r) r = true).
  { unfold reservation_holds. rewrite Z.eqb_refl, Hact. reflexivity. }
  assert (Hlen : (List.length (filter (reservation_holds (reservation_copy_id r))
                                      (reservations st)) <= 1)%nat) by lia.
  clear Hone.
  induction (reservations st) as [|x xs IH]; [destruct Hr|].
  simpl in Hlen.
  destruct Hr as [-> | Hr], Hr' as [-> | Hr'].
  - reflexivity.
  - rewrite Hself in Hlen. simpl in Hlen.
    assert (H1 := count_one _ xs r' Hr' Hholds). lia.
  - rewrite Hholds in Hlen. simpl in Hlen.
    assert (H1 := count_one _ xs r Hr Hself). lia.
  - apply IH; try assumption.
    destruct (reservation_holds (reservation_copy_id r) x); simpl in Hlen; lia.
Qed.

(** With no other session in between, the two halves are
    [extend_reservation]. *)
Lemma extend_reservation_halves (now : datetime) (reader : User) (rid : Z)
      (st : Store) :
  keys st -> consistent st ->
  let st1 := fst (expire_old_reservations now st) in
  match snd (extend_reservation_read now reader rid st) with
  | inl m =>
      fst (extend_reservation_read now reader rid st) = st1
      /\ extend_reservation now reader rid st = (st1, Ret (false, m))
  | inr obj =>
      fst (extend_reservation_read now reader rid st) = st1
      /\ extend_reservation_save obj st1 = extend_reservation now reader rid st
  end.
Proof.
  intros Hk Hst st1.
  assert (Hk1 : keys st1) by (apply (keys_txn st); [assumption | now apply txn_expire]).
  assert (Hst1 : consistent st1) by (now apply consistent_expire).
  assert (Hrun := extend_reservation_run now reader rid st). cbv zeta in Hrun.
  fold st1 in Hrun.
  unfold extend_reservation_read. fold st1.
  destruct (get_or_none (fun r => reservation_id r =? rid) (reservations st1))
    as [res|] eqn:Hres; [|now split].
  destruct (negb (reservation_reader_id res =? user_id reader)); [now split|].
  destruct (negb (reservation_status res =? "active")%string) eqn:Hact;
    [now split|].
  destruct (reservation_extended_once res); [now split|].
  cbv zeta. cbn [fst snd]. split; [reflexivity|]. rewrite Hrun.
  apply negb_false_iff, String.eqb_eq in Hact.
  apply get_or_none_some in Hres. destruct Hres as [Hin _].
  destruct Hk1 as [_ [_ [Hnd _]]]. destruct Hst1 as [Hone _].
  unfold extend_reservation_save, save_reservation.
  cbn [reservation_status reservation_copy_id reservation_id
       reservation_pickup_date extend_row].
  replace (existsb _ (reservations st1)) with false.
  - rewrite andb_false_r. f_equal. f_equal.
    unfold update_where. apply map_ext_in. intros x Hx.
    destruct (reservation_id x =? reservation_id res) eqn:E; [|reflexivity].
    apply Z.eqb_eq in E.
    now rewrite (NoDup_key_inj reservation_id _ x res Hnd Hx Hin E).
  - symmetry. apply not_true_is_false. intros E.
    apply existsb_exists in E. destruct E as [x [Hx E]].
    apply andb_prop in E. destruct E as [Hholds Hother].
    rewrite (one_holding_reservation st1 res x (Hone _) Hin Hx Hact Hholds)
      in Hother.
    now rewrite Z.eqb_refl in Hother.
Qed.

(** C1 does not hold of the code when two calls overlap.  On the shelf
    with reservation 1 of copy 1, every copy has at most one holder.  The
    reader's session asks to extend the reservation and has read it, still
    active, without a lock; the librarian's session then fulfils it, which
    commits the loan; the reader's session saves what it read.  The save
    puts the status [active] back: copy 1 now has an open loan and an
    active reservation. *)
Theorem extend_beside_fulfill_two_holders :
  let st0 := sample.reserved_shelf in
  let read := extend_reservation_read (sample.at_noon 100) sample.reader 1 st0 in
  let obj := mk_Reservation 1 "active" 102 (mk_datetime 102 (mk_time 23 59 59 0))
                            true 3 1 1 in
  let handed := fulfill_reservation 100 (sample.at_noon 100) sample.librarian 1 14
                                    (fst read) in
  let saved := extend_reservation_save obj (fst handed) in
  (forall c, (holders st0 c <= 1)%nat)
  /\ holders st0 1 = 1%nat
  /\ read = (st0, inr obj)
  /\ snd handed = Ret (true, MsgFulfilled 114)
  /\ (forall c, (holders (fst handed) c <= 1)%nat)
  /\ snd saved = Ret (true, MsgExtended 102)
  /\ loans (fst saved) = [mk_Loan 1 "open" 100 114 None 1 3 2]
  /\ reservations (fst saved) = [obj]
  /\ map copy_status (copies (fst saved)) = ["loaned"; "available"; "lost"]
  /\ holders (fst saved) 1 = 2%nat
  /\ (let open_or_overdue :=
        filter (fun l => (loan_copy_id l =? 1)
                         && status_in (loan_status l) ["open"; "overdue"])
               (loans (fst saved)) in
      let active :=
        filter (fun r => (reservation_copy_id r =? 1)
                         && (reservation_status r =? "active")%string)
               (reservations (fst saved)) in
      ~ (List.length open_or_overdue + List.length active <= 1)%nat).
Proof.
  cbv zeta.
  assert (Hone : forall st, loans st = [] ->
                   map reservation_copy_id (reservations st) = [1] ->
                   forall c, (holders st c <= 1)%nat).
  { intros st Hl Hr c. unfold holders. rewrite Hl.
    destruct (reservations st) as [|r [|r' rs]]; try discriminate.
    simpl. destruct (reservation_holds c r); simpl; lia. }
  assert (Hone' : forall st, reservations st = [] ->
                    map loan_copy_id (loans st) = [1] ->
                    forall c, (holders st c <= 1)%nat).
  { intros st Hr Hl c. unfold holders. rewrite Hr.
    destruct (loans st) as [|l [|l' ls]]; try discriminate.
    simpl. destruct (loan_holds c l); simpl; lia. }
  split; [apply Hone; reflexivity|].
  split; [reflexivity|]. split; [reflexivity|]. split; [reflexivity|].
  split.
  { intros c. unfold holders.
    replace (loans _) with [mk_Loan 1 "open" 100 114 None 1 3 2] by reflexivity.
    replace (reservations _)
      with [mk_Reservation 1 "fulfilled" 101
                           (mk_datetime 101 (mk_time 23 59 59 0)) false 3 1 1]
      by reflexivity.
    simpl. destruct (loan_holds c _); simpl.
    - unfold reservation_holds. simpl. rewrite andb_false_r. simpl. lia.
    - unfold reservation_holds. simpl. rewrite andb_false_r. simpl. lia. }
  repeat (split; [reflexivity|]).
  vm_compute. lia.
Qed.
